(** * disaster-response: the ETL pipeline of [data/process_data.py]

    A shallow embedding of the four functions of [process_data.py]
    ([load_data], [clean_data], [save_data], [main]) together with the part
    of the pandas API they call, and the properties the specification
    states about them.

    Conventions of the embedding.
    - A pandas [DataFrame] is a row index (integer labels) and an ordered
      list of labelled columns; every column is a list of cells.  Column
      labels are strings for the tables read from CSV files and positions
      (0, 1, ...) for the table that [str.split(expand=True)] builds.
    - A cell is a string, an integer, or the missing value (pandas' NaN and
      None, which the program never tells apart).  Floating-point numbers
      that are not integers are outside the model; strings are sequences of
      one-byte characters.
    - The dtype of a column is the one pandas' CSV reader infers from its
      cells: a column with a string cell, or without any cell, is [object];
      any other column is numeric, [float64] when it has a missing value
      and an integer type when it has none.  An integer cell of a
      [float64] column stands for the nearest [float64] value.
    - Python exceptions are the [Raise] results of the [result] monad. *)

From Stdlib Require Import Ascii String ZArith.
From stdpp Require Import base decidable option list numbers strings countable
  gmap fin_sets.

Open Scope string_scope.
Open Scope list_scope.
Open Scope Z_scope.

(** ** Exceptions and the error monad *)

(** The exception classes the program meets in pandas and SQLite;
    [OtherError] is an exception of any other class, by its name, such as
    the ones a storage engine raises on a schema it rejects. *)
Inductive exn :=
  | KeyError
  | AttributeError
  | ValueError
  | IndexError
  | FileError
  | OperationalError
  | OtherError (name : string).

#[global] Instance exn_eq_dec : EqDecision exn.
Proof. solve_decision. Defined.

Inductive result (A : Type) :=
  | Ok (a : A)
  | Raise (e : exn).
Arguments Ok {A} a.
Arguments Raise {A} e.

#[global] Instance result_ret : MRet result := λ A a, Ok a.
#[global] Instance result_bind : MBind result := λ A B f m,
  match m with
  | Ok a => f a
  | Raise e => Raise e
  end.
#[global] Instance result_fmap : FMap result := λ A B f m,
  match m with
  | Ok a => Ok (f a)
  | Raise e => Raise e
  end.

(** The call returns a value; the call ends in an exception. *)
Definition is_ok {A} (m : result A) : Prop := ∃ a, m = Ok a.
Definition raises {A} (m : result A) : Prop := ∃ e, m = Raise e.

(** [for x in l: s = body(s, x)], stopping at the first exception. *)
Fixpoint for_each {A S} (body : S → A → result S) (l : list A) (s : S)
    : result S :=
  match l with
  | [] => Ok s
  | x :: l' => s' ← body s x; for_each body l' s'
  end.

(** A list comprehension [[f(x) for x in l]] whose body may raise. *)
Fixpoint comprehension {A B} (f : A → result B) (l : list A)
    : result (list B) :=
  match l with
  | [] => Ok []
  | x :: l' => y ← f x; ys ← comprehension f l'; Ok (y :: ys)
  end.

(** ** Python strings *)

(** [s.split(sep)] for a one-character separator: every occurrence of
    [sep] ends a piece, so the result is never empty and [''.split(sep)]
    is [['']]. *)
Fixpoint split (sep : ascii) (s : string) : list string :=
  match s with
  | EmptyString => [EmptyString]
  | String c s' =>
      if decide (c = sep) then EmptyString :: split sep s'
      else match split sep s' with
           | [] => [String c EmptyString]
           | t :: ts => String c t :: ts
           end
  end.

(** [s[-1]], absent for the empty string. *)
Fixpoint last_char (s : string) : option ascii :=
  match s with
  | EmptyString => None
  | String c EmptyString => Some c
  | String _ s' => last_char s'
  end.

(** The value of a decimal digit. *)
Definition digit_value (c : ascii) : option Z :=
  let n := Z.of_nat (nat_of_ascii c) in
  if bool_decide (48 ≤ n ≤ 57) then Some (n - 48) else None.

Fixpoint digits_value (acc : Z) (s : string) : option Z :=
  match s with
  | EmptyString => Some acc
  | String c s' => d ← digit_value c; digits_value (10 * acc + d) s'
  end.

(** [int(s)] on a string of decimal digits; [ValueError] otherwise.  The
    program only converts one-character strings, for which this is all of
    Python's integer syntax (signs, blanks and underscores need a second
    character). *)
Definition int_of_str (s : string) : result Z :=
  match s with
  | EmptyString => Raise ValueError
  | _ => match digits_value 0 s with
         | Some z => Ok z
         | None => Raise ValueError
         end
  end.

(** ** Cells, series and frames *)

Inductive cell :=
  | Str (s : string)
  | Int (z : Z)
  | NaN.

#[global] Instance cell_eq_dec : EqDecision cell.
Proof. solve_decision. Defined.

#[global] Instance cell_countable : Countable cell.
Proof.
  refine (inj_countable'
    (λ c, match c with
          | Str s => inl s
          | Int z => inr (Some z)
          | NaN => inr None
          end)
    (λ x, match x with
          | inl s => Str s
          | inr (Some z) => Int z
          | inr None => NaN
          end) _).
  by intros [].
Defined.

Definition is_str (c : cell) : bool :=
  match c with Str _ => true | _ => false end.

Abbreviation Series := (list cell).

Record Frame (L : Type) := MkFrame {
  index : list Z;
  data : list (L * Series)
}.
Arguments MkFrame {L} index data.
Arguments index {L} f.
Arguments data {L} f.

(** Tables read from files carry string labels. *)
Abbreviation DataFrame := (Frame string).

(** Positions at which [x] occurs in [l]. *)
Definition positions {A} `{EqDecision A} (x : A) (l : list A) : list nat :=
  filter (λ i, l !! i = Some x) (seq 0 (length l)).

(** Boolean-mask selection [x[~mask]] on a list. *)
Fixpoint select_unmarked {A} (mask : list bool) (l : list A) : list A :=
  match mask, l with
  | m :: mask', x :: l' =>
      if m then select_unmarked mask' l' else x :: select_unmarked mask' l'
  | _, _ => []
  end.

(** The duplicate marks of a list of rows, given the rows already seen: a
    row is marked when it was seen or occurs earlier in the list. *)
Definition marks {A} `{EqDecision A} (seen rs : list A) : list bool :=
  imap (λ i r, bool_decide (r ∈ seen ++ take i rs)) rs.

Section frame.
Context {L : Type} `{EqDecision L}.
Implicit Types (df : Frame L) (s : Series).

(** [df.columns] and [len(df)]. *)
Definition columns df : list L := (data df).*1.

Definition nrows df : nat := length (index df).

(** The cells of the row at position [i], in column order. *)
Definition row_at df (i : nat) : list cell :=
  map (λ c, nth i c.2 NaN) (data df).

(** [df.values]: all rows, in order. *)
Definition rows df : list (list cell) :=
  map (row_at df) (seq 0 (nrows df)).

(** The invariant of a pandas frame: every column has one cell per entry
    of the index. *)
Definition wf df : Prop :=
  Forall (λ c, length c.2 = nrows df) (data df).

#[global] Instance wf_dec df : Decision (wf df).
Proof. unfold wf. apply _. Defined.

(** [df[key]] followed by a Series attribute.  One column of that label
    is a Series; no column is a [KeyError]; several columns select a
    DataFrame, on which the attribute access ([.str], [.map]) fails. *)
Definition getitem df (key : L) : result Series :=
  match filter (λ c, c.1 = key) (data df) with
  | [] => Raise KeyError
  | [c] => Ok c.2
  | _ => Raise AttributeError
  end.

(** [df[key] = s] for a Series [s] that carries the index of [df]:
    columns labelled [key] are overwritten in place, a new label is
    appended. *)
Definition setitem df (key : L) s : Frame L :=
  if bool_decide (key ∈ columns df)
  then MkFrame (index df)
         (map (λ c, if decide (c.1 = key) then (key, s) else c) (data df))
  else MkFrame (index df) (data df ++ [(key, s)]).

(** [df.drop(columns=labels)]. *)
Definition drop_columns (labels : list L) df : result (Frame L) :=
  if bool_decide (labels ⊆ columns df)
  then Ok (MkFrame (index df) (filter (λ c, c.1 ∉ labels) (data df)))
  else Raise KeyError.

(** [df.take(ps)]: the rows at positions [ps], in that order. *)
Definition take_rows (ps : list nat) df : Frame L :=
  MkFrame (map (λ p, nth p (index df) 0) ps)
          (map (λ c, (c.1, map (λ p, nth p c.2 NaN) ps)) (data df)).

(** [df.loc[l, :]]: the row labelled [l] as a Series when the label is
    unique, the sub-frame of all rows labelled [l] when it is not, and a
    [KeyError] when no row has it. *)
Definition loc_row df (l : Z) : result (list cell + Frame L) :=
  match positions l (index df) with
  | [] => Raise KeyError
  | [p] => Ok (inl (row_at df p))
  | ps => Ok (inr (take_rows ps df))
  end.

(** [df.columns = names]. *)
Definition set_columns {L'} (names : list L') df : result (Frame L') :=
  if decide (length names = length (data df))
  then Ok (MkFrame (index df) (zip names (data df).*2))
  else Raise ValueError.

(** [pd.concat([a, b], axis=1)] for two frames over the same index (the
    only use in the program: [b] is computed column by column from a
    column of [a]), where no realignment of rows takes place. *)
Definition concat_axis1 (a b : Frame L) : Frame L :=
  MkFrame (index a) (data a ++ data b).

(** [df.duplicated()]: a row is marked when an earlier row has the same
    cell in every column (missing values compare equal here). *)
Definition duplicated df : list bool := marks [] (rows df).

(** [df.drop_duplicates()]: an empty frame (no row or no column) is
    returned as it is; otherwise the rows marked by [duplicated] are
    removed, the others keep their order and their index labels. *)
Definition drop_duplicates df : Frame L :=
  if bool_decide (index df = [] ∨ data df = []) then df
  else
    let mask := duplicated df in
    MkFrame (select_unmarked mask (index df))
            (map (λ c, (c.1, select_unmarked mask c.2)) (data df)).
End frame.

(** ** The string accessor of a Series *)

(** [s.str] is available on [object] columns whose values are strings (or
    on a column without values); on a numeric column it raises
    [AttributeError]. *)
Definition str_accessor (s : Series) : result Series :=
  if bool_decide (s = []) || existsb is_str s then Ok s
  else Raise AttributeError.

(** One element of [s.str.split(sep)]: the pieces of a string, the missing
    value for anything else. *)
Definition split_cell (sep : ascii) (c : cell) : list cell :=
  match c with
  | Str t => Str <$> split sep t
  | _ => [NaN]
  end.

(** [s.str.split(sep, expand=True)]: one column per piece position,
    labelled 0, 1, ...; as many columns as the longest row has pieces.
    Rows with fewer pieces, and rows that are not strings, are filled with
    missing values. *)
Definition str_split_expand (sep : ascii) (idx : list Z) (s : Series)
    : result (Frame nat) :=
  s ← str_accessor s;
  let pieces := map (split_cell sep) s in
  let width := max_list (length <$> pieces) in
  Ok (MkFrame idx
        (map (λ j, (j, map (λ r, nth j r NaN) pieces)) (seq 0 width))).

(** One element of [s.str[-1]]. *)
Definition last_cell (c : cell) : cell :=
  match c with
  | Str t => match last_char t with
             | Some a => Str (String a EmptyString)
             | None => NaN
             end
  | _ => NaN
  end.

(** [s.str[-1]]. *)
Definition str_get_last (s : Series) : result Series :=
  s ← str_accessor s; Ok (map last_cell s).

(** One element of [s.astype(int)]. *)
Definition int_of_cell (c : cell) : result cell :=
  match c with
  | Str t => Int <$> int_of_str t
  | Int z => Ok (Int z)
  | NaN => Raise ValueError
  end.

(** [s.astype(int)]. *)
Definition astype_int (s : Series) : result Series :=
  comprehension int_of_cell s.

(** [lambda x: 1 if x == 2 else x]. *)
Definition binarize (x : cell) : cell :=
  if decide (x = Int 2) then Int 1 else x.

(** [pd.to_numeric(s)]: numbers are returned as they are, strings are
    parsed (as integers: other numerals have no cell to hold them). *)
Definition to_numeric (s : Series) : result Series :=
  comprehension (λ c, match c with
                      | Str t => Int <$> int_of_str t
                      | _ => Ok c
                      end) s.

(** ** [clean_data] *)

(** [c.split("-")[0]] for an element [c] of the first row. *)
Definition split_prefix (c : cell) : result string :=
  match c with
  | Str t => match split "-" t with
             | x :: _ => Ok x
             | [] => Raise IndexError
             end
  | _ => Raise AttributeError
  end.

(** What [for c in row] yields: the values of a Series, the column labels
    of a DataFrame. *)
Definition iter_row (row : list cell + Frame nat) : list cell :=
  match row with
  | inl r => r
  | inr f => (λ j, Int (Z.of_nat j)) <$> columns f
  end.

(** The body of the loop over the category columns (lines 36-43). *)
Definition clean_column (categories : DataFrame) (column : string)
    : result DataFrame :=
  s ← getitem categories column;
  s ← str_get_last s;
  s ← astype_int s;
  let categories := setitem categories column s in
  s ← getitem categories column;
  let categories := setitem categories column (map binarize s) in
  s ← getitem categories column;
  s ← to_numeric s;
  Ok (setitem categories column s).

(** [clean_data(df)], statement by statement (lines 28-50). *)
Definition clean_data (df : DataFrame) : result DataFrame :=
  s ← getitem df "categories";
  categories ← str_split_expand ";" (index df) s;
  row ← loc_row categories 0;
  category_colnames ← comprehension split_prefix (iter_row row);
  categories ← set_columns category_colnames categories;
  categories ← for_each clean_column (columns categories) categories;
  df ← drop_columns ["categories"] df;
  let df := concat_axis1 df categories in
  Ok (drop_duplicates df).

(** The table of category columns once line 33 has named them. *)
Definition name_categories (df : DataFrame) : result DataFrame :=
  s ← getitem df "categories";
  categories ← str_split_expand ";" (index df) s;
  row ← loc_row categories 0;
  category_colnames ← comprehension split_prefix (iter_row row);
  set_columns category_colnames categories.

(** The table that lines 28-46 build, before duplicates are dropped. *)
Definition expand_categories (df : DataFrame) : result DataFrame :=
  s ← getitem df "categories";
  categories ← str_split_expand ";" (index df) s;
  row ← loc_row categories 0;
  category_colnames ← comprehension split_prefix (iter_row row);
  categories ← set_columns category_colnames categories;
  categories ← for_each clean_column (columns categories) categories;
  df ← drop_columns ["categories"] df;
  Ok (concat_axis1 df categories).

(** ** [pd.merge(left, right, on=[key], how="inner")] *)

Definition is_int (c : cell) : bool :=
  match c with Int _ => true | _ => false end.

(** pandas refuses to join a key column of strings with a numeric key
    column; a column without values joins with anything. *)
Definition string_keys (s : Series) : bool :=
  existsb is_str s && negb (existsb is_int s).

Definition numeric_keys (s : Series) : bool :=
  negb (bool_decide (s = [])) && negb (existsb is_str s).

Definition merge_keys_ok (lk rk : Series) : bool :=
  negb (string_keys lk && numeric_keys rk || numeric_keys lk && string_keys rk).

(** The key column: it must exist and its label must be unique. *)
Definition key_column (df : DataFrame) (key : string) : result Series :=
  match filter (λ c, c.1 = key) (data df) with
  | [] => Raise KeyError
  | [c] => Ok c.2
  | _ => Raise ValueError
  end.

(** The type pandas gives a key column.  A column without values, with a
    string, or with an integer that fits neither integer type holds Python
    objects; a numeric column with a missing value is [float64]; the other
    numeric columns are [int64], or [uint64] when a value exceeds the
    signed range.  (Decimal fractions have no cell to hold them, so a
    numeric column without missing value is an integer column.) *)
Inductive dtype := Int64 | UInt64 | Float64 | Object.

#[global] Instance dtype_eq_dec : EqDecision dtype.
Proof. solve_decision. Defined.

Definition is_nan (c : cell) : bool :=
  match c with NaN => true | _ => false end.

Definition in_range (lo hi : Z) (c : cell) : bool :=
  match c with
  | Int z => bool_decide (lo ≤ z < hi)
  | _ => false
  end.

Definition key_dtype (s : Series) : dtype :=
  if bool_decide (s = []) || existsb is_str s then Object
  else if existsb is_nan s then Float64
  else if forallb (in_range (- 2 ^ 63) (2 ^ 63)) s then Int64
  else if forallb (in_range 0 (2 ^ 64)) s then UInt64
  else Object.

(** The integer nearest to [z] that a [float64] holds: 53 significant
    bits, a tie rounded to the even significand, and one value, the
    infinity, for everything from [2 ^ 1024] on. *)
Definition to_float64 (z : Z) : Z :=
  let a := Z.abs z in
  let e := Z.log2 a - 52 in
  if bool_decide (e ≤ 0) then z
  else
    let q := Z.shiftr a e in
    let r := a - Z.shiftl q e in
    let half := Z.shiftl 1 (e - 1) in
    let q' := if bool_decide (r < half) then q
              else if bool_decide (half < r) then q + 1
              else if Z.even q then q else q + 1 in
    let v := Z.shiftl q' e in
    Z.sgn z * (if bool_decide (2 ^ 1024 ≤ v) then 2 ^ 1024 else v).

(** Whether the integers of a key column of type [own] are compared as
    [float64] values when the other key column has type [other]: a
    [float64] column holds such values, and two numeric columns of
    different types are both converted to [float64], their common type. *)
Definition rounds (own other : dtype) : bool :=
  match own, other with
  | Float64, _ => true
  | Int64, UInt64 | Int64, Float64 | UInt64, Int64 | UInt64, Float64 => true
  | _, _ => false
  end.

(** The value by which the join compares a key. *)
Definition merge_key (own other : dtype) (c : cell) : cell :=
  match c with
  | Int z => if rounds own other then Int (to_float64 z) else c
  | _ => c
  end.

Definition left_key (lk rk : Series) : cell → cell :=
  merge_key (key_dtype lk) (key_dtype rk).

Definition right_key (lk rk : Series) : cell → cell :=
  merge_key (key_dtype rk) (key_dtype lk).

Definition left_keys (lk rk : Series) : Series := left_key lk rk <$> lk.

Definition right_keys (lk rk : Series) : Series := right_key lk rk <$> rk.

(** The join compares the keys as they stand: no identifier is changed
    by the conversion of its column. *)
Definition exact_keys (lk rk : Series) : Prop :=
  left_keys lk rk = lk ∧ right_keys lk rk = rk.

#[global] Instance exact_keys_dec lk rk : Decision (exact_keys lk rk).
Proof. unfold exact_keys. apply _. Defined.

(** The pairs (left position, right position) of rows with equal keys, in
    the order of the left rows (the order pandas documents for an inner
    join) and, for one left row, of the right rows.  Missing keys match
    each other, as they do in pandas. *)
Definition join_positions (lk rk : Series) : list (nat * nat) :=
  mjoin (imap (λ i k, (λ j, (i, j)) <$> positions k rk) lk).

(** A label shared by both sides, other than the key, receives the
    suffix of its side. *)
Definition suffixed (others : list string) (suffix key c : string)
    : string :=
  if bool_decide (c ≠ key ∧ c ∈ others) then c +:+ suffix else c.

(** The joined table: the columns of [left], then the columns of [right]
    other than the key, over a fresh default index.  The rows are paired
    by the values [left_keys] and [right_keys] of their keys; the cells
    of the joined table are those of the inputs. *)
Definition merge (key : string) (left right : DataFrame)
    : result DataFrame :=
  lk ← key_column left key;
  rk ← key_column right key;
  if merge_keys_ok lk rk then
    let ps := join_positions (left_keys lk rk) (right_keys lk rk) in
    let l := take_rows ps.*1 left in
    let r := take_rows ps.*2 right in
    Ok (MkFrame (Z.of_nat <$> seq 0 (length ps))
          (map (λ c, (suffixed (columns right) "_x" key c.1, c.2)) (data l)
           ++ map (λ c, (suffixed (columns left) "_y" key c.1, c.2))
                (filter (λ c, c.1 ≠ key) (data r))))
  else Raise ValueError.

(** ** The relational store *)

(** A persisted table: column names and rows, without the row index
    ([index=False]). *)
Record Table := MkTable {
  table_columns : list string;
  table_rows : list (list cell)
}.

#[global] Instance Table_eq_dec : EqDecision Table.
Proof. solve_decision. Defined.

Definition table_of (df : DataFrame) : Table :=
  MkTable (columns df) (rows df).

(** A store maps the URL of a database file to the tables of that
    database, by name.  (SQLite's in-memory pseudo-files keep nothing and
    are not store locations.) *)
Abbreviation Database := (gmap string Table).
Abbreviation Store := (gmap string (gmap string Table)).

Inductive if_exists := IfExistsFail | IfExistsReplace | IfExistsAppend.

(** [create_engine(url)] only records the URL; the database is opened by
    the first statement. *)
Definition create_engine (url : string) : string := url.

(** The message of the [else] branch of [main] (lines 82-87). *)
Definition usage : string :=
  "Please provide the filepaths of the messages and categories " +:+
  "datasets as the first and second argument respectively, as " +:+
  "well as the filepath of the database to save the cleaned data " +:+
  "to as the third argument. " +:+
  String (ascii_of_nat 10) (String (ascii_of_nat 10)
  ("Example: python process_data.py " +:+
  "disaster_messages.csv disaster_categories.csv " +:+
  "DisasterResponse.db")).

(** A line break followed by the four blanks of the progress messages. *)
Definition nl4 : string := String (ascii_of_nat 10) "    ".

Section pipeline.
(** The two external collaborators: the CSV reader, which maps a path to
    the table it holds or to the exception it raises, and the storage
    engine, which may refuse a write (location that cannot be opened or
    written, column type or schema it rejects) with an exception of its
    choice. *)
Variable read_csv : string → result DataFrame.
Variable engine_accepts : string → DataFrame → bool.
Variable engine_refusal : string → DataFrame → exn.

(** [load_data(messages_filepath, categories_filepath)] (lines 14-17). *)
Definition load_data (messages_filepath categories_filepath : string)
    : result DataFrame :=
  messages ← read_csv messages_filepath;
  categories ← read_csv categories_filepath;
  merge "id" messages categories.

(** [df.to_sql(name, engine, index=False, if_exists=mode)]. *)
Definition to_sql (df : DataFrame) (name engine : string)
    (mode : if_exists) (st : Store) : result Store :=
  if engine_accepts engine df then
    let db := default ∅ (st !! engine) in
    match db !! name, mode with
    | Some _, IfExistsFail => Raise ValueError
    | Some t, IfExistsAppend =>
        if decide (table_columns t = columns df)
        then Ok (<[engine := <[name :=
               MkTable (table_columns t) (table_rows t ++ rows df)]> db]> st)
        else Raise OperationalError
    | _, _ => Ok (<[engine := <[name := table_of df]> db]> st)
    end
  else Raise (engine_refusal engine df).

(** [save_data(df, database_filename)] (lines 60-61). *)
Definition save_data (df : DataFrame) (database_filename : string)
    (st : Store) : result Store :=
  let engine := create_engine ("sqlite:///" +:+ database_filename) in
  to_sql df "DisasterResponse" engine IfExistsReplace st.

(** [main] on the argument vector [sys.argv] and the store: the lines
    printed, and the store left behind or the exception that ended the
    run. *)
Definition main (argv : list string) (st : Store)
    : list string * result Store :=
  match argv with
  | [_; messages_filepath; categories_filepath; database_filepath] =>
      let out := ["Loading data..." +:+ nl4 +:+ "MESSAGES: "
                  +:+ messages_filepath +:+ nl4 +:+ "CATEGORIES: "
                  +:+ categories_filepath] in
      match load_data messages_filepath categories_filepath with
      | Raise e => (out, Raise e)
      | Ok df =>
          let out := (out ++ ["Cleaning data..."])%list in
          match clean_data df with
          | Raise e => (out, Raise e)
          | Ok df =>
              let out := (out ++ ["Saving data..." +:+ nl4 +:+ "DATABASE: "
                                  +:+ database_filepath])%list in
              match save_data df database_filepath st with
              | Raise e => (out, Raise e)
              | Ok st' =>
                  ((out ++ ["Cleaned data saved to database!"])%list, Ok st')
              end
          end
      end
  | _ => ([usage], Ok st)
  end.

(** The exit status of the interpreter: 0 when [main] returns, 1 when an
    exception escapes. *)
Definition exit_status (r : result Store) : Z :=
  match r with
  | Ok _ => 0
  | Raise _ => 1
  end.
End pipeline.

(** ** The specification's reading of a packed categories value *)

(** The integer parse of the last character of a token, when that
    character is a decimal digit. *)
Definition token_value (t : string) : option Z :=
  a ← last_char t; digit_value a.

(** The normalization rule: 2 becomes 1, any other value is kept. *)
Definition normalize (z : Z) : Z := if decide (z = 2) then 1 else z.

(** The name of a token: what precedes its first [-]. *)
Definition category_name (t : string) : string :=
  default EmptyString (head (split "-" t)).

(** The pieces of a list, written one after the other with [sep] between
    two of them. *)
Fixpoint joined (sep : ascii) (pieces : list string) : string :=
  match pieces with
  | [] => EmptyString
  | [t] => t
  | t :: ts => t +:+ String sep (joined sep ts)
  end.

(** [sep] does not occur in [s]. *)
Fixpoint sep_free (sep : ascii) (s : string) : bool :=
  match s with
  | EmptyString => true
  | String c s' => negb (bool_decide (c = sep)) && sep_free sep s'
  end.

(** The [sep]-separated tokens of a packed value, in the words of the
    specification: the value is the tokens joined by [sep], and no token
    holds a [sep]. *)
Definition tokens_of (sep : ascii) (s : string) (toks : list string) : Prop :=
  toks ≠ [] ∧ Forall (λ t, sep_free sep t = true) toks ∧ joined sep toks = s.

(** The prefix of a token: the part without [sep] that the token is, or
    that a [sep] follows in the token. *)
Definition prefix_of (sep : ascii) (t name : string) : Prop :=
  sep_free sep name = true ∧
  (t = name ∨ ∃ rest, t = name +:+ String sep rest).

(** The number of tokens of a packed value: one more than it has
    separators. *)
Fixpoint token_count (sep : ascii) (s : string) : nat :=
  match s with
  | EmptyString => 1
  | String c s' =>
      if decide (c = sep) then S (token_count sep s') else token_count sep s'
  end.

(** The values of all tokens of a packed cell. *)
Definition category_values (c : cell) : option (list Z) :=
  match c with
  | Str s => mapM token_value (split ";" s)
  | _ => None
  end.

(** The character that follows the last occurrence of [sep] in [s]: the
    first character of the last piece, when [s] has a separator. *)
Definition char_after_last (sep : ascii) (s : string) : option ascii :=
  match split sep s with
  | [] | [_] => None
  | pieces => match last pieces with
              | Some (String a _) => Some a
              | _ => None
              end
  end.

(** What lines 37-43 make of one cell of a category column. *)
Definition cleaned_cell (c c' : cell) : Prop :=
  ∃ t z, c = Str t ∧ token_value t = Some z ∧ c' = Int (normalize z).

(** The same for a labelled column: the label stays. *)
Definition cleaned_column (c c' : string * Series) : Prop :=
  c.1 = c'.1 ∧ Forall2 cleaned_cell c.2 c'.2.

(** ** The inputs [clean_data] accepts *)

(** A packed cell of [n] tokens, each ending in a digit. *)
Definition packed_ok (n : nat) (c : cell) : Prop :=
  ∃ s vs, c = Str s ∧ mapM token_value (split ";" s) = Some vs ∧ length vs = n.

(** One [categories] column, one row labelled 0, whose tokens have
    pairwise distinct names, and in every row as many tokens as in that row,
    each ending in a digit. *)
Definition cleanable (df : DataFrame) : Prop :=
  ∃ cats p0 s0,
    getitem df "categories" = Ok cats ∧
    positions 0 (index df) = [p0] ∧
    cats !! p0 = Some (Str s0) ∧
    NoDup (category_name <$> split ";" s0) ∧
    Forall (packed_ok (length (split ";" s0))) cats.

(** What the specification makes of one row of the joined table whose
    packed cell is at position [p]: the other cells, followed by the
    normalized values of the tokens. *)
Definition cleaned_row (p : nat) (r : list cell) : option (list cell) :=
  vs ← category_values (nth p r NaN);
  Some (delete p r ++ (Int ∘ normalize <$> vs)).

(** ** Example tables *)

Definition packed_example : DataFrame :=
  MkFrame [0]
    [("id", [Int 1]); ("message", [Str "flood"]);
     ("categories", [Str "related-1;request-0;offer-2"])].

Definition packed_example_cleaned : DataFrame :=
  MkFrame [0]
    [("id", [Int 1]); ("message", [Str "flood"]);
     ("related", [Int 1]); ("request", [Int 0]); ("offer", [Int 1])].

(** A token whose last [-] is followed by two characters. *)
Definition dash_example : DataFrame :=
  MkFrame [0] [("id", [Int 7]); ("categories", [Str "related-10"])].

Definition dash_example_cleaned : DataFrame :=
  MkFrame [0] [("id", [Int 7]); ("related", [Int 0])].

(** A table whose [categories] column has no row. *)
Definition empty_example : DataFrame :=
  MkFrame [] [("id", []); ("message", []); ("categories", [])].

(** Two identical joined rows, and a third one. *)
Definition duplicate_example : DataFrame :=
  MkFrame [0; 1; 2]
    [("id", [Int 1; Int 2; Int 1]);
     ("message", [Str "flood"; Str "fire"; Str "flood"]);
     ("categories", [Str "related-1;request-0"; Str "related-2;request-1";
                     Str "related-1;request-0"])].

Definition duplicate_example_cleaned : DataFrame :=
  MkFrame [0; 1]
    [("id", [Int 1; Int 2]);
     ("message", [Str "flood"; Str "fire"]);
     ("related", [Int 1; Int 1]); ("request", [Int 0; Int 1])].

(** Two input files: three messages, and categories for two of them and
    for an identifier without message. *)
Definition messages_example : DataFrame :=
  MkFrame [0; 1; 2]
    [("id", [Int 1; Int 2; Int 3]);
     ("message", [Str "flood"; Str "fire"; Str "quake"])].

Definition categories_example : DataFrame :=
  MkFrame [0; 1; 2]
    [("id", [Int 3; Int 1; Int 4]);
     ("categories", [Str "related-1;request-0"; Str "related-2;request-1";
                     Str "related-0;request-0"])].

Definition example_files (path : string) : result DataFrame :=
  if decide (path = "messages.csv") then Ok messages_example
  else if decide (path = "categories.csv") then Ok categories_example
  else Raise FileError.

Definition joined_example : DataFrame :=
  MkFrame [0; 1]
    [("id", [Int 1; Int 3]);
     ("message", [Str "flood"; Str "quake"]);
     ("categories", [Str "related-2;request-1"; Str "related-1;request-0"])].

(** An engine that accepts every write. *)
Definition accept_all (engine : string) (df : DataFrame) : bool := true.

(** The exception of an engine whose refusals all come from SQLite. *)
Definition refuse_operational (engine : string) (df : DataFrame) : exn :=
  OperationalError.

(** The end-to-end scenario of the specification: one message and its
    categories. *)
Definition flood_files (path : string) : result DataFrame :=
  if decide (path = "messages.csv")
  then Ok (MkFrame [0] [("id", [Int 1]); ("message", [Str "flood"])])
  else if decide (path = "categories.csv")
  then Ok (MkFrame [0] [("id", [Int 1]);
                        ("categories", [Str "related-1;request-0"])])
  else Raise FileError.

(** The joined and the cleaned table of the end-to-end scenario. *)
Definition flood_joined : DataFrame :=
  MkFrame [0]
    [("id", [Int 1]); ("message", [Str "flood"]);
     ("categories", [Str "related-1;request-0"])].

Definition flood_cleaned : DataFrame :=
  MkFrame [0]
    [("id", [Int 1]); ("message", [Str "flood"]);
     ("related", [Int 1]); ("request", [Int 0])].

(** Files in which identifiers repeat: twice among the messages, twice
    among the categories. *)
Definition repeated_messages : DataFrame :=
  MkFrame [0; 1]
    [("id", [Int 1; Int 1]); ("message", [Str "flood"; Str "fire"])].

Definition repeated_categories : DataFrame :=
  MkFrame [0; 1; 2]
    [("id", [Int 1; Int 1; Int 2]);
     ("categories", [Str "related-1"; Str "related-0"; Str "related-1"])].

Definition repeated_files (path : string) : result DataFrame :=
  if decide (path = "messages.csv") then Ok repeated_messages
  else if decide (path = "categories.csv") then Ok repeated_categories
  else Raise FileError.

Definition repeated_joined : DataFrame :=
  MkFrame [0; 1; 2; 3]
    [("id", [Int 1; Int 1; Int 1; Int 1]);
     ("message", [Str "flood"; Str "flood"; Str "fire"; Str "fire"]);
     ("categories", [Str "related-1"; Str "related-0";
                     Str "related-1"; Str "related-0"])].

(** Files whose messages already carry a column named [categories]. *)
Definition shadow_messages : DataFrame :=
  MkFrame [0]
    [("id", [Int 1]); ("message", [Str "flood"]); ("categories", [Str "water"])].

Definition shadow_files (path : string) : result DataFrame :=
  if decide (path = "messages.csv") then Ok shadow_messages
  else if decide (path = "categories.csv") then Ok categories_example
  else Raise FileError.

(** Files without a common identifier. *)
Definition disjoint_categories : DataFrame :=
  MkFrame [0] [("id", [Int 9]); ("categories", [Str "related-1;request-0"])].

Definition disjoint_files (path : string) : result DataFrame :=
  if decide (path = "messages.csv") then Ok messages_example
  else if decide (path = "categories.csv") then Ok disjoint_categories
  else Raise FileError.

(** Files whose messages lack the [id] column. *)
Definition keyless_messages : DataFrame :=
  MkFrame [0] [("message", [Str "flood"])].

Definition keyless_files (path : string) : result DataFrame :=
  if decide (path = "messages.csv") then Ok keyless_messages
  else if decide (path = "categories.csv") then Ok categories_example
  else Raise FileError.

(** A second row with more tokens than the first. *)
Definition ragged_example : DataFrame :=
  MkFrame [0; 1]
    [("id", [Int 1; Int 2]);
     ("message", [Str "flood"; Str "fire"]);
     ("categories", [Str "related-1"; Str "related-1;request-0"])].

(** Files whose identifiers differ by less than [float64] resolves: the
    message has identifier [2 ^ 53 + 1]; the categories have identifier
    [2 ^ 53] and, in a second row, none. *)
Definition rounded_messages : DataFrame :=
  MkFrame [0] [("id", [Int 9007199254740993]); ("message", [Str "flood"])].

Definition rounded_categories : DataFrame :=
  MkFrame [0; 1]
    [("id", [Int 9007199254740992; NaN]);
     ("categories", [Str "related-1;request-0"; Str "related-0;request-0"])].

Definition rounded_files (path : string) : result DataFrame :=
  if decide (path = "messages.csv") then Ok rounded_messages
  else if decide (path = "categories.csv") then Ok rounded_categories
  else Raise FileError.

Definition rounded_joined : DataFrame :=
  MkFrame [0]
    [("id", [Int 9007199254740993]); ("message", [Str "flood"]);
     ("categories", [Str "related-1;request-0"])].

(** [duplicate_example] with the tokens of its second row renamed and
    reordered by name, their values left in place. *)
Definition renamed_example : DataFrame :=
  MkFrame [0; 1; 2]
    [("id", [Int 1; Int 2; Int 1]);
     ("message", [Str "flood"; Str "fire"; Str "flood"]);
     ("categories", [Str "related-1;request-0"; Str "request-2;offer-1";
                     Str "related-1;request-0"])].

(** The number of occurrences of [x] in [l]. *)
Definition occurrences {A} `{EqDecision A} (x : A) (l : list A) : nat :=
  length (filter (λ y, y = x) l).

(** The two progress messages that depend on the arguments of [main]. *)
Definition loading_message (messages_filepath categories_filepath : string)
    : string :=
  "Loading data..." +:+ nl4 +:+ "MESSAGES: " +:+ messages_filepath
  +:+ nl4 +:+ "CATEGORIES: " +:+ categories_filepath.

Definition saving_message (database_filepath : string) : string :=
  "Saving data..." +:+ nl4 +:+ "DATABASE: " +:+ database_filepath.

(** * Properties *)

(** ** The error monad *)

Lemma bind_ok {A B} (m : result A) (f : A → result B) b :
  (m ≫= f) = Ok b ↔ ∃ a, m = Ok a ∧ f a = Ok b.
Proof.
  destruct m as [a|e]; simpl.
  - split; [eauto | by intros (? & [= <-] & ?)].
  - split; [done | by intros (? & ? & ?)].
Qed.

Lemma fmap_ok {A B} (m : result A) (f : A → B) b :
  f <$> m = Ok b ↔ ∃ a, m = Ok a ∧ b = f a.
Proof.
  destruct m as [a|e]; simpl.
  - split; [intros [= <-]; eauto | by intros (? & [= <-] & ->)].
  - split; [done | by intros (? & ? & ?)].
Qed.

(** Decompose a hypothesis [H : (x ← m; k) = Ok b]. *)
Ltac bind_inv H :=
  let a := fresh "a" in
  let Ha := fresh "Hstep" in
  apply bind_ok in H as (a & Ha & H).

Lemma comprehension_ok {A B} (f : A → result B) l l' :
  comprehension f l = Ok l' ↔ Forall2 (λ x y, f x = Ok y) l l'.
Proof.
  revert l'. induction l as [|x l IH]; intros l'; simpl.
  - split; [intros [= <-]; constructor | by inversion 1].
  - split.
    + intros H. bind_inv H. bind_inv H. injection H as <-.
      constructor; [done | by apply IH].
    + inversion 1 as [|? y ? ys Hx Hl]; subst.
      rewrite Hx. simpl. apply IH in Hl. by rewrite Hl.
Qed.

(** ** Strings *)

Lemma split_nonempty sep s : split sep s ≠ [].
Proof.
  destruct s as [|c s]; simpl; [done |].
  case_decide; [done |]. by destruct (split sep s).
Qed.

Lemma split_length_pos sep s : (0 < length (split sep s))%nat.
Proof.
  pose proof (split_nonempty sep s). destruct (split sep s); simpl; [done | lia].
Qed.

Lemma last_char_app s c s' :
  last_char (s +:+ String c s') = last_char (String c s').
Proof.
  induction s as [|a s IH]; [done |].
  change (String a s +:+ String c s') with (String a (s +:+ String c s')).
  change (last_char (String a (s +:+ String c s')))
    with (match s +:+ String c s' with
          | EmptyString => Some a
          | String _ _ => last_char (s +:+ String c s')
          end).
  rewrite IH. by destruct s.
Qed.

Lemma digit_value_range c d : digit_value c = Some d → 0 ≤ d ≤ 9.
Proof.
  unfold digit_value. case_bool_decide; [|done]. intros [= <-]. lia.
Qed.

Lemma int_of_str_char c :
  int_of_str (String c EmptyString) =
    match digit_value c with Some d => Ok d | None => Raise ValueError end.
Proof.
  unfold int_of_str. simpl. by destruct (digit_value c).
Qed.

(** ** Selecting and replacing columns *)

Lemma filter_none {A} (P : A → Prop) `{∀ x, Decision (P x)} (l : list A) :
  Forall (λ y, ¬ P y) l → filter P l = [].
Proof. induction 1; [done |]. by rewrite filter_cons_False. Qed.

Lemma filter_one {A} (P : A → Prop) `{∀ x, Decision (P x)} (l : list A) x :
  filter P l = [x] ↔
  ∃ pre post, l = pre ++ x :: post ∧ P x ∧
    Forall (λ y, ¬ P y) pre ∧ Forall (λ y, ¬ P y) post.
Proof.
  split.
  - induction l as [|y l IH]; [done |].
    rewrite filter_cons. case_decide as Hy.
    + intros [= -> Hnil]. exists [], l. split_and!; try done.
      apply Forall_forall. intros z Hz Pz.
      by eapply filter_nil_not_elem_of.
    + intros (pre & post & -> & ? & ? & ?)%IH.
      exists (y :: pre), post. split_and!; try done. by constructor.
  - intros (pre & post & -> & Px & Hpre & Hpost).
    rewrite filter_app, filter_cons_True by done.
    by rewrite !filter_none.
Qed.

Section frame_lemmas.
Context {L : Type} `{EqDecision L}.
Implicit Types (df : Frame L) (s : Series) (key : L).

Lemma getitem_ok df key s :
  getitem df key = Ok s ↔
  ∃ pre post, data df = pre ++ (key, s) :: post ∧
    (key ∉ pre.*1) ∧ (key ∉ post.*1).
Proof.
  unfold getitem. split.
  - destruct (filter _ _) as [|c [|]] eqn:Hf; try done.
    intros [= <-]. apply filter_one in Hf as (pre & post & Hd & Hc & Hpre & Hpost).
    destruct c as [k s]; simpl in *; subst k.
    exists pre, post. split_and!; [done | |].
    + intros (c & -> & Hin)%list_elem_of_fmap.
      by eapply Forall_forall in Hpre.
    + intros (c & -> & Hin)%list_elem_of_fmap.
      by eapply Forall_forall in Hpost.
  - intros (pre & post & Hd & Hpre & Hpost).
    assert (filter (λ c : L * Series, c.1 = key) (data df) = [(key, s)]) as ->; [|done].
    apply filter_one. exists pre, post. split_and!; try done.
    + apply Forall_forall. intros c Hc <-. apply Hpre, list_elem_of_fmap. eauto.
    + apply Forall_forall. intros c Hc <-. apply Hpost, list_elem_of_fmap. eauto.
Qed.

Lemma getitem_missing df key : key ∉ columns df → getitem df key = Raise KeyError.
Proof.
  intros Hk. unfold getitem.
  destruct (filter _ _) as [|c l] eqn:Hf; [done |].
  assert (c ∈ filter (λ c : L * Series, c.1 = key) (data df)) as Hc
    by (rewrite Hf; left).
  apply list_elem_of_filter in Hc as [<- Hc].
  destruct Hk. apply list_elem_of_fmap. eauto.
Qed.

Lemma setitem_split idx pre post key s s' :
  key ∉ pre.*1 → key ∉ post.*1 →
  setitem (MkFrame idx (pre ++ (key, s) :: post)) key s'
  = MkFrame idx (pre ++ (key, s') :: post).
Proof.
  intros Hpre Hpost. unfold setitem, columns. simpl.
  rewrite bool_decide_eq_true_2
    by (rewrite fmap_app, fmap_cons; set_solver).
  f_equal. rewrite map_app. simpl. rewrite decide_True by done.
  assert (∀ l : list (L * Series), key ∉ l.*1 →
    map (λ c, if decide (c.1 = key) then (key, s') else c) l = l) as Hid.
  { induction l as [|c l IH]; [done |]. rewrite fmap_cons, not_elem_of_cons.
    intros [? ?]. simpl. rewrite decide_False by done. by rewrite IH. }
  by rewrite !Hid.
Qed.
End frame_lemmas.

Lemma unique_split {L} (key : L) (s s0 : Series) done todo pre post :
  key ∉ (pre.*1) → key ∉ (post.*1) →
  done ++ (key, s) :: todo = pre ++ (key, s0) :: post →
  done = pre ∧ s = s0 ∧ todo = post.
Proof.
  revert pre. induction done as [|d done IH]; intros [|c pre] Hpre Hpost Heq;
    simpl in *.
  - by injection Heq as -> ->.
  - injection Heq as <- _. destruct Hpre. left.
  - injection Heq as -> <-. destruct Hpost.
    rewrite fmap_app, fmap_cons. set_solver.
  - injection Heq as -> Heq. apply not_elem_of_cons in Hpre as [_ Hpre].
    by destruct (IH pre Hpre Hpost Heq) as (-> & -> & ->).
Qed.

(** ** One category column (lines 36-43) *)

Lemma last_cell_int c c' :
  int_of_cell (last_cell c) = Ok c' ↔
  ∃ t z, c = Str t ∧ token_value t = Some z ∧ c' = Int z.
Proof.
  unfold token_value. split.
  - intros H. destruct c as [t| |]; try discriminate H.
    unfold last_cell in H. destruct (last_char t) as [a|] eqn:Hl; [|done].
    unfold int_of_cell in H. rewrite int_of_str_char in H.
    destruct (digit_value a) as [d|] eqn:Hd; [|done].
    injection H as <-. exists t, d. by rewrite Hl.
  - intros (t & z & -> & Hz & ->). unfold last_cell.
    destruct (last_char t) as [a|]; simpl in Hz; [|done].
    unfold int_of_cell. by rewrite int_of_str_char, Hz.
Qed.

Lemma str_accessor_ok s s' :
  str_accessor s = Ok s' ↔ (s = [] ∨ Exists (λ c, is_str c = true) s) ∧ s' = s.
Proof.
  unfold str_accessor.
  destruct (bool_decide (s = []) || existsb is_str s) eqn:Hb.
  - apply orb_true_iff in Hb. rewrite bool_decide_eq_true, existsb_exists in Hb.
    split; [intros [= <-] | by intros [_ ->]].
    split; [|done]. destruct Hb as [?|(c & Hc%list_elem_of_In & ?)]; [by left |].
    right. apply Exists_exists. eauto.
  - apply orb_false_iff in Hb as [Hn He]. apply bool_decide_eq_false in Hn.
    split; [done |]. intros [[?|(c & Hc%list_elem_of_In & ?)%Exists_exists] _]; [done |].
    assert (existsb is_str s = true) by (apply existsb_exists; eauto).
    congruence.
Qed.

Lemma extract_ok s s2 :
  (str_get_last s ≫= astype_int) = Ok s2 ↔
  Forall2 (λ c c', ∃ t z, c = Str t ∧ token_value t = Some z ∧ c' = Int z) s s2.
Proof.
  unfold str_get_last, astype_int. split.
  - intros H. bind_inv H. bind_inv Hstep. injection Hstep as <-.
    apply str_accessor_ok in Hstep0 as [_ ->].
    apply comprehension_ok in H. apply Forall2_fmap_l in H.
    eapply Forall2_impl; [exact H |]. intros c c'. apply last_cell_int.
  - intros H.
    assert (str_accessor s = Ok s) as ->.
    { apply str_accessor_ok. split; [|done].
      destruct H as [|c c' s s2 (t & z & -> & _)]; [by left | right; by left]. }
    simpl. apply comprehension_ok, Forall2_fmap_l.
    eapply Forall2_impl; [exact H |]. intros c c'. apply last_cell_int.
Qed.

Lemma binarize_int z : binarize (Int z) = Int (normalize z).
Proof.
  unfold binarize, normalize.
  destruct (decide (z = 2)) as [->|Hz]; [done |].
  rewrite decide_False; [done | congruence].
Qed.

(** The values of the cleaned category columns are digits other than 2. *)
Lemma token_value_normalized t z :
  token_value t = Some z → 0 ≤ normalize z ≤ 9 ∧ normalize z ≠ 2.
Proof.
  unfold token_value. destruct (last_char t) as [a|]; [|done]. simpl.
  intros Hz%digit_value_range. unfold normalize. case_decide; lia.
Qed.

Lemma to_numeric_int (zs : list Z) : to_numeric (Int <$> zs) = Ok (Int <$> zs).
Proof.
  apply comprehension_ok. induction zs; simpl; by constructor.
Qed.

Lemma cleaned_series s s' :
  Forall2 cleaned_cell s s' ↔
  ∃ zs, Forall2 (λ c c', ∃ t z, c = Str t ∧ token_value t = Some z ∧ c' = Int z)
          s (Int <$> zs) ∧ s' = Int <$> (normalize <$> zs).
Proof.
  split.
  - induction 1 as [|c c' s s' (t & z & -> & Hz & ->) _ (zs & Hzs & ->)].
    + by exists [].
    + exists (z :: zs). split; [constructor; eauto | done].
  - intros (zs & H & ->). revert s H.
    induction zs as [|z zs IH]; intros s H; simpl in *.
    + inversion H. constructor.
    + inversion H as [|c c' s0 l0 (t & z' & -> & Hz & Heq) Hrest]; subst.
      injection Heq as ->. constructor; [by exists t, z' | by apply IH].
Qed.

Lemma clean_column_ok idx pre post l s (F' : DataFrame) :
  l ∉ (pre.*1) → l ∉ (post.*1) →
  clean_column (MkFrame idx (pre ++ (l, s) :: post)) l = Ok F' ↔
  ∃ s', Forall2 cleaned_cell s s' ∧ F' = MkFrame idx (pre ++ (l, s') :: post).
Proof.
  intros Hpre Hpost.
  assert (∀ x, getitem (MkFrame idx (pre ++ (l, x) :: post)) l = Ok x) as Hget.
  { intros x. apply getitem_ok. by exists pre, post. }
  unfold clean_column. rewrite Hget. simpl. split.
  - intros H.
    destruct (str_get_last s ≫= astype_int) as [s2|] eqn:Hs2; cycle 1.
    { destruct (str_get_last s); simpl in *; [by rewrite Hs2 in H | done]. }
    assert (Forall2 (λ c c', ∃ t z, c = Str t ∧ token_value t = Some z ∧ c' = Int z) s s2)
      as Hall by by apply extract_ok.
    assert (∃ zs, s2 = Int <$> zs) as (zs & ->).
    { clear -Hall. induction Hall as [|c c' s s2 (t & z & -> & _ & ->) _ (zs & ->)].
      - by exists []. - by exists (z :: zs). }
    destruct (str_get_last s); simpl in *; [|done].
    rewrite Hs2 in H. simpl in H.
    rewrite !setitem_split, Hget in H by done. simpl in H.
    rewrite setitem_split, Hget in H by done. simpl in H.
    replace (map binarize (Int <$> zs)) with (Int <$> (normalize <$> zs)) in H
      by (rewrite <- !list_fmap_compose; apply list_fmap_ext; intros; simpl;
          by rewrite binarize_int).
    rewrite to_numeric_int in H. simpl in H.
    rewrite setitem_split in H by done. injection H as <-.
    eexists. split; [|done]. apply cleaned_series. eauto.
  - intros (s' & (zs & Hall & ->)%cleaned_series & ->).
    apply extract_ok in Hall.
    destruct (str_get_last s) as [s1|]; simpl in *; [|done].
    rewrite Hall. simpl.
    rewrite !setitem_split, Hget by done. simpl.
    rewrite setitem_split, Hget by done. simpl.
    replace (map binarize (Int <$> zs)) with (Int <$> (normalize <$> zs))
      by (rewrite <- !list_fmap_compose; apply list_fmap_ext; intros; simpl;
          by rewrite binarize_int).
    rewrite to_numeric_int. simpl. by rewrite setitem_split.
Qed.

(** ** The loop over the category columns *)

Lemma for_each_clean_column_inv idx (done todo : list (string * Series)) F' :
  for_each clean_column (todo.*1) (MkFrame idx (done ++ todo)) = Ok F' →
  NoDup (todo.*1) ∧ (∀ l, l ∈ todo.*1 → l ∉ done.*1) ∧
  ∃ todo', Forall2 cleaned_column todo todo' ∧ F' = MkFrame idx (done ++ todo').
Proof.
  revert done. induction todo as [|[l s] todo IH]; intros done H.
  - injection H as <-. split_and!; [constructor | set_solver |].
    exists []. by split; [constructor |].
  - rewrite fmap_cons in H. simpl in H. bind_inv H.
    assert ((l ∉ done.*1) ∧ (l ∉ todo.*1)) as [Hdone Htodo].
    { unfold clean_column in Hstep. bind_inv Hstep.
      apply getitem_ok in Hstep0 as (pre & post & Heq & Hpre & Hpost).
      simpl in Heq. by destruct (unique_split _ _ _ _ _ _ _ Hpre Hpost Heq) as (-> & _ & ->). }
    apply clean_column_ok in Hstep as (s' & Hs' & ->); [|done..].
    replace (done ++ (l, s') :: todo) with ((done ++ [(l, s')]) ++ todo) in H
      by by rewrite <- app_assoc.
    apply IH in H as (Hnd & Hfresh & todo' & Hall & ->).
    split_and!.
    + rewrite fmap_cons. by constructor.
    + intros l' [->|Hl']%elem_of_cons; [done |].
      specialize (Hfresh l' Hl'). rewrite fmap_app in Hfresh. set_solver.
    + exists ((l, s') :: todo'). split; [by constructor |].
      by rewrite <- app_assoc.
Qed.

Lemma for_each_clean_column_ok idx (done todo todo' : list (string * Series)) :
  NoDup ((done ++ todo).*1) → Forall2 cleaned_column todo todo' →
  for_each clean_column (todo.*1) (MkFrame idx (done ++ todo))
  = Ok (MkFrame idx (done ++ todo')).
Proof.
  intros Hnd Hall. revert done Hnd.
  induction Hall as [|[l s] [l' s'] todo todo' [Hl Hs] _ IH]; intros done Hnd.
  - done.
  - simpl in Hl, Hs. subst l'. rewrite fmap_cons. simpl.
    rewrite fmap_app in Hnd. simpl in Hnd.
    apply NoDup_app in Hnd as (Hd & Hdt & [Hlt Ht]%NoDup_cons).
    assert (clean_column (MkFrame idx (done ++ (l, s) :: todo)) l
            = Ok (MkFrame idx (done ++ (l, s') :: todo))) as ->.
    { apply clean_column_ok; [| done | by exists s'].
      intros Hin. apply (Hdt l Hin). left. }
    simpl.
    replace (done ++ (l, s') :: todo) with ((done ++ [(l, s')]) ++ todo)
      by by rewrite <- app_assoc.
    rewrite IH; [by rewrite <- app_assoc |].
    rewrite <- app_assoc, !fmap_app. simpl.
    apply NoDup_app. split_and!; [done | | by constructor].
    intros x Hx. apply Hdt in Hx. done.
Qed.

(** ** The expansion of the packed column (lines 28-33) *)

Lemma map_nth_seq {A} (l : list A) d :
  map (λ j, nth j l d) (seq 0 (length l)) = l.
Proof.
  apply list_eq. intros i. rewrite list_lookup_fmap.
  destruct (decide (i < length l)%nat) as [Hi|Hi].
  - rewrite lookup_seq_lt by done. simpl.
    destruct (lookup_lt_is_Some_2 l i Hi) as [x Hx].
    by rewrite Hx, (nth_lookup_Some _ _ _ _ Hx).
  - rewrite lookup_seq_ge, lookup_ge_None_2 by lia. done.
Qed.

Lemma split_cell_length sep c : (0 < length (split_cell sep c))%nat.
Proof.
  destruct c; simpl; try lia. rewrite length_fmap. apply split_length_pos.
Qed.

(** A row of the expanded table that holds a string in each of the [w]
    columns comes from a packed string of exactly [w] tokens. *)
Lemma full_row sep c w :
  (0 < w)%nat → (length (split_cell sep c) ≤ w)%nat →
  (∀ j, (j < w)%nat → is_str (nth j (split_cell sep c) NaN) = true) →
  ∃ s, c = Str s ∧ length (split sep s) = w.
Proof.
  intros Hw Hlen Hall. destruct c as [s| |].
  - exists s. split; [done |]. simpl in *. rewrite length_fmap in Hlen.
    destruct (decide (length (split sep s) = w)) as [|Hne]; [done |].
    specialize (Hall (length (split sep s)) ltac:(lia)).
    rewrite nth_overflow in Hall by (rewrite length_fmap; lia). done.
  - specialize (Hall 0%nat Hw). done.
  - specialize (Hall 0%nat Hw). done.
Qed.

Lemma split_prefix_ok c n :
  split_prefix c = Ok n ↔ ∃ t, c = Str t ∧ n = category_name t.
Proof.
  unfold category_name. split.
  - destruct c as [t| |]; simpl; try done.
    destruct (split "-" t) as [|x l] eqn:Ht; [done |].
    intros [= <-]. exists t. by rewrite Ht.
  - intros (t & -> & ->). simpl.
    pose proof (split_nonempty "-" t). by destruct (split "-" t).
Qed.

Lemma width_bound sep (cats : Series) i c :
  cats !! i = Some c →
  (length (split_cell sep c) ≤ max_list (length <$> map (split_cell sep) cats))%nat.
Proof.
  intros Hc. apply max_list_elem_of_le.
  apply list_elem_of_fmap. exists (split_cell sep c). split; [done |].
  apply list_elem_of_fmap. exists c. split; [done |].
  by eapply list_elem_of_lookup_2.
Qed.

(** The names read off the row at position [p] of the expanded table. *)
Lemma first_row_names (cats : Series) p c names :
  cats !! p = Some c →
  let pieces := map (split_cell ";") cats in
  let width := max_list (length <$> pieces) in
  comprehension split_prefix
    (map (λ j, nth j (split_cell ";" c) NaN) (seq 0 width)) = Ok names →
  ∃ s0, c = Str s0 ∧ width = length (split ";" s0) ∧
        names = category_name <$> split ";" s0.
Proof.
  intros Hc pieces width Hnames.
  apply comprehension_ok in Hnames.
  pose proof (width_bound ";" cats p c Hc) as Hle. fold pieces width in Hle.
  pose proof (split_cell_length ";" c) as Hpos.
  destruct (full_row ";" c width) as (s0 & -> & Hw); [lia | done | |].
  { intros j Hj.
    destruct (Forall2_lookup_l _ _ _ j (nth j (split_cell ";" c) NaN) Hnames)
      as (n & _ & (t & -> & _)%split_prefix_ok); [|done].
    rewrite list_lookup_fmap, lookup_seq_lt by done. done. }
  exists s0. split_and!; [done | done |].
  rewrite <- Hw in Hnames. simpl in Hnames.
  rewrite <- (length_fmap Str), map_nth_seq in Hnames.
  apply Forall2_fmap_l in Hnames.
  clear -Hnames. revert names Hnames.
  induction (split ";" s0) as [|t l IH]; intros names; inversion 1 as [|? n ? ns Ht Hl]; subst.
  - done.
  - apply split_prefix_ok in Ht as (t' & [= <-] & ->).
    simpl. f_equal. by apply IH.
Qed.

(** The cells that the cleaned category columns hold in one row. *)
Lemma expanded_values (cats : Series) (cols' : list Series) i c :
  let pieces := map (split_cell ";") cats in
  let width := max_list (length <$> pieces) in
  Forall2 (Forall2 cleaned_cell)
    (map (λ j, map (λ r, nth j r NaN) pieces) (seq 0 width)) cols' →
  cats !! i = Some c →
  ∃ s vs, c = Str s ∧ mapM token_value (split ";" s) = Some vs ∧
    length vs = width ∧
    (λ c', nth i c' NaN) <$> cols' = (Int ∘ normalize) <$> vs.
Proof.
  intros pieces width Hall Hc.
  assert (∀ j, (j < width)%nat → ∃ c',
    cols' !! j = Some c' ∧
    cleaned_cell (nth j (split_cell ";" c) NaN) (nth i c' NaN)) as Hcell.
  { intros j Hj.
    destruct (Forall2_lookup_l _ _ _ j (map (λ r, nth j r NaN) pieces) Hall)
      as (c' & Hc' & Hcol).
    { by rewrite list_lookup_fmap, lookup_seq_lt. }
    exists c'. split; [done |].
    destruct (Forall2_lookup_l _ _ _ i (nth j (split_cell ";" c) NaN) Hcol)
      as (y & Hy & Hclean).
    { unfold pieces. by rewrite !list_lookup_fmap, Hc. }
    by rewrite (nth_lookup_Some _ _ _ _ Hy). }
  pose proof (width_bound ";" cats i c Hc) as Hle. fold pieces width in Hle.
  pose proof (split_cell_length ";" c) as Hpos.
  destruct (full_row ";" c width) as (s & -> & Hw); [lia | done | |].
  { intros j Hj. destruct (Hcell j Hj) as (c' & _ & t & z & -> & _). done. }
  assert (∀ j t, split ";" s !! j = Some t →
    nth j (split_cell ";" (Str s)) NaN = Str t) as Htok.
  { intros j t Ht. apply nth_lookup_Some. simpl. by rewrite list_lookup_fmap, Ht. }
  destruct (mapM_is_Some_2 token_value (split ";" s)) as [vs Hvs].
  { apply Forall_lookup. intros j t Ht.
    destruct (Hcell j) as (c' & _ & t' & z & Heq & Hz & _).
    { apply lookup_lt_Some in Ht. lia. }
    rewrite (Htok j t Ht) in Heq. injection Heq as <-. simpl. eauto. }
  exists s, vs. split_and!; [done | done | |].
  { apply mapM_Some_1, Forall2_length in Hvs. lia. }
  pose proof (mapM_Some_1 _ _ _ Hvs) as Hvs2.
  apply list_eq. intros j. rewrite !list_lookup_fmap.
  destruct (decide (j < width)%nat) as [Hj|Hj].
  - destruct (Hcell j Hj) as (c' & -> & t & z & Heq & Hz & Hval). simpl.
    rewrite Hval.
    destruct (lookup_lt_is_Some_2 (split ";" s) j ltac:(lia)) as [t' Ht'].
    rewrite (Htok j t' Ht') in Heq. injection Heq as <-.
    destruct (Forall2_lookup_l _ _ _ j _ Hvs2 Ht') as (z' & -> & Hz').
    simpl. congruence.
  - apply Forall2_length in Hall, Hvs2.
    rewrite length_fmap, length_seq in Hall.
    rewrite !lookup_ge_None_2 by lia. done.
Qed.

Lemma cleaned_columns_zip (names : list string) (cols : list Series) todo' :
  length names = length cols →
  Forall2 cleaned_column (zip names cols) todo' →
  todo' = zip names (todo'.*2) ∧ Forall2 (Forall2 cleaned_cell) cols (todo'.*2).
Proof.
  revert cols todo'. induction names as [|n names IH]; intros [|c cols] todo' Hlen;
    simpl in *; try discriminate; inversion 1 as [|? [n' c'] ? todo1 [Hn Hc] Hrest]; subst.
  - split; [done | constructor].
  - simpl in *. subst n'. destruct (IH cols todo1) as [Hz Hall]; [lia | done |].
    split; [simpl; by f_equal | simpl; by constructor].
Qed.

(** ** What [clean_data] returns *)

Lemma positions_lookup {A} `{EqDecision A} (x : A) l p :
  p ∈ positions x l ↔ l !! p = Some x.
Proof.
  unfold positions. rewrite list_elem_of_filter, elem_of_seq. split.
  - by intros [? _].
  - intros Hp. split; [done |]. apply lookup_lt_Some in Hp. lia.
Qed.

Lemma filter_drop_label (pre post : list (string * Series)) key s :
  (key ∉ pre.*1) → (key ∉ post.*1) →
  filter (λ c : string * Series, c.1 ∉ [key]) (pre ++ (key, s) :: post)
  = pre ++ post.
Proof.
  intros Hpre Hpost.
  assert (∀ l : list (string * Series), key ∉ l.*1 →
    filter (λ c : string * Series, c.1 ∉ [key]) l = l) as Hid.
  { induction l as [|c l IH]; [done |]. rewrite fmap_cons, not_elem_of_cons.
    intros [? ?]. rewrite filter_cons_True by set_solver. by rewrite IH. }
  rewrite filter_app, filter_cons_False by set_solver. by rewrite !Hid.
Qed.

Lemma row_at_expand idx (pieces : list Series) width p r :
  pieces !! p = Some r →
  row_at (MkFrame idx
            (map (λ j, (j, map (λ r, nth j r NaN) pieces)) (seq 0 width))) p
  = map (λ j, nth j r NaN) (seq 0 width).
Proof.
  intros Hr. unfold row_at. simpl. rewrite map_map.
  apply map_ext. intros j. simpl.
  apply nth_lookup_Some. by rewrite list_lookup_fmap, Hr.
Qed.

Lemma columns_expand idx (f : nat → Series) (l : list nat) :
  columns (MkFrame idx (map (λ j, (j, f j)) l)) = l.
Proof.
  unfold columns. simpl. induction l; simpl; by f_equal.
Qed.

Lemma columns_take_rows {L} ps (df : Frame L) :
  columns (take_rows ps df) = columns df.
Proof.
  unfold columns, take_rows. simpl. induction (data df); simpl; by f_equal.
Qed.

Lemma expand_categories_inv (df out : DataFrame) :
  wf df → expand_categories df = Ok out →
  ∃ pre cats post p0 s0 cols',
    data df = pre ++ ("categories", cats) :: post ∧
    ("categories" ∉ pre.*1) ∧ ("categories" ∉ post.*1) ∧
    positions 0 (index df) = [p0] ∧ cats !! p0 = Some (Str s0) ∧
    NoDup (category_name <$> split ";" s0) ∧
    length cols' = length (split ";" s0) ∧
    Forall (λ c', length c' = length cats) cols' ∧
    (∀ i c, cats !! i = Some c →
       ∃ s vs, c = Str s ∧ mapM token_value (split ";" s) = Some vs ∧
         length vs = length (split ";" s0) ∧
         (λ c', nth i c' NaN) <$> cols' = (Int ∘ normalize) <$> vs) ∧
    out = MkFrame (index df)
            ((pre ++ post) ++ zip (category_name <$> split ";" s0) cols').
Proof.
  intros Hwf H. unfold expand_categories in H.
  bind_inv H. rename a into cats. rename Hstep into Hcats.
  apply getitem_ok in Hcats as (pre & post & Hdata & Hpre & Hpost).
  assert (length cats = length (index df)) as Hlen.
  { unfold wf in Hwf. rewrite Hdata in Hwf.
    apply Forall_app in Hwf as [_ Hwf]. by apply Forall_cons in Hwf as [Hwf _]. }
  bind_inv H. rename a into F0. unfold str_split_expand in Hstep.
  bind_inv Hstep. apply str_accessor_ok in Hstep0 as [_ ->].
  injection Hstep as <-.
  set (pieces := map (split_cell ";") cats) in *.
  set (width := max_list (length <$> pieces)) in *.
  set (cols := map (λ j, map (λ r, nth j r NaN) pieces) (seq 0 width)).
  bind_inv H. rename a into row.
  bind_inv H. rename a into names.
  assert (∃ p0 s0, positions 0 (index df) = [p0] ∧ cats !! p0 = Some (Str s0) ∧
            width = length (split ";" s0) ∧
            names = category_name <$> split ";" s0) as (p0 & s0 & Hpos & Hp0 & Hw & ->).
  { unfold loc_row in Hstep. simpl in Hstep.
    destruct (positions 0 (index df)) as [|p0 [|p1 ps]] eqn:Hpos; [done | |].
    - injection Hstep as <-.
      assert (p0 ∈ positions 0 (index df)) as Hp0 by (rewrite Hpos; left).
      apply positions_lookup, lookup_lt_Some in Hp0.
      destruct (lookup_lt_is_Some_2 cats p0 ltac:(lia)) as [c Hc].
      destruct (first_row_names cats p0 c names Hc) as (s0 & -> & Hw & ->).
      { rewrite <- Hstep0. unfold iter_row. f_equal. symmetry.
        apply row_at_expand.
        unfold pieces. by rewrite list_lookup_fmap, Hc. }
      by exists p0, s0.
    - injection Hstep as <-. exfalso.
      assert (p0 ∈ positions 0 (index df)) as Hp0 by (rewrite Hpos; left).
      apply positions_lookup, lookup_lt_Some in Hp0.
      destruct (lookup_lt_is_Some_2 cats p0 ltac:(lia)) as [c Hc].
      pose proof (width_bound ";" cats p0 c Hc) as Hle. fold pieces width in Hle.
      pose proof (split_cell_length ";" c) as Hc0.
      unfold iter_row in Hstep0.
      rewrite columns_take_rows,
        (columns_expand _ (λ j, map (λ r, nth j r NaN) pieces)) in Hstep0.
      destruct width as [|w]; [lia |]. done. }
  bind_inv H. rename a into F1. unfold set_columns in Hstep1.
  case_decide as Hnl; [|done]. injection Hstep1 as <-. simpl in Hnl.
  assert ((map (λ j, (j, map (λ r, nth j r NaN) pieces)) (seq 0 width)).*2 = cols)
    as Hcols.
  { unfold cols. rewrite <- list_fmap_compose. done. }
  simpl in H. rewrite Hcols in H.
  assert (length (category_name <$> split ";" s0) = length cols) as Hnc.
  { unfold cols. rewrite !length_fmap, length_seq. lia. }
  bind_inv H. rename a into F2. unfold columns in Hstep1. simpl in Hstep1.
  apply (for_each_clean_column_inv _ []) in Hstep1 as (Hnd & _ & todo' & Hall & ->).
  rewrite fst_zip in Hnd by lia.
  apply cleaned_columns_zip in Hall as [Htodo Hall]; [|done].
  bind_inv H. rename a into df'. unfold drop_columns in Hstep1.
  case_bool_decide; [|done]. injection Hstep1 as <-.
  rewrite Hdata, filter_drop_label in H by done.
  injection H as <-.
  exists pre, cats, post, p0, s0, (todo'.*2).
  split_and!; try done.
  - apply Forall2_length in Hall. rewrite <- Hall. unfold cols.
    rewrite length_fmap, length_seq. done.
  - apply Forall_forall. intros c' Hc'.
    apply list_elem_of_lookup in Hc' as [j Hj].
    destruct (Forall2_lookup_r _ _ _ _ _ Hall Hj) as (c & Hc & Hcc').
    apply Forall2_length in Hcc'. rewrite <- Hcc'.
    unfold cols in Hc. rewrite list_lookup_fmap in Hc.
    destruct (seq 0 width !! j); [|done]. injection Hc as <-.
    unfold pieces. by rewrite !length_fmap.
  - intros i c Hc.
    destruct (expanded_values cats (todo'.*2) i c Hall Hc) as (s & vs & -> & Hvs & Hlv & Hrow).
    exists s, vs. split_and!; try done. fold pieces width in Hlv. lia.
  - unfold concat_axis1. simpl. by rewrite Htodo at 1.
Qed.

Lemma max_list_const (n : nat) ns :
  ns ≠ [] → Forall (λ m, m = n) ns → max_list ns = n.
Proof.
  intros Hne Hall. induction Hall as [|m ns' -> Hrest IH]; [done |].
  simpl. destruct ns' as [|m' ns'']; [simpl; lia |].
  rewrite IH by done. lia.
Qed.

Lemma packed_width (cats : Series) n p c :
  cats !! p = Some c → Forall (packed_ok n) cats →
  max_list (length <$> map (split_cell ";") cats) = n.
Proof.
  intros Hc Hall. apply max_list_const.
  - destruct cats; [done |]. done.
  - rewrite <- list_fmap_compose. apply Forall_fmap.
    eapply Forall_impl; [exact Hall |].
    intros c' (s & vs & -> & Hvs & <-). simpl. rewrite length_fmap.
    by apply mapM_Some_1, Forall2_length in Hvs.
Qed.

Lemma comprehension_names toks :
  comprehension split_prefix (Str <$> toks) = Ok (category_name <$> toks).
Proof.
  apply comprehension_ok, Forall2_fmap. apply Forall_Forall2_diag, Forall_forall.
  intros t _. apply split_prefix_ok. eauto.
Qed.

Lemma clean_data_cleanable (df : DataFrame) :
  wf df → cleanable df → is_ok (clean_data df).
Proof.
  intros Hwf (cats & p0 & s0 & Hcats & Hpos & Hp0 & Hnd & Hall).
  unfold clean_data. rewrite Hcats. simpl.
  pose proof (packed_width cats _ p0 _ Hp0 Hall) as Hw.
  unfold str_split_expand.
  assert (str_accessor cats = Ok cats) as ->.
  { apply str_accessor_ok. split; [|done]. right. apply Exists_exists.
    exists (Str s0). split; [by eapply list_elem_of_lookup_2 | done]. }
  simpl. rewrite Hw.
  set (n := length (split ";" s0)) in *.
  set (pieces := map (split_cell ";") cats).
  unfold loc_row. simpl. rewrite Hpos. simpl.
  rewrite (row_at_expand _ pieces n p0 (Str <$> split ";" s0))
    by (unfold pieces; by rewrite list_lookup_fmap, Hp0).
  replace (seq 0 n) with (seq 0 (length (Str <$> split ";" s0))) at 1
    by by rewrite length_fmap.
  rewrite map_nth_seq, comprehension_names. simpl.
  unfold set_columns. simpl.
  rewrite decide_True by (rewrite !length_fmap, length_seq; done). simpl.
  set (names := category_name <$> split ";" s0) in *.
  set (cols := (map (λ j, (j, map (λ r, nth j r NaN) pieces)) (seq 0 n)).*2).
  set (value := λ (j : nat) (c : cell),
    match c with
    | Str s => Int (normalize (default 0 (token_value (nth j (split ";" s) EmptyString))))
    | _ => NaN
    end).
  set (cols' := map (λ j, map (value j) cats) (seq 0 n)).
  assert (length names = n) as Hln by (unfold names; by rewrite length_fmap).
  assert (length cols = n) as Hlc
    by (unfold cols; by rewrite !length_fmap, length_seq).
  assert (length cols' = n) as Hlc'
    by (unfold cols'; by rewrite !length_fmap, length_seq).
  assert (Forall2 cleaned_column (zip names cols) (zip names cols')) as Hclean.
  { apply Forall2_same_length_lookup_2.
    { rewrite !length_zip. lia. }
    intros j [nm c] [nm' c'] [Hn Hc]%lookup_zip_Some [Hn' Hc']%lookup_zip_Some.
    simpl in *. split; [simpl; congruence |]. simpl.
    unfold cols in Hc. unfold cols' in Hc'.
    rewrite <- list_fmap_compose, list_lookup_fmap in Hc.
    rewrite list_lookup_fmap in Hc'.
    destruct (seq 0 n !! j) as [j'|] eqn:Hj; [|done].
    apply lookup_seq in Hj as [-> Hj]. simpl in *.
    injection Hc as <-. injection Hc' as <-.
    unfold pieces. rewrite map_map. apply Forall2_fmap, Forall_Forall2_diag.
    eapply Forall_impl; [exact Hall |].
    intros c (s & vs & -> & Hvs & Hlv). simpl.
    apply mapM_Some_1 in Hvs.
    pose proof (Forall2_length _ _ _ Hvs) as Hlt.
    destruct (lookup_lt_is_Some_2 (split ";" s) j ltac:(lia)) as [t Ht].
    destruct (Forall2_lookup_l _ _ _ _ _ Hvs Ht) as (z & _ & Hz).
    exists t, z. split_and!; [| done |].
    - apply nth_lookup_Some. by rewrite list_lookup_fmap, Ht.
    - by rewrite (nth_lookup_Some _ _ _ _ Ht), Hz. }
  unfold columns at 1. simpl.
  pose proof (for_each_clean_column_ok (index df) [] (zip names cols)
                (zip names cols')) as Hloop.
  rewrite !app_nil_l in Hloop.
  rewrite Hloop; [| by rewrite fst_zip by lia | done].
  simpl. unfold drop_columns.
  rewrite bool_decide_eq_true_2.
  - simpl. by eexists.
  - apply getitem_ok in Hcats as (pre & post & Hd & _). unfold columns.
    rewrite Hd, fmap_app, fmap_cons. set_solver.
Qed.

Lemma clean_data_expand (df : DataFrame) :
  clean_data df = drop_duplicates <$> expand_categories df.
Proof.
  unfold clean_data, expand_categories.
  repeat match goal with
         | |- (?m ≫= _) = _ <$> (?m ≫= _) => destruct m; simpl; [|done]
         end.
  done.
Qed.

Lemma clean_data_ok (df out : DataFrame) :
  clean_data df = Ok out ↔
  ∃ mid, expand_categories df = Ok mid ∧ out = drop_duplicates mid.
Proof. rewrite clean_data_expand. apply fmap_ok. Qed.

Lemma clean_data_ok_cleanable (df : DataFrame) :
  wf df → is_ok (clean_data df) → cleanable df.
Proof.
  intros Hwf [out (mid & Hout & _)%clean_data_ok].
  destruct (expand_categories_inv df mid Hwf Hout)
    as (pre & cats & post & p0 & s0 & cols' & Hd & Hpre & Hpost & Hpos & Hp0
        & Hnd & _ & _ & Hrows & _).
  exists cats, p0, s0. split_and!; try done.
  - apply getitem_ok. eauto.
  - apply Forall_lookup. intros i c Hc.
    destruct (Hrows i c Hc) as (s & vs & -> & Hvs & Hlen & _).
    by exists s, vs.
Qed.

(** ** Boolean-mask selection and duplicates *)

Lemma select_unmarked_fmap {A B} (f : A → B) m l :
  select_unmarked m (f <$> l) = f <$> select_unmarked m l.
Proof.
  revert l. induction m as [|b m IH]; intros [|x l]; simpl; try done.
  destruct b; simpl; by rewrite IH.
Qed.

Lemma select_unmarked_sublist {A} m (l : list A) :
  select_unmarked m l `sublist_of` l.
Proof.
  revert l. induction m as [|b m IH]; intros [|x l]; simpl; try done.
  - apply sublist_nil_l.
  - destruct b; [apply sublist_cons | apply sublist_skip]; apply IH.
Qed.

Lemma select_unmarked_nth {A} m (l : list A) d :
  length l = length m →
  select_unmarked m l
  = map (λ i, nth i l d) (select_unmarked m (seq 0 (length m))).
Proof.
  revert l. induction m as [|b m IH]; intros [|x l] Hlen; simpl in *; try done.
  rewrite <- fmap_S_seq, select_unmarked_fmap.
  destruct b; simpl; rewrite (IH l) by lia; rewrite map_map; done.
Qed.

Lemma marks_cons {A} `{EqDecision A} (seen : list A) r rs :
  marks seen (r :: rs) = bool_decide (r ∈ seen) :: marks (seen ++ [r]) rs.
Proof.
  unfold marks. rewrite imap_cons. simpl. rewrite app_nil_r. f_equal.
  apply imap_ext. intros i x _. simpl. by rewrite <- app_assoc.
Qed.

Lemma elem_of_first_occurrences {A} `{EqDecision A} (seen rs : list A) x :
  x ∈ select_unmarked (marks seen rs) rs ↔ x ∈ rs ∧ x ∉ seen.
Proof.
  revert seen. induction rs as [|r rs IH]; intros seen.
  - simpl. set_solver.
  - rewrite marks_cons. simpl. case_bool_decide as Hr.
    + rewrite IH. set_solver.
    + rewrite elem_of_cons, IH. rewrite elem_of_cons, not_elem_of_app.
      destruct (decide (x = r)) as [->|]; set_solver.
Qed.

Lemma NoDup_first_occurrences {A} `{EqDecision A} (seen rs : list A) :
  NoDup (select_unmarked (marks seen rs) rs).
Proof.
  revert seen. induction rs as [|r rs IH]; intros seen.
  - constructor.
  - rewrite marks_cons. simpl. case_bool_decide as Hr; [apply IH |].
    constructor; [|apply IH].
    rewrite elem_of_first_occurrences. set_solver.
Qed.

Lemma marks_lookup {A} `{EqDecision A} (rs : list A) i r :
  rs !! i = Some r →
  marks [] rs !! i = Some (bool_decide (r ∈ take i rs)).
Proof.
  intros Hr. unfold marks. by rewrite list_lookup_imap, Hr.
Qed.

Lemma length_marks {A} `{EqDecision A} (seen rs : list A) :
  length (marks seen rs) = length rs.
Proof. unfold marks. apply length_imap. Qed.

Section drop_duplicates_lemmas.
Context {L : Type} `{EqDecision L}.
Implicit Types (df : Frame L).

Lemma length_rows df : length (rows df) = nrows df.
Proof. unfold rows. by rewrite length_map, length_seq. Qed.

Lemma rows_lookup df i :
  (i < nrows df)%nat → rows df !! i = Some (row_at df i).
Proof.
  intros Hi. unfold rows.
  change (map (row_at df) (seq 0 (nrows df))) with (row_at df <$> seq 0 (nrows df)).
  by rewrite list_lookup_fmap, lookup_seq_lt.
Qed.

Lemma length_duplicated df : length (duplicated df) = nrows df.
Proof. unfold duplicated. by rewrite length_marks, length_rows. Qed.

Lemma rows_select df m :
  wf df → length m = nrows df →
  rows (MkFrame (select_unmarked m (index df))
          (map (λ c, (c.1, select_unmarked m c.2)) (data df)))
  = select_unmarked m (rows df).
Proof.
  intros Hwf Hm. set (kept := select_unmarked m (seq 0 (length m))).
  unfold rows at 1, nrows at 1. simpl.
  rewrite (select_unmarked_nth m (index df) 0) by done. fold kept.
  rewrite length_map.
  transitivity (map (row_at df) kept).
  - rewrite <- (map_nth_seq kept 0%nat) at 3. rewrite map_map.
    apply map_ext_in. intros k Hk%in_seq. unfold row_at. simpl.
    rewrite map_map. apply map_ext_in. intros c Hc%list_elem_of_In. simpl.
    rewrite (select_unmarked_nth m c.2 NaN); fold kept.
    + destruct (lookup_lt_is_Some_2 kept k ltac:(lia)) as [j Hj].
      rewrite (nth_lookup_Some _ _ _ _ Hj).
      apply nth_lookup_Some.
      change (map (λ i, nth i c.2 NaN) kept) with ((λ i, nth i c.2 NaN) <$> kept).
      by rewrite list_lookup_fmap, Hj.
    + unfold wf in Hwf. rewrite Forall_forall in Hwf. rewrite Hm. by apply Hwf.
  - unfold kept, rows. rewrite Hm.
    change (map (row_at df) (seq 0 (nrows df))) with (row_at df <$> seq 0 (nrows df)).
    by rewrite select_unmarked_fmap.
Qed.

Lemma drop_duplicates_columns df : columns (drop_duplicates df) = columns df.
Proof.
  unfold drop_duplicates. case_bool_decide; [done |].
  unfold columns. simpl. generalize (duplicated df). intros m.
  generalize (data df). intros l.
  induction l as [|c l IH]; [done |].
  rewrite map_cons, !fmap_cons. simpl. f_equal. exact IH.
Qed.

Lemma drop_duplicates_index df :
  data df ≠ [] →
  index (drop_duplicates df) = select_unmarked (duplicated df) (index df).
Proof.
  intros Hd. unfold drop_duplicates. case_bool_decide as He; [|done].
  destruct He as [He|]; [|done]. rewrite He. by destruct (duplicated df).
Qed.

Lemma drop_duplicates_rows df :
  wf df → data df ≠ [] →
  rows (drop_duplicates df) = select_unmarked (duplicated df) (rows df).
Proof.
  intros Hwf Hd. unfold drop_duplicates. case_bool_decide as He.
  - destruct He as [He|]; [|done].
    unfold rows, nrows. rewrite He. simpl. by destruct (duplicated df).
  - apply rows_select; [done | apply length_duplicated].
Qed.

Lemma drop_duplicates_wf df : wf df → wf (drop_duplicates df).
Proof.
  intros Hwf. unfold drop_duplicates. case_bool_decide; [done |].
  unfold wf, nrows in *. simpl. apply Forall_fmap.
  eapply Forall_impl; [exact Hwf |]. intros c Hc. simpl.
  rewrite (select_unmarked_nth _ c.2 NaN), (select_unmarked_nth _ (index df) 0);
    rewrite ?length_map, ?length_duplicated; done.
Qed.
End drop_duplicates_lemmas.

(** ** The rows of the expanded table *)

Lemma filter_other_labels (pre post : list string) key :
  key ∉ pre → key ∉ post →
  filter (λ c, c ≠ key) (pre ++ key :: post) = delete (length pre) (pre ++ key :: post).
Proof.
  intros Hpre Hpost. rewrite delete_middle.
  assert (∀ l : list string, key ∉ l → filter (λ c, c ≠ key) l = l) as Hid.
  { induction l as [|c l IH]; [done |]. rewrite not_elem_of_cons.
    intros [? ?]. rewrite filter_cons_True by done. by rewrite IH. }
  rewrite filter_app, filter_cons_False by (intros ?; done). by rewrite !Hid.
Qed.

Lemma row_at_split {L} idx (pre post : list (L * Series)) key cats i :
  row_at (MkFrame idx (pre ++ (key, cats) :: post)) i
  = row_at (MkFrame idx pre) i ++ nth i cats NaN :: row_at (MkFrame idx post) i.
Proof. unfold row_at. simpl. by rewrite map_app. Qed.

Lemma row_at_app {L} idx (a b : list (L * Series)) i :
  row_at (MkFrame idx (a ++ b)) i
  = row_at (MkFrame idx a) i ++ row_at (MkFrame idx b) i.
Proof. unfold row_at. simpl. by rewrite map_app. Qed.

Lemma length_row_at {L} (df : Frame L) i : length (row_at df i) = length (data df).
Proof. unfold row_at. by rewrite length_map. Qed.

Lemma expand_rows (df mid : DataFrame) :
  wf df → expand_categories df = Ok mid →
  ∃ p p0 s0,
    columns df !! p = Some "categories" ∧
    filter (λ c, c ≠ "categories") (columns df) = delete p (columns df) ∧
    positions 0 (index df) = [p0] ∧
    nth p (row_at df p0) NaN = Str s0 ∧
    NoDup (category_name <$> split ";" s0) ∧
    index mid = index df ∧
    columns mid = delete p (columns df) ++ (category_name <$> split ";" s0) ∧
    wf mid ∧
    ∀ i, (i < nrows df)%nat → ∃ vs,
      category_values (nth p (row_at df i) NaN) = Some vs ∧
      length vs = length (split ";" s0) ∧
      row_at mid i = delete p (row_at df i) ++ (Int ∘ normalize <$> vs).
Proof.
  intros Hwf Hmid.
  destruct (expand_categories_inv df mid Hwf Hmid)
    as (pre & cats & post & p0 & s0 & cols' & Hd & Hpre & Hpost & Hpos & Hp0
        & Hnd & Hlc & Hwc & Hrows & ->).
  set (names := category_name <$> split ";" s0) in *.
  assert (length names = length cols') as Hln
    by (unfold names; rewrite length_fmap; lia).
  assert (length cats = nrows df) as Hlen.
  { unfold wf in Hwf. rewrite Hd in Hwf.
    apply Forall_app in Hwf as [_ Hwf]. by apply Forall_cons in Hwf as [Hwf _]. }
  assert (∀ i, nth (length pre) (row_at df i) NaN = nth i cats NaN) as Hnth.
  { intros i. destruct df as [idx dat]. simpl in Hd. subst dat.
    rewrite row_at_split, app_nth2; rewrite length_row_at; simpl; [|lia].
    by rewrite Nat.sub_diag. }
  assert (∀ i, delete (length pre) (row_at df i)
               = row_at (MkFrame (index df) (pre ++ post)) i) as Hdel.
  { intros i. destruct df as [idx dat]. simpl in Hd. subst dat.
    rewrite row_at_split, row_at_app. simpl.
    rewrite <- (length_row_at (MkFrame idx pre) i) at 1.
    apply delete_middle. }
  exists (length pre), p0, s0. unfold columns. rewrite Hd, fmap_app, fmap_cons.
  simpl. split_and!.
  - apply list_lookup_middle. by rewrite length_fmap.
  - rewrite <- (length_fmap fst pre). by apply filter_other_labels.
  - done.
  - rewrite Hnth. by apply nth_lookup_Some.
  - done.
  - done.
  - rewrite <- (length_fmap fst pre), delete_middle.
    rewrite !fmap_app, fst_zip by lia. done.
  - unfold wf, nrows in *. simpl. rewrite Hd in Hwf.
    apply Forall_app in Hwf as [Hwpre Hwf]. apply Forall_cons in Hwf as [_ Hwpost].
    rewrite !Forall_app. split_and!; [done | done |].
    apply Forall_forall. intros [n c'] Hc%elem_of_zip_r. simpl.
    rewrite Forall_forall in Hwc. rewrite (Hwc c' Hc). done.
  - intros i Hi.
    destruct (lookup_lt_is_Some_2 cats i ltac:(lia)) as [c Hc].
    destruct (Hrows i c Hc) as (s & vs & -> & Hvs & Hlv & Hrow).
    exists vs. rewrite Hnth, (nth_lookup_Some _ _ _ _ Hc). split_and!; [done | done |].
    rewrite Hdel, <- Hrow, row_at_app. f_equal.
    unfold row_at. simpl.
    rewrite <- (snd_zip names cols') at 2 by lia.
    rewrite <- list_fmap_compose. done.
Qed.

Lemma expand_cleaned_rows (df mid : DataFrame) p :
  nrows mid = nrows df →
  (∀ i, (i < nrows df)%nat → ∃ vs,
      category_values (nth p (row_at df i) NaN) = Some vs ∧
      row_at mid i = delete p (row_at df i) ++ (Int ∘ normalize <$> vs)) →
  Forall2 (λ r m, cleaned_row p r = Some m) (rows df) (rows mid).
Proof.
  intros Hn Hrows. apply Forall2_same_length_lookup_2.
  { by rewrite !length_rows. }
  intros i r m Hr Hm.
  pose proof (lookup_lt_Some _ _ _ Hr) as Hi. rewrite length_rows in Hi.
  rewrite rows_lookup in Hr by done. rewrite rows_lookup in Hm by lia.
  injection Hr as <-. injection Hm as <-.
  destruct (Hrows i Hi) as (vs & Hvs & ->).
  unfold cleaned_row. by rewrite Hvs.
Qed.

Lemma expand_data_nonempty (df mid : DataFrame) :
  wf df → expand_categories df = Ok mid → data mid ≠ [].
Proof.
  intros Hwf Hmid.
  destruct (expand_rows df mid Hwf Hmid) as (p & p0 & s0 & _ & _ & _ & _ & _ & _ & Hc & _).
  intros Hd. unfold columns in Hc. rewrite Hd in Hc. simpl in Hc.
  symmetry in Hc. apply app_eq_nil in Hc as [_ Hc].
  apply fmap_nil_inv in Hc. by apply split_nonempty in Hc.
Qed.

(** The rows of the cleaned table: the rows of the expanded table that no
    earlier row equals, each of them the specification's image of the input
    row at the same position. *)
Lemma clean_data_rows (df out : DataFrame) :
  wf df → clean_data df = Ok out →
  ∃ mid p,
    expand_categories df = Ok mid ∧
    columns df !! p = Some "categories" ∧
    (∃ names, columns mid
              = filter (λ c, c ≠ "categories") (columns df) ++ names) ∧
    index mid = index df ∧ wf mid ∧
    Forall2 (λ r m, cleaned_row p r = Some m) (rows df) (rows mid) ∧
    index out = select_unmarked (marks [] (rows mid)) (index mid) ∧
    rows out = select_unmarked (marks [] (rows mid)) (rows mid).
Proof.
  intros Hwf (mid & Hmid & ->)%clean_data_ok.
  pose proof (expand_data_nonempty df mid Hwf Hmid) as Hne.
  destruct (expand_rows df mid Hwf Hmid)
    as (p & p0 & s0 & Hp & Hf & _ & _ & _ & Hidx & Hc & Hwm & Hrows).
  exists mid, p. split_and!; try done.
  - eexists. by rewrite Hc, Hf.
  - apply expand_cleaned_rows; [unfold nrows; by rewrite Hidx |].
    intros i Hi. destruct (Hrows i Hi) as (vs & ? & _ & ?). eauto.
  - by apply drop_duplicates_index.
  - by apply drop_duplicates_rows.
Qed.

(** * What [clean_data] guarantees *)

(** The cleaned table is a well-formed frame. *)
Lemma clean_data_wf (df out : DataFrame) :
  wf df → clean_data df = Ok out → wf out.
Proof.
  intros Hwf Hout.
  destruct (clean_data_rows df out Hwf Hout) as (mid & p & Hmid & _ & _ & _ & Hwm & _).
  apply clean_data_ok in Hout as (mid' & Hmid' & ->).
  assert (mid' = mid) as -> by congruence. by apply drop_duplicates_wf.
Qed.

Lemma split_app_sep sep s1 s2 :
  split sep (s1 +:+ String sep s2) = split sep s1 ++ split sep s2.
Proof.
  induction s1 as [|c s1 IH]; simpl.
  - by rewrite decide_True.
  - case_decide; [by rewrite IH |].
    rewrite IH. pose proof (split_nonempty sep s1).
    by destruct (split sep s1).
Qed.

Lemma wf_packed_example : wf packed_example.
Proof. unfold wf. simpl. repeat constructor. Qed.

(** C1.  In every row of the cleaned table the cells of the category
    columns are the values extracted from the tokens of a row of the input,
    with 2 replaced by 1 and every other value kept; cleaning the row
    "related-1;request-0;offer-2" gives related=1, request=0, offer=1. *)
Theorem clean_data_normalizes :
  (∀ df out : DataFrame, wf df → clean_data df = Ok out →
     ∃ p, columns df !! p = Some "categories" ∧
       ∀ r', r' ∈ rows out →
         ∃ r vs, r ∈ rows df ∧
           category_values (nth p r NaN) = Some vs ∧
           r' = delete p r
                ++ ((λ z, Int (if decide (z = 2) then 1 else z)) <$> vs))
  ∧ clean_data packed_example = Ok packed_example_cleaned.
Proof.
  split; [|reflexivity].
  intros df out Hwf Hout.
  destruct (clean_data_rows df out Hwf Hout)
    as (mid & p & _ & Hp & _ & _ & _ & Hrows & _ & Hsel).
  exists p. split; [done |]. intros r' Hr'.
  rewrite Hsel in Hr'.
  eapply elem_of_sublist in Hr'; [|apply select_unmarked_sublist].
  apply list_elem_of_lookup in Hr' as [i Hi].
  destruct (Forall2_lookup_r _ _ _ _ _ Hrows Hi) as (r & Hr & Hclean).
  unfold cleaned_row in Hclean.
  destruct (category_values (nth p r NaN)) as [vs|] eqn:Hvs; [|done].
  injection Hclean as <-. exists r, vs. split_and!; [|done..].
  by eapply list_elem_of_lookup_2.
Qed.

Lemma clean_data_normalizes_witness :
  wf packed_example ∧
  clean_data packed_example = Ok packed_example_cleaned ∧
  ∃ p, columns packed_example !! p = Some "categories" ∧
    ∀ r', r' ∈ rows packed_example_cleaned →
      ∃ r vs, r ∈ rows packed_example ∧
        category_values (nth p r NaN) = Some vs ∧
        r' = delete p r
             ++ ((λ z, Int (if decide (z = 2) then 1 else z)) <$> vs).
Proof.
  split; [exact wf_packed_example |]. split; [reflexivity |].
  apply (proj1 clean_data_normalizes packed_example packed_example_cleaned).
  - exact wf_packed_example.
  - reflexivity.
Defined.

Lemma wf_dash_example : wf dash_example.
Proof. unfold wf. simpl. repeat constructor. Qed.

(** C2, as stated, fails: for the token "related-10" line 37 extracts 0,
    the value of the last character, while the character after the last
    [-] is 1; the cleaned table holds related=0. *)
Lemma last_character_counterexample :
  (str_get_last [Str "related-10"] ≫= astype_int) = Ok [Int 0] ∧
  (char_after_last "-" "related-10" ≫= digit_value) = Some 1 ∧
  clean_data dash_example = Ok dash_example_cleaned ∧
  ¬ (∀ t v, (str_get_last [Str t] ≫= astype_int) = Ok [Int v] →
            (char_after_last "-" t ≫= digit_value) = Some v).
Proof.
  split_and!; [reflexivity.. |].
  intros H. specialize (H "related-10" 0 eq_refl). discriminate H.
Qed.

(** C2, amended.  Line 37 turns every token of a category column into the
    integer value of its last character; in every row of the expanded
    table the category cells are the normalized values so extracted from
    the tokens of that row, in order; and the last character is the
    character after the last [-] whenever the token ends in [-] and one
    digit. *)
Theorem clean_data_extracts_last_character :
  (∀ s s2 : Series, (str_get_last s ≫= astype_int) = Ok s2 →
     Forall2 (λ c c', ∃ t a z, c = Str t ∧ last_char t = Some a ∧
                        digit_value a = Some z ∧ c' = Int z) s s2)
  ∧ (∀ df mid : DataFrame, wf df → expand_categories df = Ok mid →
       ∃ p, columns df !! p = Some "categories" ∧
         ∀ i, (i < nrows df)%nat →
           ∃ s vs, nth p (row_at df i) NaN = Str s ∧
             Forall2 (λ t z, ∃ a, last_char t = Some a ∧ digit_value a = Some z)
               (split ";" s) vs ∧
             row_at mid i = delete p (row_at df i) ++ (Int ∘ normalize <$> vs))
  ∧ (∀ name a z, digit_value a = Some z →
       let t := name +:+ String "-" (String a EmptyString) in
       last_char t = Some a ∧ char_after_last "-" t = Some a).
Proof.
  split_and!.
  - intros s s2 H. apply extract_ok in H.
    eapply Forall2_impl; [exact H |].
    intros c c' (t & z & -> & Hz & ->). unfold token_value in Hz.
    destruct (last_char t) as [a|] eqn:Ha; [|done]. simpl in Hz.
    by exists t, a, z.
  - intros df mid Hwf Hmid.
    destruct (expand_rows df mid Hwf Hmid)
      as (p & p0 & s0 & Hp & _ & _ & _ & _ & _ & _ & _ & Hrows).
    exists p. split; [done |]. intros i Hi.
    destruct (Hrows i Hi) as (vs & Hvs & _ & Hrow).
    unfold category_values in Hvs.
    destruct (nth p (row_at df i) NaN) as [s| |] eqn:Hc; [|done..].
    exists s, vs. split_and!; [done | | done].
    apply mapM_Some_1 in Hvs. eapply Forall2_impl; [exact Hvs |].
    intros t z Hz. unfold token_value in Hz.
    destruct (last_char t) as [a|] eqn:Ha; [|done]. by exists a.
  - intros name a z Ha t. split.
    + unfold t. by rewrite last_char_app.
    + unfold t, char_after_last. rewrite split_app_sep.
      assert (a ≠ "-"%char) as Hne by (intros ->; discriminate Ha).
      assert (split "-" (String a EmptyString) = [String a EmptyString]) as ->.
      { simpl. by rewrite decide_False. }
      pose proof (split_nonempty "-" name).
      destruct (split "-" name) as [|x l] eqn:Hs; [done |].
      rewrite <- app_comm_cons.
      destruct (l ++ [String a EmptyString]) as [|y l'] eqn:Hl.
      { by destruct l. }
      rewrite <- Hl, app_comm_cons, last_snoc. done.
Qed.

Lemma clean_data_extracts_last_character_witness :
  wf dash_example ∧
  expand_categories dash_example = Ok dash_example_cleaned ∧
  ∃ p, columns dash_example !! p = Some "categories" ∧
    ∀ i, (i < nrows dash_example)%nat →
      ∃ s vs, nth p (row_at dash_example i) NaN = Str s ∧
        Forall2 (λ t z, ∃ a, last_char t = Some a ∧ digit_value a = Some z)
          (split ";" s) vs ∧
        row_at dash_example_cleaned i
        = delete p (row_at dash_example i) ++ (Int ∘ normalize <$> vs).
Proof.
  split; [exact wf_dash_example |]. split; [reflexivity |].
  apply (proj1 (proj2 clean_data_extracts_last_character)
           dash_example dash_example_cleaned).
  - exact wf_dash_example.
  - reflexivity.
Defined.

Lemma range_index_first (idx : list Z) n p :
  idx = Z.of_nat <$> seq 0 n → idx !! p = Some 0 → p = 0%nat.
Proof.
  intros -> Hp. rewrite list_lookup_fmap in Hp.
  destruct (seq 0 n !! p) as [q|] eqn:Hq; [|done].
  apply lookup_seq in Hq as [-> _]. simpl in Hp. injection Hp. lia.
Qed.

(** ** The tokens and their names, in the words of the specification *)

Lemma length_split sep s : length (split sep s) = token_count sep s.
Proof.
  induction s as [|c s IH]; [done |]. simpl. case_decide; simpl.
  - by rewrite IH.
  - rewrite <- IH. pose proof (split_nonempty sep s).
    by destruct (split sep s).
Qed.

Lemma split_sep_free sep s : sep_free sep s = true → split sep s = [s].
Proof.
  induction s as [|c s IH]; [done |]. simpl.
  intros [Hc Hs]%andb_true_iff. apply negb_true_iff, bool_decide_eq_false in Hc.
  rewrite decide_False by done. by rewrite IH.
Qed.

Lemma split_joined sep toks :
  toks ≠ [] → Forall (λ t, sep_free sep t = true) toks →
  split sep (joined sep toks) = toks.
Proof.
  intros Hne Hall. induction Hall as [|t toks Ht Hall IH]; [done |].
  destruct toks as [|t' toks].
  - simpl. by apply split_sep_free.
  - change (joined sep (t :: t' :: toks))
      with (t +:+ String sep (joined sep (t' :: toks))).
    rewrite split_app_sep, IH by done. by rewrite split_sep_free.
Qed.

Lemma sep_free_head sep s t ts :
  split sep s = t :: ts → sep_free sep t = true.
Proof.
  revert t ts. induction s as [|c s IH]; intros t ts; simpl.
  - by intros [= <- <-].
  - case_decide as Hc; [by intros [= <- <-] |].
    destruct (split sep s) as [|t' ts'] eqn:Hs.
    + intros [= <- <-]. simpl. by rewrite bool_decide_eq_false_2.
    + intros [= <- <-]. simpl. rewrite bool_decide_eq_false_2 by done.
      simpl. by eapply IH.
Qed.

(** The pieces [split] returns are the tokens of the specification, and
    no other list is. *)
Lemma tokens_of_split sep s : tokens_of sep s (split sep s).
Proof.
  split_and!; [apply split_nonempty | |].
  - induction s as [|c s IH]; simpl.
    + by constructor.
    + case_decide as Hc; [by constructor |].
      destruct (split sep s) as [|t ts] eqn:Hs.
      * constructor; [|done]. simpl. by rewrite bool_decide_eq_false_2.
      * apply Forall_cons in IH as [Ht Hts]. constructor; [|done].
        simpl. by rewrite bool_decide_eq_false_2.
  - induction s as [|c s IH]; [done |]. simpl.
    pose proof (split_nonempty sep s) as Hne.
    case_decide as Hc.
    + subst c. destruct (split sep s) as [|t ts] eqn:Hs; [done |].
      change (joined sep (EmptyString :: t :: ts))
        with (EmptyString +:+ String sep (joined sep (t :: ts))).
      by rewrite IH.
    + destruct (split sep s) as [|t ts] eqn:Hs; [done |].
      destruct ts as [|t' ts]; simpl in *; by rewrite <- IH.
Qed.

Lemma tokens_of_unique sep s toks :
  tokens_of sep s toks → toks = split sep s.
Proof. intros (Hne & Hall & <-). by rewrite split_joined. Qed.

Lemma prefix_of_category_name t name :
  prefix_of "-" t name ↔ name = category_name t.
Proof.
  unfold category_name. split.
  - intros [Hfree [-> | [rest ->]]].
    + by rewrite split_sep_free.
    + by rewrite split_app_sep, split_sep_free.
  - intros ->. pose proof (tokens_of_split "-" t) as (_ & _ & Hj).
    destruct (split "-" t) as [|x l] eqn:Hs; [by apply split_nonempty in Hs |].
    simpl. split; [by eapply sep_free_head |].
    destruct l as [|y l]; [by left |]. right. by exists (joined "-" (y :: l)).
Qed.

Lemma prefixes_category_names toks names :
  Forall2 (prefix_of "-") toks names ↔ names = category_name <$> toks.
Proof.
  split.
  - induction 1 as [|t n toks names Ht _ IH]; [done |].
    apply prefix_of_category_name in Ht. rewrite fmap_cons. by f_equal.
  - intros ->. apply Forall2_fmap_r, Forall_Forall2_diag, Forall_forall.
    intros t _. by apply prefix_of_category_name.
Qed.

Lemma max_list_le (ns : list nat) n :
  Forall (λ m, (m ≤ n)%nat) ns → (max_list ns ≤ n)%nat.
Proof. induction 1 as [|m ns Hm _ IH]; simpl; lia. Qed.

(** ** The header step (lines 28-33) *)

Lemma clean_data_name_categories (df : DataFrame) :
  clean_data df
  = (categories ← name_categories df;
     categories ← for_each clean_column (columns categories) categories;
     df' ← drop_columns ["categories"] df;
     Ok (drop_duplicates (concat_axis1 df' categories))).
Proof.
  unfold clean_data, name_categories.
  destruct (getitem df "categories") as [s|]; [|done]. simpl.
  destruct (str_split_expand ";" (index df) s) as [c|]; [|done]. simpl.
  destruct (loc_row c 0) as [row|]; [|done]. simpl.
  by destruct (comprehension split_prefix (iter_row row)).
Qed.

(** When the row labelled 0 holds a packed string with as many tokens as
    any row, line 33 names the category columns after its tokens. *)
Lemma name_categories_ok (df : DataFrame) cats p0 s0 :
  getitem df "categories" = Ok cats →
  positions 0 (index df) = [p0] →
  cats !! p0 = Some (Str s0) →
  Forall (λ c, ∀ s, c = Str s →
            (token_count ";" s ≤ token_count ";" s0)%nat) cats →
  ∃ named, name_categories df = Ok named ∧
    columns named = category_name <$> split ";" s0.
Proof.
  intros Hcats Hpos Hp0 Hwide.
  exists (MkFrame (index df)
            (zip (category_name <$> split ";" s0)
               (map (λ j, map (λ r, nth j r NaN) (map (split_cell ";") cats))
                  (seq 0 (length (split ";" s0)))))).
  split; cycle 1.
  { unfold columns. cbn [data]. rewrite fst_zip; [done |].
    by rewrite !length_fmap, length_seq. }
  unfold name_categories. rewrite Hcats. simpl.
  assert (max_list (length <$> map (split_cell ";") cats)
          = length (split ";" s0)) as Hw.
  { apply Nat.le_antisymm.
    - apply max_list_le, Forall_fmap, Forall_fmap.
      eapply Forall_impl; [exact Hwide |]. intros c Hc.
      destruct c as [s| |]; simpl.
      + rewrite length_fmap, !length_split. by apply Hc.
      + apply split_length_pos.
      + apply split_length_pos.
    - pose proof (width_bound ";" cats p0 _ Hp0) as Hle. simpl in Hle.
      by rewrite length_fmap in Hle. }
  unfold str_split_expand.
  assert (str_accessor cats = Ok cats) as ->.
  { apply str_accessor_ok. split; [|done]. right. apply Exists_exists.
    exists (Str s0). split; [by eapply list_elem_of_lookup_2 | done]. }
  simpl. rewrite Hw.
  set (n := length (split ";" s0)) in *.
  set (pieces := map (split_cell ";") cats).
  unfold loc_row. simpl. rewrite Hpos. simpl.
  rewrite (row_at_expand _ pieces n p0 (Str <$> split ";" s0))
    by (unfold pieces; by rewrite list_lookup_fmap, Hp0).
  replace (seq 0 n) with (seq 0 (length (Str <$> split ";" s0))) at 1
    by by rewrite length_fmap.
  rewrite map_nth_seq, comprehension_names. simpl.
  unfold set_columns. simpl.
  rewrite decide_True by (rewrite !length_fmap, length_seq; done).
  by rewrite <- list_fmap_compose.
Qed.

(** C3, as stated, fails: a table with a [categories] column and two
    rows, the second with more tokens than the first, has no new headers.
    Line 28 builds as many category columns as the longest row has
    tokens, the row labelled 0 has no token for the last of them, and line
    32 raises [AttributeError] on the missing value. *)
Lemma ragged_rows_counterexample :
  ("categories" ∈ columns ragged_example) ∧
  (1 ≤ nrows ragged_example)%nat ∧
  name_categories ragged_example = Raise AttributeError ∧
  clean_data ragged_example = Raise AttributeError ∧
  ¬ (∀ df : DataFrame,
       "categories" ∈ columns df → (1 ≤ nrows df)%nat →
       ∃ named p s0 toks names,
         columns df !! p = Some "categories" ∧
         nth p (row_at df 0) NaN = Str s0 ∧
         tokens_of ";" s0 toks ∧ Forall2 (prefix_of "-") toks names ∧
         name_categories df = Ok named ∧ columns named = names).
Proof.
  assert ("categories" ∈ columns ragged_example) as Hin
    by (apply (bool_decide_unpack _); reflexivity).
  assert (1 ≤ nrows ragged_example)%nat as Hrows by (unfold nrows; simpl; lia).
  split_and!; [done | done | reflexivity | reflexivity |].
  intros H.
  destruct (H ragged_example Hin Hrows)
    as (named & p & s0 & toks & names & _ & _ & _ & _ & Hnamed & _).
  discriminate Hnamed.
Qed.

(** C3, amended.  On a table with one [categories] column and one row
    labelled 0 (the first row of a table with the default index), whose
    packed value is a string with at least as many tokens as any other
    row has, line 33 names the category columns after the tokens of that
    value: the headers are exactly, in order, the prefixes of its
    [;]-separated tokens, the prefix of a token being what stands before
    its first [-].  Whenever the cleaner returns a table, these headers
    follow the other headers of the input, in their order, in the place of
    the packed column. *)
Theorem clean_data_headers (df : DataFrame) (cats : Series) (p0 : nat)
    (s0 : string) (toks names : list string) :
  wf df →
  getitem df "categories" = Ok cats →
  positions 0 (index df) = [p0] →
  cats !! p0 = Some (Str s0) →
  Forall (λ c, ∀ s, c = Str s →
            (token_count ";" s ≤ token_count ";" s0)%nat) cats →
  tokens_of ";" s0 toks →
  Forall2 (prefix_of "-") toks names →
  (∃ named, name_categories df = Ok named ∧ columns named = names) ∧
  (∀ out, clean_data df = Ok out →
     columns out = filter (λ c, c ≠ "categories") (columns df) ++ names) ∧
  (∀ n, index df = Z.of_nat <$> seq 0 n → p0 = 0%nat).
Proof.
  intros Hwf Hcats Hpos Hp0 Hwide ->%tokens_of_unique ->%prefixes_category_names.
  split_and!.
  - by eapply name_categories_ok.
  - intros out (mid & Hmid & ->)%clean_data_ok.
    destruct (expand_categories_inv df mid Hwf Hmid)
      as (pre & cats' & post & p0' & s0' & cols' & Hd & Hpre & Hpost & Hpos'
          & Hp0' & _ & Hlc & _ & _ & ->).
    apply getitem_ok in Hcats as (pre1 & post1 & Hd1 & _).
    rewrite Hd in Hd1.
    destruct (unique_split _ _ _ _ _ _ _ Hpre Hpost (eq_sym Hd1))
      as (-> & -> & ->).
    rewrite Hpos in Hpos'. injection Hpos' as <-.
    rewrite Hp0 in Hp0'. injection Hp0' as <-.
    rewrite drop_duplicates_columns. unfold columns. cbn [data].
    rewrite Hd, !fmap_app, fmap_cons. cbn [fst].
    rewrite fst_zip by (rewrite length_fmap; lia).
    rewrite filter_other_labels, delete_middle by done. done.
  - intros n Hn. eapply range_index_first; [exact Hn |].
    apply positions_lookup. rewrite Hpos. left.
Qed.

Lemma clean_data_headers_witness :
  wf packed_example ∧
  getitem packed_example "categories"
  = Ok [Str "related-1;request-0;offer-2"] ∧
  positions 0 (index packed_example) = [0%nat] ∧
  [Str "related-1;request-0;offer-2"] !! 0%nat
  = Some (Str "related-1;request-0;offer-2") ∧
  Forall (λ c, ∀ s, c = Str s →
            (token_count ";" s
             ≤ token_count ";" "related-1;request-0;offer-2")%nat)
    [Str "related-1;request-0;offer-2"] ∧
  tokens_of ";" "related-1;request-0;offer-2"
    ["related-1"; "request-0"; "offer-2"] ∧
  Forall2 (prefix_of "-") ["related-1"; "request-0"; "offer-2"]
    ["related"; "request"; "offer"] ∧
  clean_data packed_example = Ok packed_example_cleaned ∧
  (∃ named, name_categories packed_example = Ok named ∧
     columns named = ["related"; "request"; "offer"]) ∧
  columns packed_example_cleaned
  = filter (λ c, c ≠ "categories") (columns packed_example)
    ++ ["related"; "request"; "offer"].
Proof.
  assert (Forall (λ c, ∀ s, c = Str s →
            (token_count ";" s
             ≤ token_count ";" "related-1;request-0;offer-2")%nat)
    [Str "related-1;request-0;offer-2"]) as Hwide.
  { constructor; [|constructor]. by intros s [= <-]. }
  assert (tokens_of ";" "related-1;request-0;offer-2"
            ["related-1"; "request-0"; "offer-2"]) as Htoks.
  { split_and!; [done | by repeat constructor | reflexivity]. }
  assert (Forall2 (prefix_of "-") ["related-1"; "request-0"; "offer-2"]
            ["related"; "request"; "offer"]) as Hnames.
  { constructor; [split; [reflexivity | right; by exists "1"] |].
    constructor; [split; [reflexivity | right; by exists "0"] |].
    constructor; [split; [reflexivity | right; by exists "2"] |].
    constructor. }
  destruct (clean_data_headers packed_example
              [Str "related-1;request-0;offer-2"] 0%nat
              "related-1;request-0;offer-2"
              ["related-1"; "request-0"; "offer-2"]
              ["related"; "request"; "offer"]
              wf_packed_example eq_refl eq_refl eq_refl Hwide Htoks Hnames)
    as (Hnamed & Hout & _).
  split; [exact wf_packed_example |].
  do 3 (split; [reflexivity |]).
  split; [exact Hwide |]. split; [exact Htoks |]. split; [exact Hnames |].
  split; [reflexivity |]. split; [exact Hnamed |].
  exact (Hout packed_example_cleaned eq_refl).
Defined.

(** C10.  A table with a [categories] column and no row is rejected with
    an exception instead of an empty cleaned table; when the column is
    unique the exception is the [KeyError] of line 31: the expanded table
    has no row labelled 0. *)
Theorem clean_data_empty_table (df : DataFrame) :
  "categories" ∈ columns df → index df = [] →
  raises (clean_data df) ∧
  ∀ cats, wf df → getitem df "categories" = Ok cats →
    clean_data df = Raise KeyError.
Proof.
  intros _ Hidx. split.
  - unfold clean_data, str_split_expand.
    destruct (getitem df "categories") as [s|e]; [|by eexists].
    simpl. destruct (str_accessor s) as [s'|e]; [|by eexists].
    simpl. rewrite Hidx. by eexists.
  - intros cats Hwf Hcats. unfold clean_data. rewrite Hcats. simpl.
    assert (cats = []) as ->.
    { apply getitem_ok in Hcats as (pre & post & Hd & _).
      unfold wf, nrows in Hwf. rewrite Hd, Hidx in Hwf.
      apply Forall_app in Hwf as [_ Hwf]. apply Forall_cons in Hwf as [Hwf _].
      by apply nil_length_inv. }
    by rewrite Hidx.
Qed.

Lemma clean_data_empty_table_witness :
  ("categories" ∈ columns empty_example) ∧
  index empty_example = [] ∧
  raises (clean_data empty_example) ∧
  ∀ cats, wf empty_example → getitem empty_example "categories" = Ok cats →
    clean_data empty_example = Raise KeyError.
Proof.
  assert ("categories" ∈ columns empty_example) as H.
  { apply (bool_decide_unpack _). reflexivity. }
  split; [exact H |]. split; [reflexivity |].
  apply (clean_data_empty_table empty_example H). reflexivity.
Defined.

Lemma NoDup_count_one {A} `{EqDecision A} (l : list A) x :
  NoDup l → x ∈ l → length (filter (λ y, y = x) l) = 1%nat.
Proof.
  induction 1 as [|y l Hy Hnd IH]; [by intros ?%elem_of_nil |].
  intros [->|Hx]%elem_of_cons.
  - rewrite filter_cons_True by done. rewrite filter_none; [done |].
    apply Forall_forall. by intros z Hz ->.
  - rewrite filter_cons_False by (intros ->; done). by apply IH.
Qed.

Lemma marks_true {A} `{EqDecision A} (rs : list A) i r :
  rs !! i = Some r →
  marks [] rs !! i = Some true ↔ ∃ j, (j < i)%nat ∧ rs !! j = Some r.
Proof.
  intros Hr. rewrite (marks_lookup rs i r Hr). split.
  - intros [= Hb]. apply bool_decide_eq_true in Hb.
    apply list_elem_of_lookup in Hb as [j Hj].
    pose proof (lookup_lt_Some _ _ _ Hj) as Hlt. rewrite length_take in Hlt.
    exists j. split; [lia |]. by rewrite lookup_take_lt in Hj by lia.
  - intros (j & Hj & Hrj). f_equal. apply bool_decide_eq_true.
    apply list_elem_of_lookup. exists j. by rewrite lookup_take_lt.
Qed.

Lemma wf_duplicate_example : wf duplicate_example.
Proof. unfold wf. simpl. repeat constructor. Qed.

(** C5.  The cleaned table is the expanded table without the rows that
    equal an earlier row in every column: exactly those rows are masked,
    the remaining rows keep their order and index labels, no row occurs
    twice and every row of the expanded table still occurs; two identical
    joined rows therefore leave exactly one cleaned row. *)
Theorem clean_data_drops_duplicates (df out : DataFrame) :
  wf df → clean_data df = Ok out →
  ∃ mid mask,
    expand_categories df = Ok mid ∧
    length mask = nrows mid ∧
    (∀ i r, rows mid !! i = Some r →
       mask !! i = Some true ↔ ∃ j, (j < i)%nat ∧ rows mid !! j = Some r) ∧
    index out = select_unmarked mask (index mid) ∧
    rows out = select_unmarked mask (rows mid) ∧
    rows out `sublist_of` rows mid ∧
    NoDup (rows out) ∧
    (∀ r, r ∈ rows out ↔ r ∈ rows mid) ∧
    (∀ i j, (i < j)%nat → (j < nrows df)%nat → row_at df i = row_at df j →
       ∃ r, rows mid !! i = Some r ∧ rows mid !! j = Some r ∧
            length (filter (λ x, x = r) (rows out)) = 1%nat).
Proof.
  intros Hwf Hout.
  destruct (clean_data_rows df out Hwf Hout)
    as (mid & p & Hmid & Hp & _ & Hidx & Hwm & Hrows & Hsi & Hsr).
  assert (∀ r, r ∈ rows out ↔ r ∈ rows mid) as Hmem.
  { intros r. rewrite Hsr, elem_of_first_occurrences. set_solver. }
  assert (NoDup (rows out)) as Hnd
    by (rewrite Hsr; apply NoDup_first_occurrences).
  exists mid, (marks [] (rows mid)). split_and!; try done.
  - by rewrite length_marks, length_rows.
  - intros i r Hr. by apply marks_true.
  - rewrite Hsr. apply select_unmarked_sublist.
  - intros i j Hij Hj Heq.
    assert (nrows mid = nrows df) as Hn by (unfold nrows; by rewrite Hidx).
    destruct (Forall2_lookup_l _ _ _ i (row_at df i) Hrows) as (r & Hr & Hc).
    { apply rows_lookup. lia. }
    destruct (Forall2_lookup_l _ _ _ j (row_at df j) Hrows) as (r' & Hr' & Hc').
    { by apply rows_lookup. }
    rewrite Heq, Hc' in Hc. injection Hc as ->.
    exists r. split_and!; [done..|].
    apply NoDup_count_one; [done |].
    apply Hmem. by eapply list_elem_of_lookup_2.
Qed.

Lemma clean_data_drops_duplicates_witness :
  wf duplicate_example ∧
  clean_data duplicate_example = Ok duplicate_example_cleaned ∧
  ∃ mid mask,
    expand_categories duplicate_example = Ok mid ∧
    length mask = nrows mid ∧
    (∀ i r, rows mid !! i = Some r →
       mask !! i = Some true ↔ ∃ j, (j < i)%nat ∧ rows mid !! j = Some r) ∧
    index duplicate_example_cleaned = select_unmarked mask (index mid) ∧
    rows duplicate_example_cleaned = select_unmarked mask (rows mid) ∧
    rows duplicate_example_cleaned `sublist_of` rows mid ∧
    NoDup (rows duplicate_example_cleaned) ∧
    (∀ r, r ∈ rows duplicate_example_cleaned ↔ r ∈ rows mid) ∧
    (∀ i j, (i < j)%nat → (j < nrows duplicate_example)%nat →
       row_at duplicate_example i = row_at duplicate_example j →
       ∃ r, rows mid !! i = Some r ∧ rows mid !! j = Some r ∧
            length (filter (λ x, x = r) (rows duplicate_example_cleaned)) = 1%nat).
Proof.
  split; [exact wf_duplicate_example |]. split; [reflexivity |].
  apply (clean_data_drops_duplicates duplicate_example duplicate_example_cleaned).
  - exact wf_duplicate_example.
  - reflexivity.
Defined.

Lemma select_unmarked_zip {A B} m (a : list A) (b : list B) :
  select_unmarked m (zip a b) = zip (select_unmarked m a) (select_unmarked m b).
Proof.
  revert a b. induction m as [|x m IH]; intros [|y a] [|z b]; simpl; try done.
  - by destruct (if x then _ else _).
  - destruct x; simpl; by rewrite IH.
Qed.

Lemma cleaned_row_take p r m :
  (p < length r)%nat → cleaned_row p r = Some m →
  take (length r - 1) m = delete p r.
Proof.
  intros Hp Hm. unfold cleaned_row in Hm.
  destruct (category_values (nth p r NaN)) as [vs|]; [|done].
  injection Hm as <-. apply take_app_length'.
  rewrite length_delete; [done |]. by apply lookup_lt_is_Some_2.
Qed.

(** C6.  Lines 45-46 keep the index and, in every row, the cells of the
    columns other than [categories], in their order, ahead of the new
    category columns; the cleaned table has the same headers, and its rows
    are, with their index labels, a subsequence of those rows. *)
Theorem clean_data_preserves_other_columns (df out : DataFrame) :
  wf df → clean_data df = Ok out →
  ∃ mid p names,
    expand_categories df = Ok mid ∧
    columns df !! p = Some "categories" ∧
    columns mid = filter (λ c, c ≠ "categories") (columns df) ++ names ∧
    columns out = columns mid ∧
    index mid = index df ∧
    take (length (columns df) - 1) <$> rows mid = delete p <$> rows df ∧
    zip (index out) (take (length (columns df) - 1) <$> rows out)
      `sublist_of` zip (index df) (delete p <$> rows df).
Proof.
  intros Hwf Hout.
  destruct (clean_data_rows df out Hwf Hout)
    as (mid & p & Hmid & Hp & [names Hcols] & Hidx & Hwm & Hrows & Hsi & Hsr).
  assert (take (length (columns df) - 1) <$> rows mid = delete p <$> rows df)
    as Htake.
  { apply list_eq_Forall2, Forall2_fmap, Forall2_flip.
    apply Forall2_same_length_lookup_2; [by eapply Forall2_length |].
    intros i r m Hr Hm.
    pose proof (Forall2_lookup_lr _ _ _ _ _ _ Hrows Hr Hm) as Hc.
    pose proof (lookup_lt_Some _ _ _ Hr) as Hi. rewrite length_rows in Hi.
    rewrite rows_lookup in Hr by done. injection Hr as <-.
    assert (length (row_at df i) = length (columns df)) as Hlen
      by (unfold columns; by rewrite length_row_at, length_fmap).
    rewrite <- Hlen. apply cleaned_row_take; [|done].
    rewrite Hlen. by eapply lookup_lt_Some. }
  exists mid, p, names.
  apply clean_data_ok in Hout as (mid' & Hmid' & ->).
  assert (mid' = mid) as -> by congruence.
  split_and!; try done.
  - apply drop_duplicates_columns.
  - rewrite <- Htake, Hsi, Hsr, <- select_unmarked_fmap, <- select_unmarked_zip.
    rewrite <- Hidx. apply select_unmarked_sublist.
Qed.

Lemma clean_data_preserves_other_columns_witness :
  wf duplicate_example ∧
  clean_data duplicate_example = Ok duplicate_example_cleaned ∧
  ∃ mid p names,
    expand_categories duplicate_example = Ok mid ∧
    columns duplicate_example !! p = Some "categories" ∧
    columns mid = filter (λ c, c ≠ "categories") (columns duplicate_example)
                  ++ names ∧
    columns duplicate_example_cleaned = columns mid ∧
    index mid = index duplicate_example ∧
    take (length (columns duplicate_example) - 1) <$> rows mid
    = delete p <$> rows duplicate_example ∧
    zip (index duplicate_example_cleaned)
        (take (length (columns duplicate_example) - 1)
           <$> rows duplicate_example_cleaned)
      `sublist_of` zip (index duplicate_example)
                       (delete p <$> rows duplicate_example).
Proof.
  split; [exact wf_duplicate_example |]. split; [reflexivity |].
  apply (clean_data_preserves_other_columns
           duplicate_example duplicate_example_cleaned).
  - exact wf_duplicate_example.
  - reflexivity.
Defined.

(** * The inner join of [load_data] *)

Lemma elem_of_join_positions (lk rk : Series) i j :
  (i, j) ∈ join_positions lk rk ↔ ∃ k, lk !! i = Some k ∧ rk !! j = Some k.
Proof.
  unfold join_positions. rewrite list_elem_of_join. split.
  - intros (l & Hij & (i' & k & -> & Hk)%elem_of_lookup_imap).
    apply list_elem_of_fmap in Hij as (j' & [= -> ->] & Hj%positions_lookup).
    eauto.
  - intros (k & Hi & Hj). exists ((λ j, (i, j)) <$> positions k rk). split.
    + apply list_elem_of_fmap. exists j. split; [done |].
      by apply positions_lookup.
    + by apply (elem_of_lookup_imap_2 (λ i k, (λ j, (i, j)) <$> positions k rk)).
Qed.

Lemma positions_cons {A} `{EqDecision A} (x y : A) l :
  positions x (y :: l)
  = (if decide (y = x) then [0%nat] else []) ++ (S <$> positions x l).
Proof.
  unfold positions. simpl length. rewrite <- cons_seq, filter_cons. simpl.
  assert (filter (λ i, (y :: l) !! i = Some x) (seq 1 (length l))
          = S <$> filter (λ i, l !! i = Some x) (seq 0 (length l))) as ->.
  { rewrite <- fmap_S_seq. generalize (seq 0 (length l)). intros ns.
    induction ns as [|i ns IH]; [done |].
    rewrite fmap_cons, !filter_cons. simpl. rewrite IH.
    by destruct (decide (l !! i = Some x)). }
  destruct (decide (Some y = Some x)) as [[= ->]|Hne].
  - by rewrite decide_True.
  - rewrite decide_False; [done | congruence].
Qed.

Lemma positions_not_elem_of {A} `{EqDecision A} (x : A) l :
  x ∉ l → positions x l = [].
Proof.
  intros Hx. unfold positions. apply filter_none, Forall_forall.
  intros i _ Hi. by apply list_elem_of_lookup_2 in Hi.
Qed.

Lemma length_positions_NoDup {A} `{EqDecision A} (x : A) l :
  NoDup l → length (positions x l) = if decide (x ∈ l) then 1%nat else 0%nat.
Proof.
  induction 1 as [|y l Hy Hnd IH].
  - by rewrite decide_False by apply not_elem_of_nil.
  - rewrite positions_cons, length_app, length_fmap.
    destruct (decide (y = x)) as [->|Hne].
    + rewrite positions_not_elem_of by done.
      by rewrite decide_True by left.
    + rewrite IH. simpl.
      destruct (decide (x ∈ l)) as [Hin|Hin].
      * by rewrite decide_True by (by right).
      * rewrite decide_False; [done |].
        intros [->|?]%elem_of_cons; done.
Qed.

Lemma length_join_positions (lk rk : Series) :
  NoDup rk →
  length (join_positions lk rk) = length (filter (λ k, k ∈ rk) lk).
Proof.
  intros Hnd. unfold join_positions.
  rewrite length_join, fmap_imap.
  rewrite (imap_ext _ (λ _ k, if decide (k ∈ rk) then 1%nat else 0%nat)).
  - induction lk as [|k lk IH]; [done |].
    rewrite imap_cons, filter_cons. simpl.
    change (sum_list (imap (λ _ k, if decide (k ∈ rk) then 1%nat else 0%nat) lk))
      with (sum_list (imap ((λ _ k, if decide (k ∈ rk) then 1%nat else 0%nat) ∘ S) lk)) in IH.
    rewrite IH. by destruct (decide (k ∈ rk)).
  - intros i k _. simpl. by rewrite length_fmap, length_positions_NoDup.
Qed.

Lemma common_keys_size (lk rk : Series) :
  NoDup lk →
  length (filter (λ k, k ∈ rk) lk)
  = size (list_to_set lk ∩ list_to_set rk : gset cell).
Proof.
  intros Hnd.
  rewrite <- (size_list_to_set (C:=gset cell)) by by apply NoDup_filter.
  f_equal. apply set_eq. intros k.
  rewrite elem_of_intersection, !elem_of_list_to_set, list_elem_of_filter.
  tauto.
Qed.

Lemma key_column_getitem (df : DataFrame) key s :
  key_column df key = Ok s ↔ getitem df key = Ok s.
Proof.
  unfold key_column, getitem.
  by destruct (filter _ _) as [|? [|]].
Qed.

Lemma suffixed_other_x others c :
  c ≠ "id" → suffixed others "_x" "id" c ≠ "id".
Proof.
  intros Hc. unfold suffixed. case_bool_decide; [|done].
  destruct c as [|a [|b [|d c]]]; done.
Qed.

Lemma suffixed_other_y others c :
  c ≠ "id" → suffixed others "_y" "id" c ≠ "id".
Proof.
  intros Hc. unfold suffixed. case_bool_decide; [|done].
  destruct c as [|a [|b [|d c]]]; done.
Qed.

Lemma suffixed_key others suffix key : suffixed others suffix key key = key.
Proof. unfold suffixed. rewrite bool_decide_eq_false_2; [done | tauto]. Qed.

Lemma nth_map_lt {A B} (g : A → B) (l : list A) q d d' :
  (q < length l)%nat → nth q (map g l) d' = g (nth q l d).
Proof.
  intros Hq. destruct (lookup_lt_is_Some_2 l q Hq) as [x Hx].
  rewrite (nth_lookup_Some _ _ _ _ Hx). apply nth_lookup_Some.
  change (map g l) with (g <$> l). by rewrite list_lookup_fmap, Hx.
Qed.

Lemma row_at_take_rows {L} (df : Frame L) ps q :
  (q < length ps)%nat →
  row_at (take_rows ps df) q = row_at df (nth q ps 0%nat).
Proof.
  intros Hq. unfold row_at, take_rows. simpl. rewrite map_map.
  apply map_ext. intros c. simpl.
  by rewrite (nth_map_lt (λ p, nth p c.2 NaN) ps q 0%nat NaN).
Qed.

Lemma row_at_relabel {L L'} idx idx' (f : L → L') (dat : list (L * Series)) q :
  row_at (MkFrame idx (map (λ c, (f c.1, c.2)) dat)) q
  = row_at (MkFrame idx' dat) q.
Proof. unfold row_at. simpl. by rewrite map_map. Qed.

Lemma merge_inv key (left right df : DataFrame) :
  merge key left right = Ok df →
  ∃ lk rk,
    getitem left key = Ok lk ∧ getitem right key = Ok rk ∧
    merge_keys_ok lk rk = true ∧
    let ps := join_positions (left_keys lk rk) (right_keys lk rk) in
    df = MkFrame (Z.of_nat <$> seq 0 (length ps))
           (map (λ c, (suffixed (columns right) "_x" key c.1, c.2))
              (data (take_rows ps.*1 left))
            ++ map (λ c, (suffixed (columns left) "_y" key c.1, c.2))
                 (filter (λ c, c.1 ≠ key) (data (take_rows ps.*2 right)))).
Proof.
  unfold merge. intros H. bind_inv H. bind_inv H.
  destruct (merge_keys_ok a a0) eqn:Hok; [|done]. injection H as <-.
  exists a, a0. by rewrite <- !key_column_getitem.
Qed.

Lemma filter_other_columns (pre post : list (string * Series)) key s :
  (key ∉ pre.*1) → (key ∉ post.*1) →
  filter (λ c : string * Series, c.1 ≠ key) (pre ++ (key, s) :: post)
  = pre ++ post.
Proof.
  intros Hpre Hpost.
  assert (∀ l : list (string * Series), key ∉ l.*1 →
    filter (λ c : string * Series, c.1 ≠ key) l = l) as Hid.
  { induction l as [|c l IH]; [done |]. rewrite fmap_cons, not_elem_of_cons.
    intros [? ?]. rewrite filter_cons_True by done. by rewrite IH. }
  rewrite filter_app, filter_cons_False by (simpl; tauto). by rewrite !Hid.
Qed.

Lemma take_rows_data {L} ps idx (dat : list (L * Series)) :
  data (take_rows ps (MkFrame idx dat))
  = map (λ c, (c.1, map (λ p, nth p c.2 NaN) ps)) dat.
Proof. done. Qed.

Lemma fst_take_rows_data {L} ps (dat : list (L * Series)) :
  (map (λ c : L * Series, (c.1, map (λ p, nth p c.2 NaN) ps)) dat).*1 = dat.*1.
Proof. induction dat as [|c dat IH]; [done |]. simpl. by f_equal. Qed.

Lemma fst_relabel {L L'} (f : L → L') (dat : list (L * Series)) :
  (map (λ c : L * Series, (f c.1, c.2)) dat).*1 = f <$> dat.*1.
Proof. induction dat as [|c dat IH]; [done |]. simpl. by f_equal. Qed.

Lemma exact_left_key (lk rk : Series) i k :
  left_keys lk rk = lk → lk !! i = Some k → left_key lk rk k = k.
Proof.
  intros Hl Hi. apply (f_equal (.!! i)) in Hl. unfold left_keys in Hl.
  rewrite list_lookup_fmap, Hi in Hl. simpl in Hl. congruence.
Qed.

Lemma exact_right_key (lk rk : Series) j k :
  right_keys lk rk = rk → rk !! j = Some k → right_key lk rk k = k.
Proof.
  intros Hr Hj. apply (f_equal (.!! j)) in Hr. unfold right_keys in Hr.
  rewrite list_lookup_fmap, Hj in Hr. simpl in Hr. congruence.
Qed.

Lemma merge_ids (m c df : DataFrame) lk rk :
  merge "id" m c = Ok df → getitem m "id" = Ok lk → getitem c "id" = Ok rk →
  ∃ ids, getitem df "id" = Ok ids ∧
    ∀ k, k ∈ ids ↔ k ∈ lk ∧ left_key lk rk k ∈ right_keys lk rk.
Proof.
  intros Hmerge Hlk Hrk.
  destruct (merge_inv _ _ _ _ Hmerge) as (lk' & rk' & Hlk' & Hrk' & _ & ->).
  assert (lk' = lk) as -> by congruence. assert (rk' = rk) as -> by congruence.
  clear Hlk' Hrk' Hmerge.
  set (ps := join_positions (left_keys lk rk) (right_keys lk rk)).
  apply getitem_ok in Hlk as (lpre & lpost & Hld & Hlpre & Hlpost).
  exists ((λ p, nth p lk NaN) <$> ps.*1). split.
  - apply getitem_ok. cbv zeta. fold ps.
    destruct m as [lidx ldat]. simpl in Hld. subst ldat.
    rewrite take_rows_data, !map_app, !map_cons. cbn [fst snd].
    rewrite suffixed_key, <- app_assoc, <- app_comm_cons.
    eexists _, _. split; [reflexivity |]. split.
    + rewrite fst_relabel, fst_take_rows_data.
      intros (l & Heq & Hl)%list_elem_of_fmap. symmetry in Heq.
      apply suffixed_other_x in Heq; [done |]. by intros ->.
    + rewrite fmap_app, !fst_relabel, fst_take_rows_data.
      intros [(l & Heq & Hl)%list_elem_of_fmap
             |(l & Heq & Hl)%list_elem_of_fmap]%elem_of_app; symmetry in Heq.
      * apply suffixed_other_x in Heq; [done |]. by intros ->.
      * apply suffixed_other_y in Heq; [done |]. intros ->.
        apply list_elem_of_fmap in Hl as ([l s] & -> & [Hne _]%list_elem_of_filter).
        done.
  - intros k. split.
    + intros (i & -> & ([i' j] & -> & Hij)%list_elem_of_fmap)%list_elem_of_fmap.
      apply elem_of_join_positions in Hij as (k & Hi & Hj). simpl.
      unfold left_keys in Hi. rewrite list_lookup_fmap in Hi.
      destruct (lk !! i') as [k0|] eqn:Hk0; [|done]. injection Hi as <-.
      rewrite (nth_lookup_Some _ _ _ _ Hk0).
      split; by eapply list_elem_of_lookup_2.
    + intros [[i Hi]%list_elem_of_lookup [j Hj]%list_elem_of_lookup].
      apply list_elem_of_fmap. exists i.
      split; [by rewrite (nth_lookup_Some _ _ _ _ Hi) |].
      apply list_elem_of_fmap. exists (i, j). split; [done |].
      apply elem_of_join_positions. exists (left_key lk rk k). split; [|done].
      unfold left_keys. by rewrite list_lookup_fmap, Hi.
Qed.

Lemma merge_ids_exact (m c df : DataFrame) lk rk ids :
  merge "id" m c = Ok df → getitem m "id" = Ok lk → getitem c "id" = Ok rk →
  getitem df "id" = Ok ids →
  left_keys lk rk = lk → right_keys lk rk = rk →
  ∀ k, k ∈ ids ↔ k ∈ lk ∧ k ∈ rk.
Proof.
  intros Hmerge Hlk Hrk Hids Hl Hr k.
  destruct (merge_ids m c df lk rk Hmerge Hlk Hrk) as (ids' & Hids' & Hmem).
  assert (ids' = ids) as -> by congruence.
  rewrite Hmem, Hr. split.
  - intros [[i Hi]%list_elem_of_lookup Hk]. split.
    + by eapply list_elem_of_lookup_2.
    + by rewrite (exact_left_key lk rk i k Hl Hi) in Hk.
  - intros [[i Hi]%list_elem_of_lookup Hk]. split.
    + by eapply list_elem_of_lookup_2.
    + by rewrite (exact_left_key lk rk i k Hl Hi).
Qed.

Lemma filter_take_rows_data ps (dat : list (string * Series)) key :
  filter (λ c : string * Series, c.1 ≠ key)
    (map (λ c, (c.1, map (λ p, nth p c.2 NaN) ps)) dat)
  = map (λ c, (c.1, map (λ p, nth p c.2 NaN) ps))
      (filter (λ c : string * Series, c.1 ≠ key) dat).
Proof.
  induction dat as [|c dat IH]; [done |].
  rewrite map_cons, !filter_cons. simpl.
  destruct (decide (c.1 ≠ key)); simpl; by rewrite IH.
Qed.

Lemma merge_columns (m c df : DataFrame) rk :
  merge "id" m c = Ok df → getitem c "id" = Ok rk →
  ∃ pid, columns c !! pid = Some "id" ∧
    (∀ j, nth pid (row_at c j) NaN = nth j rk NaN) ∧
    (∀ j, delete pid (row_at c j)
          = row_at (MkFrame (index c) (filter (λ x, x.1 ≠ "id") (data c))) j) ∧
    columns df = (suffixed (columns c) "_x" "id" <$> columns m)
                 ++ (suffixed (columns m) "_y" "id" <$> delete pid (columns c)).
Proof.
  intros Hmerge Hrk.
  destruct (merge_inv _ _ _ _ Hmerge) as (lk' & rk' & _ & _ & _ & ->).
  apply getitem_ok in Hrk as (rpre & rpost & Hrd & Hrpre & Hrpost).
  destruct c as [ridx rdat]. simpl in Hrd. subst rdat.
  exists (length rpre). split_and!.
  - unfold columns. simpl. rewrite fmap_app, fmap_cons.
    apply list_lookup_middle. by rewrite length_fmap.
  - intros j. rewrite row_at_split, app_nth2; rewrite length_row_at; simpl; [|lia].
    by rewrite Nat.sub_diag.
  - intros j. cbn [data index]. rewrite filter_other_columns by done.
    rewrite row_at_split, row_at_app.
    rewrite <- (length_row_at (MkFrame ridx rpre) j) at 1.
    apply delete_middle.
  - unfold columns at 1. cbv zeta. cbn [data].
    destruct m as [lidx ldat]. rewrite !take_rows_data.
    rewrite fmap_app, !fst_relabel, fst_take_rows_data. f_equal.
    rewrite filter_take_rows_data, fst_take_rows_data.
    rewrite filter_other_columns by done.
    unfold columns. cbn [data]. rewrite !fmap_app, fmap_cons.
    rewrite <- (length_fmap fst rpre), delete_middle. by rewrite fmap_app.
Qed.


Lemma merge_rows (m c df : DataFrame) lk rk q :
  merge "id" m c = Ok df → getitem m "id" = Ok lk → getitem c "id" = Ok rk →
  (q < nrows df)%nat →
  ∃ i j kl kr, lk !! i = Some kl ∧ rk !! j = Some kr ∧
    left_key lk rk kl = right_key lk rk kr ∧
    row_at df q
    = row_at m i
      ++ row_at (MkFrame (index c) (filter (λ x, x.1 ≠ "id") (data c))) j.
Proof.
  intros Hmerge Hlk Hrk Hq.
  destruct (merge_inv _ _ _ _ Hmerge) as (lk' & rk' & Hlk' & Hrk' & _ & ->).
  assert (lk' = lk) as -> by congruence. assert (rk' = rk) as -> by congruence.
  clear Hlk' Hrk' Hmerge. cbv zeta in *.
  set (ps := join_positions (left_keys lk rk) (right_keys lk rk)) in *.
  unfold nrows in Hq. cbn [index] in Hq. rewrite length_fmap, length_seq in Hq.
  destruct (lookup_lt_is_Some_2 ps q Hq) as [[i j] Hij].
  pose proof (list_elem_of_lookup_2 _ _ _ Hij) as Hin.
  apply elem_of_join_positions in Hin as (k & Hi & Hj).
  unfold left_keys in Hi. unfold right_keys in Hj.
  rewrite list_lookup_fmap in Hi. rewrite list_lookup_fmap in Hj.
  destruct (lk !! i) as [kl|] eqn:Hkl; [|done].
  destruct (rk !! j) as [kr|] eqn:Hkr; [|done].
  injection Hi as Hi. injection Hj as Hj.
  exists i, j, kl, kr. split_and!; [done | done | congruence |].
  rewrite row_at_app. f_equal.
  - rewrite (row_at_relabel _ (index (take_rows ps.*1 m))).
    change (MkFrame (index (take_rows ps.*1 m)) (data (take_rows ps.*1 m)))
      with (take_rows ps.*1 m).
    rewrite row_at_take_rows by (by rewrite length_fmap).
    f_equal. apply nth_lookup_Some. by rewrite list_lookup_fmap, Hij.
  - rewrite (row_at_relabel _ (map (λ p, nth p (index c) 0) ps.*2)).
    destruct c as [ridx rdat]. rewrite take_rows_data, filter_take_rows_data.
    change (MkFrame (map (λ p, nth p (index (MkFrame ridx rdat)) 0) ps.*2)
              (map (λ c, (c.1, map (λ p, nth p c.2 NaN) ps.*2))
                 (filter (λ c : string * Series, c.1 ≠ "id") rdat)))
      with (take_rows ps.*2 (MkFrame ridx (filter (λ c : string * Series, c.1 ≠ "id") rdat))).
    rewrite row_at_take_rows by (by rewrite length_fmap).
    f_equal. apply nth_lookup_Some. by rewrite list_lookup_fmap, Hij.
Qed.

Lemma merge_count (m c df : DataFrame) lk rk :
  merge "id" m c = Ok df → getitem m "id" = Ok lk → getitem c "id" = Ok rk →
  NoDup (left_keys lk rk) → NoDup (right_keys lk rk) →
  nrows df
  = size (list_to_set (left_keys lk rk) ∩ list_to_set (right_keys lk rk)
          : gset cell).
Proof.
  intros Hmerge Hlk Hrk Hndl Hndr.
  destruct (merge_inv _ _ _ _ Hmerge) as (lk' & rk' & Hlk' & Hrk' & _ & ->).
  assert (lk' = lk) as -> by congruence. assert (rk' = rk) as -> by congruence.
  unfold nrows. cbn [index]. rewrite length_fmap, length_seq.
  by rewrite length_join_positions, common_keys_size.
Qed.

Lemma load_data_ok read_csv mp cp (df : DataFrame) :
  load_data read_csv mp cp = Ok df ↔
  ∃ m c, read_csv mp = Ok m ∧ read_csv cp = Ok c ∧ merge "id" m c = Ok df.
Proof.
  unfold load_data. split.
  - intros H. bind_inv H. bind_inv H. eauto.
  - intros (m & c & -> & -> & H). done.
Qed.

(** The loader returns a table whenever both files can be read, each table
    has one [id] column, and the two key columns can be compared. *)
Lemma load_data_defined read_csv mp cp (m c : DataFrame) lk rk :
  read_csv mp = Ok m → read_csv cp = Ok c →
  getitem m "id" = Ok lk → getitem c "id" = Ok rk →
  merge_keys_ok lk rk = true →
  is_ok (load_data read_csv mp cp).
Proof.
  intros Hm Hc Hlk%key_column_getitem Hrk%key_column_getitem Hok.
  unfold load_data. rewrite Hm, Hc. simpl. unfold merge.
  rewrite Hlk, Hrk. simpl. rewrite Hok. by eexists.
Qed.

(** The joined table is well formed and carries the default index. *)
Lemma merge_wf key (m c df : DataFrame) :
  merge key m c = Ok df →
  wf df ∧ index df = Z.of_nat <$> seq 0 (nrows df).
Proof.
  intros Hmerge.
  destruct (merge_inv _ _ _ _ Hmerge) as (lk & rk & _ & _ & _ & ->).
  cbv zeta. unfold wf, nrows. simpl. rewrite length_fmap, length_seq.
  split; [|done]. apply Forall_app. split.
  - apply Forall_fmap, Forall_fmap, Forall_forall. intros x _. simpl.
    by rewrite length_map, length_fmap.
  - apply Forall_fmap, Forall_forall. intros x [_ Hx]%list_elem_of_filter.
    apply list_elem_of_fmap in Hx as (y & -> & _). simpl.
    by rewrite length_map, length_fmap.
Qed.

Lemma load_data_wf read_csv mp cp (df : DataFrame) :
  load_data read_csv mp cp = Ok df →
  wf df ∧ index df = Z.of_nat <$> seq 0 (nrows df).
Proof.
  intros (m & c & _ & _ & Hmerge)%load_data_ok. by eapply merge_wf.
Qed.

Lemma to_float64_small (z : Z) :
  Z.abs z < 2 ^ 53 → to_float64 z = z.
Proof.
  intros Hz. unfold to_float64. rewrite bool_decide_eq_true_2; [done |].
  destruct (decide (Z.abs z = 0)) as [->|Hne]; [done |].
  assert (Z.log2 (Z.abs z) < 53); [|lia].
  apply Z.log2_lt_pow2; lia.
Qed.

(** Identifiers below [2 ^ 53] in absolute value are compared as they
    stand, whatever the types of the two columns. *)
Lemma small_keys_exact (lk rk : Series) :
  Forall (λ c, ∀ z, c = Int z → Z.abs z < 2 ^ 53) lk →
  Forall (λ c, ∀ z, c = Int z → Z.abs z < 2 ^ 53) rk →
  exact_keys lk rk.
Proof.
  assert (∀ own other (l : Series),
    Forall (λ c, ∀ z, c = Int z → Z.abs z < 2 ^ 53) l →
    merge_key own other <$> l = l) as Hid.
  { intros own other l Hl. induction Hl as [|c l Hc _ IH]; [done |].
    rewrite fmap_cons, IH. f_equal. destruct c as [s|z|]; simpl; try done.
    destruct (rounds own other); [|done]. by rewrite to_float64_small by eauto. }
  intros Hl Hr. split; by apply Hid.
Qed.

(** C4, as stated, fails: a message with identifier [2 ^ 53 + 1] is
    joined with the categories of identifier [2 ^ 53], because the key
    column of the categories, which has a missing value, is a [float64]
    column and the join compares the identifiers as [float64] values.  The
    joined table holds an identifier absent from the categories, and one
    row where no identifier is present in both inputs. *)
Lemma rounded_identifier_counterexample :
  rounded_files "messages.csv" = Ok rounded_messages ∧
  rounded_files "categories.csv" = Ok rounded_categories ∧
  getitem rounded_messages "id" = Ok [Int 9007199254740993] ∧
  getitem rounded_categories "id" = Ok [Int 9007199254740992; NaN] ∧
  load_data rounded_files "messages.csv" "categories.csv" = Ok rounded_joined ∧
  getitem rounded_joined "id" = Ok [Int 9007199254740993] ∧
  nrows rounded_joined = 1%nat ∧
  ¬ (∀ (read_csv : string → result DataFrame) mp cp (m c df : DataFrame)
       lk rk ids,
       read_csv mp = Ok m → read_csv cp = Ok c →
       getitem m "id" = Ok lk → getitem c "id" = Ok rk →
       load_data read_csv mp cp = Ok df → getitem df "id" = Ok ids →
       (∀ k, k ∈ ids → k ∈ lk ∧ k ∈ rk) ∧
       (NoDup lk → NoDup rk →
        nrows df = size (list_to_set lk ∩ list_to_set rk : gset cell))).
Proof.
  split_and!; [reflexivity.. |].
  intros H.
  destruct (H rounded_files "messages.csv" "categories.csv"
              rounded_messages rounded_categories rounded_joined
              [Int 9007199254740993] [Int 9007199254740992; NaN]
              [Int 9007199254740993]
              eq_refl eq_refl eq_refl eq_refl eq_refl eq_refl) as [Hmem _].
  destruct (Hmem (Int 9007199254740993)) as [_ Hin]; [left |].
  apply elem_of_cons in Hin as [Hin | Hin]; [discriminate Hin |].
  apply elem_of_cons in Hin as [Hin | Hin]; [discriminate Hin |].
  by apply elem_of_nil in Hin.
Qed.

(** C4, amended.  The table the loader returns has one [id] column; it
    holds the identifiers of the messages whose key, as the join compares
    it, is the key of an identifier of the categories, and these are the
    identifiers present in both inputs when no identifier is changed by
    the conversion of its column ([exact_keys]: text, integers of one
    integer type, or numbers below [2 ^ 53]).  The headers are those of
    the messages followed by those of the categories without [id] (a
    header the two sides share is suffixed on each side); each row is a
    row of the messages followed by the cells, other than [id], of a row
    of the categories with the same key; and when the keys are unique in
    each input the number of rows is the number of keys present in both. *)
Theorem load_data_inner_join (read_csv : string → result DataFrame)
    (mp cp : string) (m c df : DataFrame) :
  read_csv mp = Ok m → read_csv cp = Ok c →
  load_data read_csv mp cp = Ok df →
  ∃ lk rk ids pid,
    getitem m "id" = Ok lk ∧ getitem c "id" = Ok rk ∧
    getitem df "id" = Ok ids ∧
    columns c !! pid = Some "id" ∧
    (∀ k, k ∈ ids ↔ k ∈ lk ∧ left_key lk rk k ∈ right_keys lk rk) ∧
    (exact_keys lk rk → ∀ k, k ∈ ids ↔ k ∈ lk ∧ k ∈ rk) ∧
    columns df = (suffixed (columns c) "_x" "id" <$> columns m)
                 ++ (suffixed (columns m) "_y" "id" <$> delete pid (columns c)) ∧
    length (columns df) = (length (columns m) + length (columns c) - 1)%nat ∧
    (∀ q, (q < nrows df)%nat →
       ∃ i j kl kr, lk !! i = Some kl ∧ rk !! j = Some kr ∧
         left_key lk rk kl = right_key lk rk kr ∧
         (exact_keys lk rk → kl = kr) ∧
         row_at df q = row_at m i ++ delete pid (row_at c j)) ∧
    (NoDup (left_keys lk rk) → NoDup (right_keys lk rk) →
       nrows df
       = size (list_to_set (left_keys lk rk) ∩ list_to_set (right_keys lk rk)
               : gset cell)) ∧
    (exact_keys lk rk → NoDup lk → NoDup rk →
       nrows df = size (list_to_set lk ∩ list_to_set rk : gset cell)).
Proof.
  intros Hm Hc (m' & c' & Hm' & Hc' & Hmerge)%load_data_ok.
  assert (m' = m) as -> by congruence. assert (c' = c) as -> by congruence.
  destruct (merge_inv _ _ _ _ Hmerge) as (lk & rk & Hlk & Hrk & _ & _).
  destruct (merge_ids m c df lk rk Hmerge Hlk Hrk) as (ids & Hids & Hmem).
  destruct (merge_columns m c df rk Hmerge Hrk) as (pid & Hpid & _ & Hdel & Hcols).
  exists lk, rk, ids, pid. split_and!; try done.
  - intros [Hl Hr]. by eapply merge_ids_exact.
  - rewrite Hcols, length_app, !length_fmap, length_delete.
    + pose proof (lookup_lt_Some _ _ _ Hpid). lia.
    + by eexists.
  - intros q Hq.
    destruct (merge_rows m c df lk rk q Hmerge Hlk Hrk Hq)
      as (i & j & kl & kr & Hi & Hj & Hkey & Hrow).
    exists i, j, kl, kr. split_and!; [done | done | done | |].
    + intros [Hl Hr].
      by rewrite (exact_left_key lk rk i kl Hl Hi),
        (exact_right_key lk rk j kr Hr Hj) in Hkey.
    + by rewrite Hdel.
  - exact (merge_count m c df lk rk Hmerge Hlk Hrk).
  - intros [Hl Hr] Hndl Hndr.
    rewrite (merge_count m c df lk rk Hmerge Hlk Hrk), Hl, Hr by
      (by rewrite ?Hl, ?Hr). done.
Qed.

Lemma load_data_inner_join_witness :
  example_files "messages.csv" = Ok messages_example ∧
  example_files "categories.csv" = Ok categories_example ∧
  load_data example_files "messages.csv" "categories.csv" = Ok joined_example ∧
  ∃ lk rk ids pid,
    getitem messages_example "id" = Ok lk ∧
    getitem categories_example "id" = Ok rk ∧
    getitem joined_example "id" = Ok ids ∧
    columns categories_example !! pid = Some "id" ∧
    (∀ k, k ∈ ids ↔ k ∈ lk ∧ left_key lk rk k ∈ right_keys lk rk) ∧
    (exact_keys lk rk → ∀ k, k ∈ ids ↔ k ∈ lk ∧ k ∈ rk) ∧
    columns joined_example
    = (suffixed (columns categories_example) "_x" "id" <$> columns messages_example)
      ++ (suffixed (columns messages_example) "_y" "id"
            <$> delete pid (columns categories_example)) ∧
    length (columns joined_example)
    = (length (columns messages_example)
       + length (columns categories_example) - 1)%nat ∧
    (∀ q, (q < nrows joined_example)%nat →
       ∃ i j kl kr, lk !! i = Some kl ∧ rk !! j = Some kr ∧
         left_key lk rk kl = right_key lk rk kr ∧
         (exact_keys lk rk → kl = kr) ∧
         row_at joined_example q
         = row_at messages_example i ++ delete pid (row_at categories_example j)) ∧
    (NoDup (left_keys lk rk) → NoDup (right_keys lk rk) →
       nrows joined_example
       = size (list_to_set (left_keys lk rk) ∩ list_to_set (right_keys lk rk)
               : gset cell)) ∧
    (exact_keys lk rk → NoDup lk → NoDup rk →
       nrows joined_example
       = size (list_to_set lk ∩ list_to_set rk : gset cell)).
Proof.
  split; [reflexivity |]. split; [reflexivity |]. split; [reflexivity |].
  apply (load_data_inner_join example_files "messages.csv" "categories.csv"
           messages_example categories_example joined_example);
    reflexivity.
Defined.

(** * The writer and the command line *)

Lemma to_sql_replace engine_accepts engine_refusal (df : DataFrame) name engine (st : Store) :
  engine_accepts engine df = true →
  to_sql engine_accepts engine_refusal df name engine IfExistsReplace st
  = Ok (<[engine := <[name := table_of df]> (default ∅ (st !! engine))]> st).
Proof.
  intros Hacc. unfold to_sql. rewrite Hacc.
  by destruct (default ∅ (st !! engine) !! name).
Qed.

(** C7.  Two consecutive writes that the engine accepts succeed.  Whatever
    the store held, the first leaves at the location of the database file
    a table [DisasterResponse] that is the first table, and the second
    leaves one that is exactly the second table (its headers and its rows,
    not the union with the rows of the first); the other tables of that
    database and the other locations of the store are as before the two
    writes. *)
Theorem save_data_replaces (engine_accepts : string → DataFrame → bool)
    (engine_refusal : string → DataFrame → exn)
    (df1 df2 : DataFrame) (database_filename : string) (st : Store) :
  let url := "sqlite:///" +:+ database_filename in
  engine_accepts url df1 = true → engine_accepts url df2 = true →
  ∃ st1 st2 db,
    save_data engine_accepts engine_refusal df1 database_filename st = Ok st1 ∧
    st1 !! url ≫= (λ db1, db1 !! "DisasterResponse") = Some (table_of df1) ∧
    save_data engine_accepts engine_refusal df2 database_filename st1 = Ok st2 ∧
    st2 !! url = Some db ∧
    db !! "DisasterResponse" = Some (table_of df2) ∧
    table_rows (table_of df2) = rows df2 ∧
    (∀ name, name ≠ "DisasterResponse" →
       db !! name = default ∅ (st !! url) !! name) ∧
    (∀ url', url' ≠ url → st2 !! url' = st !! url').
Proof.
  intros url H1 H2. unfold save_data, create_engine. fold url.
  set (db0 := default ∅ (st !! url)).
  set (st1 := <[url := <["DisasterResponse" := table_of df1]> db0]> st).
  set (db := <["DisasterResponse" := table_of df2]> (default ∅ (st1 !! url))).
  exists st1, (<[url := db]> st1), db. split_and!.
  - by apply to_sql_replace.
  - unfold st1. rewrite lookup_insert_eq. simpl. apply lookup_insert_eq.
  - by apply to_sql_replace.
  - apply lookup_insert_eq.
  - apply lookup_insert_eq.
  - done.
  - intros name Hname. unfold db, st1.
    rewrite lookup_insert_ne, lookup_insert_eq by done. simpl.
    by rewrite lookup_insert_ne.
  - intros url' Hurl. unfold st1. by rewrite !lookup_insert_ne.
Qed.

Lemma save_data_replaces_witness :
  accept_all ("sqlite:///" +:+ "DisasterResponse.db") packed_example_cleaned
  = true ∧
  accept_all ("sqlite:///" +:+ "DisasterResponse.db") duplicate_example_cleaned
  = true ∧
  ∃ st1 st2 db,
    save_data accept_all refuse_operational packed_example_cleaned "DisasterResponse.db" ∅
    = Ok st1 ∧
    st1 !! ("sqlite:///" +:+ "DisasterResponse.db")
      ≫= (λ db1, db1 !! "DisasterResponse")
    = Some (table_of packed_example_cleaned) ∧
    save_data accept_all refuse_operational duplicate_example_cleaned "DisasterResponse.db" st1
    = Ok st2 ∧
    st2 !! ("sqlite:///" +:+ "DisasterResponse.db") = Some db ∧
    db !! "DisasterResponse" = Some (table_of duplicate_example_cleaned) ∧
    table_rows (table_of duplicate_example_cleaned)
    = rows duplicate_example_cleaned ∧
    (∀ name, name ≠ "DisasterResponse" →
       db !! name
       = default ∅ ((∅ : Store) !! ("sqlite:///" +:+ "DisasterResponse.db"))
           !! name) ∧
    (∀ url', url' ≠ "sqlite:///" +:+ "DisasterResponse.db" →
       st2 !! url' = (∅ : Store) !! url').
Proof.
  split; [reflexivity |]. split; [reflexivity |].
  apply (save_data_replaces accept_all refuse_operational packed_example_cleaned
           duplicate_example_cleaned "DisasterResponse.db" ∅);
    reflexivity.
Defined.

(** C8.  With a number of positional arguments other than three, [main]
    prints the usage message and nothing else and returns normally, so the
    exit status is 0; the store is the one it was given, whatever the
    files hold and whatever the engine would accept. *)
Theorem main_usage (read_csv : string → result DataFrame)
    (engine_accepts : string → DataFrame → bool)
    (engine_refusal : string → DataFrame → exn)
    (argv : list string) (st : Store) :
  length (tail argv) ≠ 3%nat →
  main read_csv engine_accepts engine_refusal argv st = ([usage], Ok st) ∧
  exit_status (main read_csv engine_accepts engine_refusal argv st).2 = 0.
Proof.
  intros Hlen.
  assert (main read_csv engine_accepts engine_refusal argv st = ([usage], Ok st)) as ->; [|done].
  unfold main. by destruct argv as [|? [|? [|? [|? [|? ?]]]]].
Qed.

Lemma main_usage_witness :
  length (tail ["process_data.py"; "messages.csv"]) ≠ 3%nat ∧
  main example_files accept_all refuse_operational ["process_data.py"; "messages.csv"] ∅
  = ([usage], Ok ∅) ∧
  exit_status
    (main example_files accept_all refuse_operational ["process_data.py"; "messages.csv"] ∅).2 = 0.
Proof.
  assert (length (tail ["process_data.py"; "messages.csv"]) ≠ 3%nat) as H
    by (simpl; lia).
  split; [exact H |].
  apply (main_usage example_files accept_all refuse_operational
           ["process_data.py"; "messages.csv"] ∅ H).
Defined.

(** * Cleaning a cleaned table *)

Lemma fst_relabel_cells {L} (f : Series → Series) (dat : list (L * Series)) :
  (map (λ c : L * Series, (c.1, f c.2)) dat).*1 = dat.*1.
Proof. induction dat as [|c dat IH]; [done |]. simpl. by f_equal. Qed.

Lemma getitem_map_cells {L} `{EqDecision L} idx idx' (dat : list (L * Series))
    (f : Series → Series) key s :
  getitem (MkFrame idx dat) key = Ok s →
  getitem (MkFrame idx' (map (λ c, (c.1, f c.2)) dat)) key = Ok (f s).
Proof.
  intros (pre & post & Hd & Hpre & Hpost)%getitem_ok. simpl in Hd. subst dat.
  apply getitem_ok. exists (map (λ c, (c.1, f c.2)) pre), (map (λ c, (c.1, f c.2)) post).
  rewrite map_app, map_cons. simpl. split_and!; [done | |].
  - by rewrite (fst_relabel_cells f pre).
  - by rewrite (fst_relabel_cells f post).
Qed.

Lemma select_unmarked_first {A} (rs : list (list cell)) (l : list A) :
  rs ≠ [] → l ≠ [] → select_unmarked (marks [] rs) l ≠ [].
Proof.
  intros Hrs Hl. destruct rs as [|r rs]; [done |]. destruct l as [|x l]; [done |].
  rewrite marks_cons. rewrite bool_decide_eq_false_2 by apply not_elem_of_nil.
  done.
Qed.

Lemma existsb_is_str_false (s : Series) :
  Forall (λ c, is_str c = false) s → existsb is_str s = false.
Proof. induction 1 as [|c s Hc _ IH]; [done |]. simpl. by rewrite Hc, IH. Qed.

(** A cleaned table is never accepted again: either it has no
    [categories] column, or the column of that name holds the integers of
    a category, on which the string accessor fails. *)
Lemma clean_data_cleaned (df out : DataFrame) :
  wf df → clean_data df = Ok out → raises (clean_data out).
Proof.
  intros Hwf (mid & Hmid & ->)%clean_data_ok.
  destruct (expand_categories_inv df mid Hwf Hmid)
    as (pre & cats & post & p0 & s0 & cols' & Hd & Hpre & Hpost & Hpos & Hp0
        & Hnd & Hlc & Hwc & Hrows & ->).
  set (names := category_name <$> split ";" s0) in *.
  set (mid := MkFrame (index df) ((pre ++ post) ++ zip names cols')).
  assert (length names = length cols') as Hln
    by (unfold names; rewrite length_fmap; lia).
  destruct (decide ("categories" ∈ names)) as [Hin|Hnin]; cycle 1.
  { exists KeyError. unfold clean_data. rewrite getitem_missing; [done |].
    rewrite drop_duplicates_columns. unfold columns, mid. simpl.
    rewrite !fmap_app, fst_zip by lia. set_solver. }
  exists AttributeError.
  apply list_elem_of_split in Hin as (n1 & n2 & Hn).
  rewrite Hn in Hnd. apply NoDup_app in Hnd as (_ & Hn1 & [Hn2 _]%NoDup_cons).
  assert (∃ c1 col c2, cols' = c1 ++ col :: c2 ∧ length c1 = length n1)
    as (c1 & col & c2 & Hc & Hl1).
  { rewrite Hn, length_app in Hln. simpl in Hln.
    destruct (lookup_lt_is_Some_2 cols' (length n1) ltac:(lia)) as [col Hcol].
    exists (take (length n1) cols'), col, (drop (S (length n1)) cols').
    split; [by rewrite take_drop_middle |]. rewrite length_take. lia. }
  assert (getitem mid "categories" = Ok col) as Hget.
  { apply getitem_ok. unfold mid. simpl.
    exists ((pre ++ post) ++ zip n1 c1), (zip n2 c2).
    rewrite Hn, Hc, zip_with_app, (app_assoc (pre ++ post)) by done.
    split_and!; [done | |].
    - rewrite !fmap_app. intros [[?|?]%elem_of_app|Hz]%elem_of_app; [done.. |].
      apply list_elem_of_fmap in Hz as ([n c] & Heq & Hz%elem_of_zip_l).
      simpl in Heq. subst n. apply (Hn1 _ Hz). left.
    - intros ([n c] & Heq & Hz%elem_of_zip_l)%list_elem_of_fmap.
      simpl in Heq. by subst n. }
  assert (length cats = nrows df) as Hlen.
  { unfold wf in Hwf. rewrite Hd in Hwf.
    apply Forall_app in Hwf as [_ Hwf]. by apply Forall_cons in Hwf as [Hwf _]. }
  assert (length col = nrows df) as Hlcol.
  { rewrite Forall_forall in Hwc. rewrite (Hwc col), Hlen; [done |].
    rewrite Hc. set_solver. }
  assert (Forall (λ c, is_str c = false) col) as Hint.
  { apply Forall_lookup. intros i c Hi.
    pose proof (lookup_lt_Some _ _ _ Hi) as Hlt.
    destruct (lookup_lt_is_Some_2 cats i ltac:(lia)) as [cc Hcc].
    destruct (Hrows i cc Hcc) as (s & vs & _ & _ & _ & Heq).
    apply (f_equal (λ l, l !! length c1)) in Heq.
    rewrite !list_lookup_fmap, Hc, list_lookup_middle in Heq by done.
    simpl in Heq. rewrite (nth_lookup_Some _ _ _ _ Hi) in Heq.
    destruct (vs !! length c1); simpl in Heq; [|done]. by injection Heq as ->. }
  assert (index df ≠ []) as Hidx.
  { assert (p0 ∈ positions 0 (index df)) as Hp by (rewrite Hpos; left).
    apply positions_lookup in Hp. by destruct (index df). }
  unfold clean_data, drop_duplicates.
  rewrite bool_decide_eq_false_2; cycle 1.
  { intros [?|Hdat]; [done |]. unfold mid in Hdat. simpl in Hdat.
    apply app_eq_nil in Hdat as [_ Hdat]. rewrite Hn, Hc in Hdat.
    by destruct n1, c1. }
  rewrite (getitem_map_cells _ _ _ (select_unmarked (duplicated mid)) _ _ Hget).
  simpl. unfold str_split_expand, str_accessor.
  rewrite bool_decide_eq_false_2, existsb_is_str_false; [done | |].
  - apply Forall_forall. intros c Hc'. rewrite Forall_forall in Hint.
    apply Hint. eapply elem_of_sublist; [exact Hc' |].
    apply select_unmarked_sublist.
  - unfold duplicated. apply select_unmarked_first.
    + intros Hr%(f_equal length). rewrite length_rows in Hr.
      unfold nrows, mid in Hr. simpl in Hr. by destruct (index df).
    + intros ->. simpl in Hlcol. unfold nrows in Hlcol. by destruct (index df).
Qed.

(** C9.  A table without a [categories] column is rejected: the lookup of
    line 28 raises [KeyError], which [clean_data] propagates; so a table is
    returned only for inputs with that column, and never for a table that
    [clean_data] itself returned. *)
Theorem clean_data_requires_categories :
  (∀ df : DataFrame,
     "categories" ∉ columns df → clean_data df = Raise KeyError)
  ∧ (∀ df : DataFrame, is_ok (clean_data df) → "categories" ∈ columns df)
  ∧ (∀ df out : DataFrame,
       wf df → clean_data df = Ok out → raises (clean_data out)).
Proof.
  assert (∀ df : DataFrame,
    "categories" ∉ columns df → clean_data df = Raise KeyError) as Hmissing.
  { intros df Hc. unfold clean_data. by rewrite getitem_missing. }
  split_and!.
  - exact Hmissing.
  - intros df [out Hout].
    destruct (decide ("categories" ∈ columns df)) as [|Hc]; [done |].
    rewrite (Hmissing df Hc) in Hout. done.
  - exact clean_data_cleaned.
Qed.

Lemma clean_data_requires_categories_witness :
  ("categories" ∉ columns packed_example_cleaned) ∧
  clean_data packed_example_cleaned = Raise KeyError.
Proof.
  assert ("categories" ∉ columns packed_example_cleaned) as H.
  { apply (bool_decide_unpack _). reflexivity. }
  split; [exact H |].
  apply (proj1 clean_data_requires_categories packed_example_cleaned H).
Defined.

(** * The whole run *)

(** The scenario of the specification: one message joined with its
    categories is cleaned and stored as the only row of the table. *)
Example pipeline_end_to_end :
  ∃ st,
    main flood_files accept_all refuse_operational
      ["process_data.py"; "messages.csv"; "categories.csv"; "DisasterResponse.db"]
      ∅
    = (["Loading data..." +:+ nl4 +:+ "MESSAGES: messages.csv"
          +:+ nl4 +:+ "CATEGORIES: categories.csv";
        "Cleaning data...";
        "Saving data..." +:+ nl4 +:+ "DATABASE: DisasterResponse.db";
        "Cleaned data saved to database!"], Ok st) ∧
    st !! "sqlite:///DisasterResponse.db" ≫= (λ db, db !! "DisasterResponse")
    = Some (MkTable ["id"; "message"; "related"; "request"]
              [[Int 1; Str "flood"; Int 1; Int 0]]).
Proof. eexists. split; reflexivity. Qed.

(** By contrast, [if_exists="append"] would keep the rows of both writes. *)
Example to_sql_append_accumulates :
  ∃ st1 st2,
    to_sql accept_all refuse_operational packed_example_cleaned "DisasterResponse" "sqlite:///a.db"
      IfExistsReplace ∅ = Ok st1 ∧
    to_sql accept_all refuse_operational packed_example_cleaned "DisasterResponse" "sqlite:///a.db"
      IfExistsAppend st1 = Ok st2 ∧
    st2 !! "sqlite:///a.db" ≫= (λ db, db !! "DisasterResponse")
    = Some (MkTable (columns packed_example_cleaned)
              (rows packed_example_cleaned ++ rows packed_example_cleaned)).
Proof. eexists _, _. split_and!; reflexivity. Qed.

(** * Further properties of [load_data] *)

Lemma key_column_missing (df : DataFrame) key :
  key ∉ columns df → key_column df key = Raise KeyError.
Proof.
  intros Hk. unfold key_column.
  destruct (filter _ _) as [|c l] eqn:Hf; [done |].
  assert (c ∈ filter (λ c : string * Series, c.1 = key) (data df)) as Hc
    by (rewrite Hf; left).
  apply list_elem_of_filter in Hc as [<- Hc].
  destruct Hk. apply list_elem_of_fmap. eauto.
Qed.

(** X1.  [load_data] reads the messages first and lets the exception of
    the first file that cannot be read escape; when both files are read, a
    table without an [id] column makes the join raise [KeyError], and a key
    column of strings against a numeric one makes it raise [ValueError]. *)
Theorem load_data_errors (read_csv : string → result DataFrame)
    (mp cp : string) :
  (∀ e, read_csv mp = Raise e → load_data read_csv mp cp = Raise e)
  ∧ (∀ m e, read_csv mp = Ok m → read_csv cp = Raise e →
       load_data read_csv mp cp = Raise e)
  ∧ (∀ m c, read_csv mp = Ok m → read_csv cp = Ok c →
       "id" ∉ columns m → load_data read_csv mp cp = Raise KeyError)
  ∧ (∀ m c lk, read_csv mp = Ok m → read_csv cp = Ok c →
       getitem m "id" = Ok lk → "id" ∉ columns c →
       load_data read_csv mp cp = Raise KeyError)
  ∧ (∀ m c lk rk, read_csv mp = Ok m → read_csv cp = Ok c →
       getitem m "id" = Ok lk → getitem c "id" = Ok rk →
       merge_keys_ok lk rk = false →
       load_data read_csv mp cp = Raise ValueError).
Proof.
  unfold load_data. split_and!.
  - by intros e ->.
  - by intros m e -> ->.
  - intros m c -> -> Hid. cbn [mbind result_bind]. unfold merge.
    by rewrite (key_column_missing m "id" Hid).
  - intros m c lk -> -> Hlk%key_column_getitem Hid.
    cbn [mbind result_bind]. unfold merge.
    by rewrite Hlk, (key_column_missing c "id" Hid).
  - intros m c lk rk -> -> Hlk%key_column_getitem Hrk%key_column_getitem Hok.
    cbn [mbind result_bind]. unfold merge. rewrite Hlk, Hrk.
    cbn [mbind result_bind]. by rewrite Hok.
Qed.

Lemma load_data_errors_witness :
  keyless_files "messages.csv" = Ok keyless_messages ∧
  keyless_files "categories.csv" = Ok categories_example ∧
  ("id" ∉ columns keyless_messages) ∧
  load_data keyless_files "messages.csv" "categories.csv" = Raise KeyError.
Proof.
  assert ("id" ∉ columns keyless_messages) as H
    by (apply (bool_decide_unpack _); reflexivity).
  split; [reflexivity |]. split; [reflexivity |]. split; [exact H |].
  apply (proj1 (proj2 (proj2
           (load_data_errors keyless_files "messages.csv" "categories.csv")))
           keyless_messages categories_example);
    [reflexivity | reflexivity | exact H].
Defined.

Lemma positions_range n : positions 0 (Z.of_nat <$> seq 0 (S n)) = [0%nat].
Proof.
  rewrite <- cons_seq, fmap_cons, positions_cons. simpl.
  rewrite positions_not_elem_of; [done |].
  intros (i & Hi & [? ?]%elem_of_seq)%list_elem_of_fmap. lia.
Qed.

(** X2.  The table [load_data] returns is a well-formed frame over the
    default index 0, 1, ...: when it has a row, the row labelled 0, from
    which [clean_data] reads the category names, is its first row and no
    other; and it has exactly one column named [id]. *)
Theorem load_data_table (read_csv : string → result DataFrame)
    (mp cp : string) (df : DataFrame) :
  load_data read_csv mp cp = Ok df →
  wf df ∧
  index df = Z.of_nat <$> seq 0 (nrows df) ∧
  (nrows df ≠ 0%nat → positions 0 (index df) = [0%nat]) ∧
  occurrences "id" (columns df) = 1%nat.
Proof.
  intros Hload. pose proof Hload as (m & c & _ & _ & Hmerge)%load_data_ok.
  destruct (merge_wf _ _ _ _ Hmerge) as [Hwf Hidx].
  split_and!; [done | done | |].
  - intros Hn. rewrite Hidx. destruct (nrows df) as [|n]; [done |].
    apply positions_range.
  - destruct (merge_inv _ _ _ _ Hmerge) as (lk & rk & Hlk & Hrk & _ & _).
    destruct (merge_ids m c df lk rk Hmerge Hlk Hrk) as (ids & Hids & _).
    apply getitem_ok in Hids as (pre & post & Hd & Hpre & Hpost).
    unfold occurrences, columns. rewrite Hd, fmap_app, fmap_cons, filter_app.
    simpl. rewrite filter_cons_True by done.
    rewrite !filter_none; [done | |].
    + apply Forall_forall. by intros l Hl ->.
    + apply Forall_forall. by intros l Hl ->.
Qed.

Lemma load_data_table_witness :
  load_data example_files "messages.csv" "categories.csv" = Ok joined_example ∧
  wf joined_example ∧
  index joined_example = Z.of_nat <$> seq 0 (nrows joined_example) ∧
  (nrows joined_example ≠ 0%nat →
   positions 0 (index joined_example) = [0%nat]) ∧
  occurrences "id" (columns joined_example) = 1%nat.
Proof.
  split; [reflexivity |].
  apply (load_data_table example_files "messages.csv" "categories.csv"
           joined_example).
  reflexivity.
Defined.

(** ** The identifiers of the joined table *)

Lemma fmap_const_replicate {A B} (x : B) (l : list A) :
  (λ _, x) <$> l = replicate (length l) x.
Proof. induction l as [|a l IH]; [done |]. simpl. by f_equal. Qed.

Lemma join_ids_from (f : cell → cell) (pre lk rk : Series) :
  (λ p, nth p (pre ++ lk) NaN)
    <$> (mjoin (imap (λ i k, (λ j, ((length pre + i)%nat, j))
                               <$> positions (f k) rk) lk)).*1
  = mjoin ((λ k, replicate (length (positions (f k) rk)) k) <$> lk).
Proof.
  revert pre. induction lk as [|k lk IH]; intros pre; [done |].
  rewrite imap_cons, fmap_cons. simpl. rewrite !fmap_app. f_equal.
  - rewrite <- !list_fmap_compose.
    rewrite <- fmap_const_replicate. apply list_fmap_ext. intros i j _. simpl.
    rewrite Nat.add_0_r. apply nth_middle.
  - rewrite <- (IH (pre ++ [k])), <- app_assoc. simpl. f_equal. f_equal. f_equal.
    apply imap_ext. intros i x _. simpl. rewrite length_app. simpl.
    by replace (length pre + S i)%nat with (length pre + 1 + i)%nat by lia.
Qed.

Lemma join_ids (f : cell → cell) (lk rk : Series) :
  (λ p, nth p lk NaN) <$> (join_positions (f <$> lk) rk).*1
  = mjoin ((λ k, replicate (length (positions (f k) rk)) k) <$> lk).
Proof.
  rewrite <- (join_ids_from f [] lk rk). unfold join_positions.
  by rewrite imap_fmap.
Qed.

(** The [id] column of the joined table: every identifier of the
    messages, as many times as its key occurs among the keys of the
    categories. *)
Lemma merge_id_column (m c df : DataFrame) lk rk :
  merge "id" m c = Ok df → getitem m "id" = Ok lk → getitem c "id" = Ok rk →
  getitem df "id"
  = Ok (mjoin ((λ k, replicate
                       (length (positions (left_key lk rk k) (right_keys lk rk)))
                       k) <$> lk)).
Proof.
  intros Hmerge Hlk Hrk. rewrite <- join_ids.
  destruct (merge_inv _ _ _ _ Hmerge) as (lk' & rk' & Hlk' & Hrk' & _ & ->).
  assert (lk' = lk) as -> by congruence. assert (rk' = rk) as -> by congruence.
  clear Hlk' Hrk' Hmerge.
  change (left_key lk rk <$> lk) with (left_keys lk rk).
  set (ps := join_positions (left_keys lk rk) (right_keys lk rk)).
  apply getitem_ok in Hlk as (lpre & lpost & Hld & Hlpre & Hlpost).
  apply getitem_ok. cbv zeta. fold ps.
  destruct m as [lidx ldat]. simpl in Hld. subst ldat.
  rewrite take_rows_data, !map_app, !map_cons. cbn [fst snd].
  rewrite suffixed_key, <- app_assoc, <- app_comm_cons.
  eexists _, _. split; [reflexivity |]. split.
  - rewrite fst_relabel, fst_take_rows_data.
    intros (l & Heq & Hl)%list_elem_of_fmap. symmetry in Heq.
    apply suffixed_other_x in Heq; [done |]. by intros ->.
  - rewrite fmap_app, !fst_relabel, fst_take_rows_data.
    intros [(l & Heq & Hl)%list_elem_of_fmap
           |(l & Heq & Hl)%list_elem_of_fmap]%elem_of_app; symmetry in Heq.
    + apply suffixed_other_x in Heq; [done |]. by intros ->.
    + apply suffixed_other_y in Heq; [done |]. intros ->.
      apply list_elem_of_fmap in Hl as ([l s] & -> & [Hne _]%list_elem_of_filter).
      done.
Qed.

Lemma length_merge_ids (m c df : DataFrame) lk rk ids :
  merge "id" m c = Ok df → getitem m "id" = Ok lk → getitem c "id" = Ok rk →
  getitem df "id" = Ok ids → length ids = nrows df.
Proof.
  intros Hmerge Hlk Hrk Hids.
  rewrite (merge_id_column m c df lk rk Hmerge Hlk Hrk) in Hids.
  injection Hids as <-. rewrite <- join_ids, !length_fmap.
  destruct (merge_inv _ _ _ _ Hmerge) as (lk' & rk' & Hlk' & Hrk' & _ & ->).
  assert (lk' = lk) as -> by congruence. assert (rk' = rk) as -> by congruence.
  unfold nrows. cbn [index]. by rewrite length_fmap, length_seq.
Qed.

Lemma occurrences_cons {A} `{EqDecision A} (x y : A) l :
  occurrences x (y :: l)
  = ((if decide (y = x) then 1 else 0) + occurrences x l)%nat.
Proof. unfold occurrences. rewrite filter_cons. by destruct (decide (y = x)). Qed.

Lemma occurrences_app {A} `{EqDecision A} (x : A) l k :
  occurrences x (l ++ k) = (occurrences x l + occurrences x k)%nat.
Proof. unfold occurrences. by rewrite filter_app, length_app. Qed.

Lemma occurrences_replicate {A} `{EqDecision A} (x y : A) n :
  occurrences x (replicate n y) = if decide (y = x) then n else 0%nat.
Proof.
  induction n as [|n IH]; simpl; [by destruct (decide (y = x)) |].
  rewrite occurrences_cons, IH. by destruct (decide (y = x)).
Qed.

Lemma length_positions {A} `{EqDecision A} (x : A) l :
  length (positions x l) = occurrences x l.
Proof.
  induction l as [|y l IH]; [done |].
  rewrite positions_cons, length_app, length_fmap, occurrences_cons, IH.
  by destruct (decide (y = x)).
Qed.

(** X3.  [load_data] does not deduplicate identifiers: an identifier
    that occurs [a] times among the messages, and whose key occurs [b]
    times among the keys of the categories, occurs [a * b] times in the
    joined table; when the join compares the identifiers as they stand,
    [b] is the number of times the identifier occurs among the
    categories. *)
Theorem load_data_multiplies_repeated_ids
    (read_csv : string → result DataFrame) (mp cp : string)
    (m c df : DataFrame) (lk rk : Series) :
  read_csv mp = Ok m → read_csv cp = Ok c →
  getitem m "id" = Ok lk → getitem c "id" = Ok rk →
  load_data read_csv mp cp = Ok df →
  ∃ ids, getitem df "id" = Ok ids ∧ length ids = nrows df ∧
    (∀ k, occurrences k ids
          = (occurrences k lk
             * occurrences (left_key lk rk k) (right_keys lk rk))%nat) ∧
    (exact_keys lk rk →
     ∀ k, occurrences k ids = (occurrences k lk * occurrences k rk)%nat).
Proof.
  intros Hm Hc Hlk Hrk (m' & c' & Hm' & Hc' & Hmerge)%load_data_ok.
  assert (m' = m) as -> by congruence. assert (c' = c) as -> by congruence.
  pose proof (merge_id_column m c df lk rk Hmerge Hlk Hrk) as Hids.
  assert (∀ k,
    occurrences k
      (mjoin ((λ k, replicate
                (length (positions (left_key lk rk k) (right_keys lk rk))) k)
              <$> lk))
    = (occurrences k lk
       * occurrences (left_key lk rk k) (right_keys lk rk))%nat) as Hocc.
  { intros k. generalize (right_keys lk rk) (left_key lk rk). intros rk' f.
    clear. induction lk as [|k' lk IH]; [done |].
    rewrite fmap_cons. simpl. rewrite occurrences_app, IH, occurrences_cons.
    rewrite occurrences_replicate, length_positions.
    destruct (decide (k' = k)) as [->|]; lia. }
  eexists. split; [exact Hids |]. split_and!.
  - by eapply length_merge_ids.
  - exact Hocc.
  - intros [Hl Hr] k. rewrite Hocc, Hr.
    destruct (decide (k ∈ lk)) as [[i Hi]%list_elem_of_lookup|Hk].
    + by rewrite (exact_left_key lk rk i k Hl Hi).
    + assert (occurrences k lk = 0%nat) as ->; [|done].
      unfold occurrences. rewrite filter_none; [done |].
      apply Forall_forall. by intros y Hy ->.
Qed.

Lemma load_data_multiplies_repeated_ids_witness :
  repeated_files "messages.csv" = Ok repeated_messages ∧
  repeated_files "categories.csv" = Ok repeated_categories ∧
  getitem repeated_messages "id" = Ok [Int 1; Int 1] ∧
  getitem repeated_categories "id" = Ok [Int 1; Int 1; Int 2] ∧
  load_data repeated_files "messages.csv" "categories.csv"
  = Ok repeated_joined ∧
  ∃ ids, getitem repeated_joined "id" = Ok ids ∧
    length ids = nrows repeated_joined ∧
    (∀ k, occurrences k ids
          = (occurrences k [Int 1; Int 1]
             * occurrences (left_key [Int 1; Int 1] [Int 1; Int 1; Int 2] k)
                 (right_keys [Int 1; Int 1] [Int 1; Int 1; Int 2]))%nat) ∧
    (exact_keys [Int 1; Int 1] [Int 1; Int 1; Int 2] →
     ∀ k, occurrences k ids
          = (occurrences k [Int 1; Int 1]
             * occurrences k [Int 1; Int 1; Int 2])%nat).
Proof.
  do 5 (split; [reflexivity |]).
  apply (load_data_multiplies_repeated_ids repeated_files
           "messages.csv" "categories.csv"
           repeated_messages repeated_categories repeated_joined
           [Int 1; Int 1] [Int 1; Int 1; Int 2]);
    reflexivity.
Defined.

Lemma join_unique_keys (f : cell → cell) (lk rk : Series) :
  NoDup rk →
  mjoin ((λ k, replicate (length (positions (f k) rk)) k) <$> lk)
  = filter (λ k, f k ∈ rk) lk.
Proof.
  intros Hnd. induction lk as [|k lk IH]; [done |].
  rewrite fmap_cons, filter_cons. simpl. rewrite IH, length_positions_NoDup by done.
  by destruct (decide (f k ∈ rk)).
Qed.

Lemma filter_exact_keys (lk rk : Series) :
  left_keys lk rk = lk →
  filter (λ k, left_key lk rk k ∈ rk) lk = filter (λ k, k ∈ rk) lk.
Proof.
  intros Hl.
  assert (∀ k, k ∈ lk → left_key lk rk k = k) as Hid.
  { intros k [i Hi]%list_elem_of_lookup. by eapply exact_left_key. }
  clear Hl. revert Hid. generalize (left_key lk rk). intros f.
  induction lk as [|k lk IH]; intros Hid; [done |].
  rewrite !filter_cons, (Hid k) by left.
  rewrite IH by (intros k' Hk'; apply Hid; by right). done.
Qed.

(** X4.  When no key repeats in either file, the joined table lists the
    identifiers of the messages whose key is a key of the categories, in
    the order of the messages and each once; so it has at most as many
    rows as there are messages.  When the join compares the identifiers
    as they stand, these are the identifiers of the messages that also
    occur among the categories. *)
Theorem load_data_unique_ids (read_csv : string → result DataFrame)
    (mp cp : string) (m c df : DataFrame) (lk rk : Series) :
  read_csv mp = Ok m → read_csv cp = Ok c →
  getitem m "id" = Ok lk → getitem c "id" = Ok rk →
  NoDup lk → NoDup (right_keys lk rk) →
  load_data read_csv mp cp = Ok df →
  getitem df "id"
  = Ok (filter (λ k, left_key lk rk k ∈ right_keys lk rk) lk) ∧
  NoDup (filter (λ k, left_key lk rk k ∈ right_keys lk rk) lk) ∧
  filter (λ k, left_key lk rk k ∈ right_keys lk rk) lk `sublist_of` lk ∧
  (nrows df ≤ length lk)%nat ∧
  (exact_keys lk rk → getitem df "id" = Ok (filter (λ k, k ∈ rk) lk)).
Proof.
  intros Hm Hc Hlk Hrk Hndl Hndr (m' & c' & Hm' & Hc' & Hmerge)%load_data_ok.
  assert (m' = m) as -> by congruence. assert (c' = c) as -> by congruence.
  assert (getitem df "id"
          = Ok (filter (λ k, left_key lk rk k ∈ right_keys lk rk) lk)) as Hids.
  { rewrite <- join_unique_keys by done. by eapply merge_id_column. }
  split_and!.
  - done.
  - by apply NoDup_filter.
  - apply sublist_filter.
  - rewrite <- (length_merge_ids m c df lk rk _ Hmerge Hlk Hrk Hids).
    apply length_filter.
  - intros [Hl Hr]. rewrite Hids, Hr. by rewrite filter_exact_keys.
Qed.

Lemma load_data_unique_ids_witness :
  example_files "messages.csv" = Ok messages_example ∧
  example_files "categories.csv" = Ok categories_example ∧
  getitem messages_example "id" = Ok [Int 1; Int 2; Int 3] ∧
  getitem categories_example "id" = Ok [Int 3; Int 1; Int 4] ∧
  NoDup [Int 1; Int 2; Int 3] ∧
  NoDup (right_keys [Int 1; Int 2; Int 3] [Int 3; Int 1; Int 4]) ∧
  load_data example_files "messages.csv" "categories.csv" = Ok joined_example ∧
  getitem joined_example "id"
  = Ok (filter (λ k, left_key [Int 1; Int 2; Int 3] [Int 3; Int 1; Int 4] k
                     ∈ right_keys [Int 1; Int 2; Int 3] [Int 3; Int 1; Int 4])
          [Int 1; Int 2; Int 3]) ∧
  NoDup (filter (λ k, left_key [Int 1; Int 2; Int 3] [Int 3; Int 1; Int 4] k
                      ∈ right_keys [Int 1; Int 2; Int 3] [Int 3; Int 1; Int 4])
           [Int 1; Int 2; Int 3]) ∧
  filter (λ k, left_key [Int 1; Int 2; Int 3] [Int 3; Int 1; Int 4] k
               ∈ right_keys [Int 1; Int 2; Int 3] [Int 3; Int 1; Int 4])
    [Int 1; Int 2; Int 3]
    `sublist_of` [Int 1; Int 2; Int 3] ∧
  (nrows joined_example ≤ length [Int 1; Int 2; Int 3])%nat ∧
  (exact_keys [Int 1; Int 2; Int 3] [Int 3; Int 1; Int 4] →
   getitem joined_example "id"
   = Ok (filter (λ k, k ∈ [Int 3; Int 1; Int 4]) [Int 1; Int 2; Int 3])).
Proof.
  assert (NoDup [Int 1; Int 2; Int 3]) as H1
    by (apply (bool_decide_unpack _); reflexivity).
  assert (NoDup (right_keys [Int 1; Int 2; Int 3] [Int 3; Int 1; Int 4])) as H2
    by (apply (bool_decide_unpack _); reflexivity).
  do 7 (split; [first [reflexivity | exact H1 | exact H2] |]).
  apply (load_data_unique_ids example_files "messages.csv" "categories.csv"
           messages_example categories_example joined_example
           [Int 1; Int 2; Int 3] [Int 3; Int 1; Int 4]);
    first [reflexivity | exact H1 | exact H2].
Defined.

(** ** A [categories] column on both sides *)

Lemma elem_of_delete_other {A} (l : list A) i x y :
  l !! i = Some y → x ≠ y → x ∈ l → x ∈ delete i l.
Proof.
  intros Hi Hne [j Hj]%list_elem_of_lookup.
  destruct (decide (j < i)%nat) as [Hlt|Hge].
  - apply list_elem_of_lookup. exists j. by rewrite list_lookup_delete_lt.
  - assert (j ≠ i) by congruence. destruct j as [|j]; [lia |].
    apply list_elem_of_lookup. exists j.
    by rewrite list_lookup_delete_ge by lia.
Qed.

Lemma suffixed_not_categories others suffix0 l :
  "categories" ∈ others →
  suffixed others (String "_" (String suffix0 EmptyString)) "id" l = "categories" →
  suffix0 = "s"%char.
Proof.
  intros Hin. unfold suffixed. case_bool_decide as Hc.
  - intros Heq%(f_equal last_char). rewrite last_char_app in Heq.
    simpl in Heq. congruence.
  - intros ->. destruct Hc. by split.
Qed.

(** X5.  When the messages file has a column named [categories] of its
    own, the join renames both columns of that name ([categories_x],
    [categories_y]); the joined table then has no [categories] column and
    [clean_data] rejects it with [KeyError]. *)
Theorem load_data_shadowed_categories (read_csv : string → result DataFrame)
    (mp cp : string) (m c df : DataFrame) :
  read_csv mp = Ok m → read_csv cp = Ok c →
  "categories" ∈ columns m → "categories" ∈ columns c →
  load_data read_csv mp cp = Ok df →
  ("categories_x" ∈ columns df) ∧ ("categories_y" ∈ columns df) ∧
  ("categories" ∉ columns df) ∧
  clean_data df = Raise KeyError.
Proof.
  intros Hm Hc Hcm Hcc (m' & c' & Hm' & Hc' & Hmerge)%load_data_ok.
  assert (m' = m) as -> by congruence. assert (c' = c) as -> by congruence.
  destruct (merge_inv _ _ _ _ Hmerge) as (lk & rk & _ & Hrk & _ & _).
  destruct (merge_columns m c df rk Hmerge Hrk) as (pid & Hpid & _ & _ & Hcols).
  assert ("categories" ∉ columns df) as Hnot.
  { rewrite Hcols. intros [(l & Heq & _)%list_elem_of_fmap
                          |(l & Heq & _)%list_elem_of_fmap]%elem_of_app;
      symmetry in Heq.
    - by apply suffixed_not_categories in Heq.
    - by apply suffixed_not_categories in Heq. }
  split_and!; [| | done |].
  - rewrite Hcols. apply elem_of_app. left. apply list_elem_of_fmap.
    exists "categories". split; [|done]. unfold suffixed.
    by rewrite bool_decide_eq_true_2.
  - rewrite Hcols. apply elem_of_app. right. apply list_elem_of_fmap.
    exists "categories". split.
    + unfold suffixed. by rewrite bool_decide_eq_true_2.
    + by eapply elem_of_delete_other.
  - unfold clean_data. by rewrite getitem_missing.
Qed.

Lemma load_data_shadowed_categories_witness :
  shadow_files "messages.csv" = Ok shadow_messages ∧
  shadow_files "categories.csv" = Ok categories_example ∧
  ("categories" ∈ columns shadow_messages) ∧
  ("categories" ∈ columns categories_example) ∧
  ∃ df, load_data shadow_files "messages.csv" "categories.csv" = Ok df ∧
    ("categories_x" ∈ columns df) ∧ ("categories_y" ∈ columns df) ∧
    ("categories" ∉ columns df) ∧
    clean_data df = Raise KeyError.
Proof.
  assert ("categories" ∈ columns shadow_messages) as H1
    by (apply (bool_decide_unpack _); reflexivity).
  assert ("categories" ∈ columns categories_example) as H2
    by (apply (bool_decide_unpack _); reflexivity).
  do 4 (split; [first [reflexivity | exact H1 | exact H2] |]).
  eexists. split; [reflexivity |].
  apply (load_data_shadowed_categories shadow_files
           "messages.csv" "categories.csv" shadow_messages categories_example);
    first [reflexivity | exact H1 | exact H2].
Defined.

(** * Further properties of [clean_data] *)

Lemma head_select_unmarked {A} (rs : list (list cell)) (l : list A) :
  rs ≠ [] → head (select_unmarked (marks [] rs) l) = head l.
Proof.
  intros Hrs. destruct rs as [|r rs]; [done |]. rewrite marks_cons.
  rewrite bool_decide_eq_false_2 by apply not_elem_of_nil.
  by destruct l.
Qed.

(** X6.  The cleaned table is a well-formed frame with at least one row and
    at most as many rows as the input; its first row carries the index
    label of the first input row; and it has one column less than the
    input plus one column per token of the row labelled 0. *)
Theorem clean_data_shape (df out : DataFrame) :
  wf df → clean_data df = Ok out →
  wf out ∧
  (1 ≤ nrows out ≤ nrows df)%nat ∧
  head (index out) = head (index df) ∧
  ∃ p p0 s0,
    columns df !! p = Some "categories" ∧
    positions 0 (index df) = [p0] ∧
    nth p (row_at df p0) NaN = Str s0 ∧
    length (columns out)
    = (length (columns df) - 1 + length (split ";" s0))%nat.
Proof.
  intros Hwf Hout.
  destruct (clean_data_rows df out Hwf Hout)
    as (mid & p' & Hmid & _ & _ & Hidx & Hwm & _ & Hsi & _).
  destruct (expand_rows df mid Hwf Hmid)
    as (p & p0 & s0 & Hp & _ & Hpos & Hs0 & _ & _ & Hcols & _).
  assert (index df ≠ []) as Hne.
  { assert (p0 ∈ positions 0 (index df)) as Hin by (rewrite Hpos; left).
    apply positions_lookup in Hin. by destruct (index df). }
  assert (rows mid ≠ []) as Hrows.
  { intros Hr%(f_equal length). rewrite length_rows in Hr.
    unfold nrows in Hr. rewrite Hidx in Hr. by destruct (index df). }
  split_and!.
  - exact (clean_data_wf df out Hwf Hout).
  - unfold nrows. rewrite Hsi, Hidx.
    pose proof (select_unmarked_first (rows mid) (index df) Hrows Hne) as Hsel.
    destruct (select_unmarked (marks [] (rows mid)) (index df));
      simpl; [done | lia].
  - unfold nrows. rewrite Hsi, Hidx. apply sublist_length,
      select_unmarked_sublist.
  - rewrite Hsi, Hidx. by apply head_select_unmarked.
  - exists p, p0, s0. split_and!; try done.
    apply clean_data_ok in Hout as (mid' & Hmid' & ->).
    assert (mid' = mid) as -> by congruence.
    rewrite drop_duplicates_columns, Hcols, length_app, length_fmap.
    rewrite length_delete by (by eexists). done.
Qed.

Lemma clean_data_shape_witness :
  wf duplicate_example ∧
  clean_data duplicate_example = Ok duplicate_example_cleaned ∧
  wf duplicate_example_cleaned ∧
  (1 ≤ nrows duplicate_example_cleaned ≤ nrows duplicate_example)%nat ∧
  head (index duplicate_example_cleaned) = head (index duplicate_example) ∧
  ∃ p p0 s0,
    columns duplicate_example !! p = Some "categories" ∧
    positions 0 (index duplicate_example) = [p0] ∧
    nth p (row_at duplicate_example p0) NaN = Str s0 ∧
    length (columns duplicate_example_cleaned)
    = (length (columns duplicate_example) - 1 + length (split ";" s0))%nat.
Proof.
  split; [exact wf_duplicate_example |]. split; [reflexivity |].
  apply (clean_data_shape duplicate_example duplicate_example_cleaned).
  - exact wf_duplicate_example.
  - reflexivity.
Defined.

(** Every row of the cleaned table comes from a row of the input: the
    cells other than the packed one, then the normalized token values. *)
Lemma cleaned_row_origin (df out : DataFrame) :
  wf df → clean_data df = Ok out →
  ∃ p, columns df !! p = Some "categories" ∧
    ∀ r', r' ∈ rows out →
      ∃ r vs, r ∈ rows df ∧ category_values (nth p r NaN) = Some vs ∧
        length (delete p r) = (length (columns df) - 1)%nat ∧
        r' = delete p r ++ (Int ∘ normalize <$> vs).
Proof.
  intros Hwf Hout.
  destruct (clean_data_rows df out Hwf Hout)
    as (mid & p & _ & Hp & _ & _ & _ & Hrows & _ & Hsel).
  exists p. split; [done |]. intros r' Hr'.
  rewrite Hsel in Hr'.
  eapply elem_of_sublist in Hr'; [|apply select_unmarked_sublist].
  apply list_elem_of_lookup in Hr' as [i Hi].
  destruct (Forall2_lookup_r _ _ _ _ _ Hrows Hi) as (r & Hr & Hclean).
  unfold cleaned_row in Hclean.
  destruct (category_values (nth p r NaN)) as [vs|] eqn:Hvs; [|done].
  injection Hclean as <-. exists r, vs.
  pose proof (lookup_lt_Some _ _ _ Hr) as Hlt. rewrite length_rows in Hlt.
  rewrite rows_lookup in Hr by done. injection Hr as <-.
  split_and!; [| done | | done].
  - apply list_elem_of_lookup. exists i. by apply rows_lookup.
  - rewrite length_delete.
    + unfold columns. by rewrite length_row_at, length_fmap.
    + apply lookup_lt_is_Some_2. rewrite length_row_at.
      apply lookup_lt_Some in Hp. unfold columns in Hp.
      by rewrite length_fmap in Hp.
Qed.

(** X7.  In the category columns of the cleaned table every cell is an
    integer between 0 and 9 other than 2; the columns are binary, as the
    comment of line 39 announces, when no token of the input ends in a
    digit above 2. *)
Theorem clean_data_values (df out : DataFrame) :
  wf df → clean_data df = Ok out →
  ∃ p, columns df !! p = Some "categories" ∧
    (∀ r', r' ∈ rows out →
       Forall (λ c, ∃ z, c = Int z ∧ 0 ≤ z ≤ 9 ∧ z ≠ 2)
         (drop (length (columns df) - 1) r')) ∧
    ((∀ r vs, r ∈ rows df → category_values (nth p r NaN) = Some vs →
        Forall (λ v, v ≤ 2) vs) →
     ∀ r', r' ∈ rows out →
       Forall (λ c, c = Int 0 ∨ c = Int 1)
         (drop (length (columns df) - 1) r')).
Proof.
  intros Hwf Hout.
  destruct (cleaned_row_origin df out Hwf Hout) as (p & Hp & Horigin).
  exists p. split; [done |]. split.
  - intros r' Hr'.
    destruct (Horigin r' Hr') as (r & vs & _ & Hvs & Hlen & ->).
    rewrite drop_app_length' by done. apply Forall_fmap, Forall_forall.
    intros z Hz. unfold category_values in Hvs.
    destruct (nth p r NaN) as [s| |]; [|done..].
    apply mapM_Some_1 in Hvs.
    apply list_elem_of_lookup in Hz as [j Hj].
    destruct (Forall2_lookup_r _ _ _ _ _ Hvs Hj) as (t & _ & Ht).
    exists (normalize z). split; [done |]. by eapply token_value_normalized.
  - intros Hsmall r' Hr'.
    destruct (Horigin r' Hr') as (r & vs & Hr & Hvs & Hlen & ->).
    rewrite drop_app_length' by done. apply Forall_fmap.
    pose proof (Hsmall r vs Hr Hvs) as Hle.
    unfold category_values in Hvs.
    destruct (nth p r NaN) as [s| |]; [|done..].
    apply mapM_Some_1 in Hvs.
    apply Forall_lookup. intros j z Hj.
    destruct (Forall2_lookup_r _ _ _ _ _ Hvs Hj) as (t & _ & Ht).
    rewrite Forall_forall in Hle.
    pose proof (Hle z (list_elem_of_lookup_2 _ _ _ Hj)) as Hz.
    unfold token_value in Ht. destruct (last_char t) as [a|]; [|done].
    simpl in Ht. apply digit_value_range in Ht. simpl.
    unfold normalize. case_decide; [by right |].
    assert (z = 0 ∨ z = 1) as [-> | ->] by lia; [by left | by right].
Qed.

Lemma clean_data_values_witness :
  wf packed_example ∧
  clean_data packed_example = Ok packed_example_cleaned ∧
  ∃ p, columns packed_example !! p = Some "categories" ∧
    (∀ r', r' ∈ rows packed_example_cleaned →
       Forall (λ c, ∃ z, c = Int z ∧ 0 ≤ z ≤ 9 ∧ z ≠ 2)
         (drop (length (columns packed_example) - 1) r')) ∧
    ((∀ r vs, r ∈ rows packed_example →
        category_values (nth p r NaN) = Some vs → Forall (λ v, v ≤ 2) vs) →
     ∀ r', r' ∈ rows packed_example_cleaned →
       Forall (λ c, c = Int 0 ∨ c = Int 1)
         (drop (length (columns packed_example) - 1) r')).
Proof.
  split; [exact wf_packed_example |]. split; [reflexivity |].
  apply (clean_data_values packed_example packed_example_cleaned).
  - exact wf_packed_example.
  - reflexivity.
Defined.

(** Two lists of columns of one length that agree row by row are equal. *)
Lemma columns_ext (n : nat) (a b : list Series) :
  length a = length b →
  Forall (λ c, length c = n) a → Forall (λ c, length c = n) b →
  (∀ i, (i < n)%nat →
     (λ c, nth i c NaN) <$> a = (λ c, nth i c NaN) <$> b) →
  a = b.
Proof.
  intros Hl Ha Hb Hrows.
  apply (list_eq_same_length _ _ (length a)); [done | done |].
  intros j ca cb Hj Hca Hcb.
  rewrite Forall_lookup in Ha. rewrite Forall_lookup in Hb.
  apply (list_eq_same_length _ _ n); [by eapply Hb | by eapply Ha |].
  intros i x y Hi Hx Hy.
  pose proof (f_equal (.!! j) (Hrows i Hi)) as Heq. simpl in Heq.
  rewrite !list_lookup_fmap, Hca, Hcb in Heq. simpl in Heq.
  rewrite (nth_lookup_Some _ _ _ _ Hx), (nth_lookup_Some _ _ _ _ Hy) in Heq.
  congruence.
Qed.

(** X8.  The names of the tokens are read in the row labelled 0 only
    (lines 30-32); in every other row only the last character of each
    token counts (line 37).  So a table that differs from an accepted one
    in the packed cells of other rows, with the same values of the tokens,
    is cleaned to the same table. *)
Theorem clean_data_ignores_later_names
  (df df' out : DataFrame) pre post (cats cats' : Series) :
  wf df →
  data df = pre ++ ("categories", cats) :: post →
  index df' = index df →
  data df' = pre ++ ("categories", cats') :: post →
  (∀ p0, p0 ∈ positions 0 (index df) → cats' !! p0 = cats !! p0) →
  Forall2 (λ c c', category_values c = category_values c') cats cats' →
  clean_data df = Ok out → clean_data df' = Ok out.
Proof.
  intros Hwf Hd Hidx Hd' Hfirst Hvals Hout.
  apply clean_data_ok in Hout as (mid & Hmid & ->).
  destruct (expand_categories_inv df mid Hwf Hmid)
    as (pre0 & cats0 & post0 & p0 & s0 & cols & Hd0 & Hpre & Hpost & Hpos & Hp0
        & Hnd & Hlc & Hwc & Hrows & ->).
  rewrite Hd in Hd0.
  destruct (unique_split _ _ _ _ _ _ _ Hpre Hpost Hd0) as (<- & <- & <-).
  clear Hd0.
  pose proof (Forall2_length _ _ _ Hvals) as Hlen.
  assert (cats' !! p0 = Some (Str s0)) as Hp0'.
  { rewrite Hfirst; [done |]. rewrite Hpos. left. }
  assert (wf df') as Hwf'.
  { unfold wf, nrows in *. rewrite Hd', Hidx. rewrite Hd in Hwf.
    apply Forall_app in Hwf as [Hwpre Hwf].
    apply Forall_cons in Hwf as [Hwc0 Hwpost].
    apply Forall_app. split; [done |]. apply Forall_cons. split; [|done].
    simpl in *. lia. }
  assert (cleanable df') as Hcl.
  { exists cats', p0, s0. split_and!; try done.
    - apply getitem_ok. eauto.
    - by rewrite Hidx.
    - apply Forall_lookup. intros i c' Hc'.
      destruct (Forall2_lookup_r _ _ _ _ _ Hvals Hc') as (c & Hc & Hcc').
      destruct (Hrows i c Hc) as (s & vs & -> & Hvs & Hlv & _).
      simpl in Hcc'. rewrite Hvs in Hcc'.
      destruct c' as [s'| |]; [|done..]. simpl in Hcc'.
      by exists s', vs. }
  destruct (clean_data_cleanable df' Hwf' Hcl) as [out' Hout'].
  rewrite Hout'. f_equal.
  apply clean_data_ok in Hout' as (mid' & Hmid' & ->). f_equal.
  destruct (expand_categories_inv df' mid' Hwf' Hmid')
    as (pre1 & cats1 & post1 & p1 & s1 & cols1 & Hd1 & Hpre1 & Hpost1 & Hpos1
        & Hp1 & _ & Hlc1 & Hwc1 & Hrows1 & ->).
  rewrite Hd' in Hd1.
  destruct (unique_split _ _ _ _ _ _ _ Hpre1 Hpost1 Hd1) as (<- & <- & <-).
  clear Hd1.
  rewrite Hidx, Hpos in Hpos1. injection Hpos1 as <-.
  rewrite Hp0' in Hp1. injection Hp1 as <-.
  rewrite Hidx. do 3 f_equal.
  apply (columns_ext (length cats)).
  - lia.
  - eapply Forall_impl; [exact Hwc1 |]. simpl. intros c Hc. lia.
  - done.
  - intros i Hi.
    destruct (lookup_lt_is_Some_2 cats i Hi) as [c Hc].
    destruct (lookup_lt_is_Some_2 cats' i ltac:(lia)) as [c' Hc'].
    destruct (Hrows i c Hc) as (s & vs & -> & Hvs & _ & Hrow).
    destruct (Hrows1 i c' Hc') as (s' & vs' & -> & Hvs' & _ & Hrow').
    rewrite Hrow, Hrow'. f_equal.
    pose proof (Forall2_lookup_lr _ _ _ _ _ _ Hvals Hc Hc') as Heq.
    simpl in Heq. congruence.
Qed.

Lemma clean_data_ignores_later_names_witness :
  wf duplicate_example ∧
  data duplicate_example
  = [("id", [Int 1; Int 2; Int 1]);
     ("message", [Str "flood"; Str "fire"; Str "flood"])]
    ++ ("categories",
        [Str "related-1;request-0"; Str "related-2;request-1";
         Str "related-1;request-0"]) :: [] ∧
  index renamed_example = index duplicate_example ∧
  data renamed_example
  = [("id", [Int 1; Int 2; Int 1]);
     ("message", [Str "flood"; Str "fire"; Str "flood"])]
    ++ ("categories",
        [Str "related-1;request-0"; Str "request-2;offer-1";
         Str "related-1;request-0"]) :: [] ∧
  (∀ p0, p0 ∈ positions 0 (index duplicate_example) →
     [Str "related-1;request-0"; Str "request-2;offer-1";
      Str "related-1;request-0"] !! p0
     = [Str "related-1;request-0"; Str "related-2;request-1";
        Str "related-1;request-0"] !! p0) ∧
  Forall2 (λ c c', category_values c = category_values c')
    [Str "related-1;request-0"; Str "related-2;request-1";
     Str "related-1;request-0"]
    [Str "related-1;request-0"; Str "request-2;offer-1";
     Str "related-1;request-0"] ∧
  clean_data duplicate_example = Ok duplicate_example_cleaned ∧
  clean_data renamed_example = Ok duplicate_example_cleaned.
Proof.
  assert (∀ p0, p0 ∈ positions 0 (index duplicate_example) →
     [Str "related-1;request-0"; Str "request-2;offer-1";
      Str "related-1;request-0"] !! p0
     = [Str "related-1;request-0"; Str "related-2;request-1";
        Str "related-1;request-0"] !! p0) as Hfirst.
  { intros p0 Hp0. simpl in Hp0.
    apply list_elem_of_singleton in Hp0 as ->. reflexivity. }
  split; [exact wf_duplicate_example |].
  do 3 (split; [reflexivity |]).
  split; [exact Hfirst |].
  split; [repeat constructor |].
  split; [reflexivity |].
  apply (clean_data_ignores_later_names duplicate_example renamed_example
           duplicate_example_cleaned
           [("id", [Int 1; Int 2; Int 1]);
            ("message", [Str "flood"; Str "fire"; Str "flood"])] []
           [Str "related-1;request-0"; Str "related-2;request-1";
            Str "related-1;request-0"]
           [Str "related-1;request-0"; Str "request-2;offer-1";
            Str "related-1;request-0"]).
  - exact wf_duplicate_example.
  - reflexivity.
  - reflexivity.
  - reflexivity.
  - exact Hfirst.
  - repeat constructor.
  - reflexivity.
Defined.

(** * Further properties of [save_data] *)

Lemma save_data_ok engine_accepts engine_refusal (df : DataFrame) f (st st' : Store) :
  save_data engine_accepts engine_refusal df f st = Ok st' ↔
  engine_accepts ("sqlite:///" +:+ f) df = true ∧
  st' = <["sqlite:///" +:+ f :=
           <["DisasterResponse" := table_of df]>
             (default ∅ (st !! ("sqlite:///" +:+ f)))]> st.
Proof.
  unfold save_data, create_engine, to_sql.
  destruct (engine_accepts _ df); [|by split; [|intros []]].
  destruct (default ∅ (st !! _) !! "DisasterResponse");
    split; try (intros [= <-]; done); by intros [_ ->].
Qed.

(** X9.  With [if_exists="replace"] (line 61) a write leaves no trace of
    the write before it: a second table that the engine accepts is saved
    after a first with the result of saving it alone, the same store in
    both cases, and saving the first table again changes nothing. *)
Theorem save_data_overwrites (engine_accepts : string → DataFrame → bool)
    (engine_refusal : string → DataFrame → exn)
    (df1 df2 : DataFrame) (database_filename : string) (st st1 : Store) :
  save_data engine_accepts engine_refusal df1 database_filename st = Ok st1 →
  engine_accepts ("sqlite:///" +:+ database_filename) df2 = true →
  save_data engine_accepts engine_refusal df1 database_filename st1 = Ok st1 ∧
  ∃ st2,
    save_data engine_accepts engine_refusal df2 database_filename st = Ok st2 ∧
    save_data engine_accepts engine_refusal df2 database_filename st1 = Ok st2.
Proof.
  intros [Hacc ->]%save_data_ok H2.
  set (url := "sqlite:///" +:+ database_filename) in *.
  set (db := default ∅ (st !! url)).
  assert (∀ df : DataFrame, engine_accepts url df = true →
    save_data engine_accepts engine_refusal df database_filename
      (<[url := <["DisasterResponse" := table_of df1]> db]> st)
    = Ok (<[url := <["DisasterResponse" := table_of df]> db]> st)) as Hsave.
  { intros df Hdf. apply save_data_ok. fold url. split; [done |].
    rewrite lookup_insert_eq. simpl. by rewrite !insert_insert_eq. }
  split; [by apply Hsave |].
  exists (<[url := <["DisasterResponse" := table_of df2]> db]> st). split.
  - by apply save_data_ok.
  - by apply Hsave.
Qed.

Lemma save_data_overwrites_witness :
  save_data accept_all refuse_operational packed_example_cleaned
    "DisasterResponse.db" ∅
  = Ok {["sqlite:///DisasterResponse.db" :=
           {["DisasterResponse" := table_of packed_example_cleaned]}]} ∧
  accept_all ("sqlite:///" +:+ "DisasterResponse.db") duplicate_example_cleaned
  = true ∧
  save_data accept_all refuse_operational packed_example_cleaned
    "DisasterResponse.db"
    {["sqlite:///DisasterResponse.db" :=
        {["DisasterResponse" := table_of packed_example_cleaned]}]}
  = Ok {["sqlite:///DisasterResponse.db" :=
           {["DisasterResponse" := table_of packed_example_cleaned]}]} ∧
  ∃ st2,
    save_data accept_all refuse_operational duplicate_example_cleaned
      "DisasterResponse.db" ∅ = Ok st2 ∧
    save_data accept_all refuse_operational duplicate_example_cleaned
      "DisasterResponse.db"
      {["sqlite:///DisasterResponse.db" :=
          {["DisasterResponse" := table_of packed_example_cleaned]}]}
    = Ok st2.
Proof.
  split; [reflexivity |]. split; [reflexivity |].
  apply (save_data_overwrites accept_all refuse_operational
           packed_example_cleaned duplicate_example_cleaned
           "DisasterResponse.db" ∅);
    reflexivity.
Defined.

(** * Further properties of [main] *)

(** [main] with three positional arguments, stage by stage. *)
Lemma main_run read_csv engine_accepts engine_refusal a0 mp cp dp (st : Store) :
  main read_csv engine_accepts engine_refusal [a0; mp; cp; dp] st
  = match load_data read_csv mp cp with
    | Raise e => ([loading_message mp cp], Raise e)
    | Ok df =>
        match clean_data df with
        | Raise e => ([loading_message mp cp; "Cleaning data..."], Raise e)
        | Ok out =>
            match save_data engine_accepts engine_refusal out dp st with
            | Raise e =>
                ([loading_message mp cp; "Cleaning data...";
                  saving_message dp], Raise e)
            | Ok st' =>
                ([loading_message mp cp; "Cleaning data...";
                  saving_message dp; "Cleaned data saved to database!"],
                 Ok st')
            end
        end
    end.
Proof.
  unfold main, loading_message, saving_message.
  destruct (load_data read_csv mp cp) as [df|e]; [|done].
  destruct (clean_data df) as [out|e]; [|done].
  by destruct (save_data engine_accepts engine_refusal out dp st).
Qed.

Lemma clean_data_no_rows (df : DataFrame) :
  index df = [] → raises (clean_data df).
Proof.
  intros Hidx. unfold clean_data, str_split_expand.
  destruct (getitem df "categories") as [s|e]; [|by eexists].
  simpl. destruct (str_accessor s) as [s'|e]; [|by eexists].
  simpl. rewrite Hidx. by eexists.
Qed.

Lemma clean_data_has_rows (df out : DataFrame) :
  wf df → clean_data df = Ok out → rows out ≠ [] ∧ NoDup (rows out).
Proof.
  intros Hwf Hout.
  destruct (clean_data_rows df out Hwf Hout)
    as (mid & p & _ & _ & _ & Hidx & _ & _ & _ & Hsr).
  rewrite Hsr. split; [|apply NoDup_first_occurrences].
  assert (rows mid ≠ []) as Hrows; [|by apply select_unmarked_first].
  intros Hr%(f_equal length). rewrite length_rows in Hr.
  unfold nrows in Hr. rewrite Hidx in Hr.
  destruct (index df) eqn:Hi; [|done].
  destruct (clean_data_no_rows df Hi) as [e He]. congruence.
Qed.

Lemma join_positions_disjoint (lk rk : Series) :
  (∀ k, k ∈ lk → k ∉ rk) → join_positions lk rk = [].
Proof.
  intros Hdis. destruct (join_positions lk rk) as [|[i j] l] eqn:Hj; [done |].
  assert ((i, j) ∈ join_positions lk rk) as Hin by (rewrite Hj; left).
  apply elem_of_join_positions in Hin as (k & Hi & Hk).
  destruct (Hdis k); by eapply list_elem_of_lookup_2.
Qed.

(** X10.  A run of [main] with three arguments that returns has printed
    the four progress messages in order and leaves, at the location of the
    database file, a table [DisasterResponse] with an [id] column, at
    least one row, no row twice and as many cells in every row as headers;
    the other tables of that database and the other locations of the store
    are untouched. *)
Theorem main_stores_cleaned_table (read_csv : string → result DataFrame)
    (engine_accepts : string → DataFrame → bool)
    (engine_refusal : string → DataFrame → exn)
    (a0 mp cp dp : string) (st st' : Store) (printed : list string) :
  main read_csv engine_accepts engine_refusal [a0; mp; cp; dp] st = (printed, Ok st') →
  printed = [loading_message mp cp; "Cleaning data..."; saving_message dp;
             "Cleaned data saved to database!"] ∧
  ∃ t,
    st' = <["sqlite:///" +:+ dp :=
             <["DisasterResponse" := t]>
               (default ∅ (st !! ("sqlite:///" +:+ dp)))]> st ∧
    "id" ∈ table_columns t ∧
    table_rows t ≠ [] ∧
    NoDup (table_rows t) ∧
    Forall (λ r, length r = length (table_columns t)) (table_rows t).
Proof.
  rewrite main_run. intros Hmain.
  destruct (load_data read_csv mp cp) as [df|e] eqn:Hload; [|done].
  destruct (clean_data df) as [out|e] eqn:Hclean; [|done].
  destruct (save_data engine_accepts engine_refusal out dp st) as [st2|e] eqn:Hsave; [|done].
  injection Hmain as <- <-. split; [done |].
  apply save_data_ok in Hsave as [_ ->].
  destruct (load_data_wf _ _ _ _ Hload) as [Hwf _].
  exists (table_of out). split; [done |]. simpl.
  destruct (clean_data_has_rows df out Hwf Hclean) as [Hne Hnd].
  split_and!; [| done | done |].
  - destruct (clean_data_rows df out Hwf Hclean)
      as (mid & p & Hmid & _ & [names Hcols] & _).
    apply clean_data_ok in Hclean as (mid' & Hmid' & ->).
    assert (mid' = mid) as -> by congruence.
    rewrite drop_duplicates_columns, Hcols.
    apply elem_of_app. left. apply list_elem_of_filter. split; [done |].
    apply load_data_ok in Hload as (m & c & _ & _ & Hmerge).
    destruct (merge_inv _ _ _ _ Hmerge) as (lk & rk & Hlk & Hrk & _ & _).
    destruct (merge_ids m c df lk rk Hmerge Hlk Hrk) as (ids & Hids & _).
    apply getitem_ok in Hids as (pre & post & Hd & _).
    unfold columns. rewrite Hd, fmap_app, fmap_cons. set_solver.
  - apply Forall_forall. intros r Hr. unfold rows in Hr.
    apply list_elem_of_fmap in Hr as (i & -> & _).
    unfold columns. by rewrite length_row_at, length_fmap.
Qed.

Lemma main_stores_cleaned_table_witness :
  main flood_files accept_all refuse_operational
    ["process_data.py"; "messages.csv"; "categories.csv"; "DisasterResponse.db"]
    ∅
  = ([loading_message "messages.csv" "categories.csv"; "Cleaning data...";
      saving_message "DisasterResponse.db"; "Cleaned data saved to database!"],
     Ok {["sqlite:///DisasterResponse.db" :=
            {["DisasterResponse" := table_of flood_cleaned]}]}) ∧
  [loading_message "messages.csv" "categories.csv"; "Cleaning data...";
   saving_message "DisasterResponse.db"; "Cleaned data saved to database!"]
  = [loading_message "messages.csv" "categories.csv"; "Cleaning data...";
     saving_message "DisasterResponse.db"; "Cleaned data saved to database!"] ∧
  ∃ t,
    ({["sqlite:///DisasterResponse.db" :=
         {["DisasterResponse" := table_of flood_cleaned]}]} : Store)
    = <["sqlite:///" +:+ "DisasterResponse.db" :=
         <["DisasterResponse" := t]>
           (default ∅ ((∅ : Store) !! ("sqlite:///" +:+ "DisasterResponse.db")))]>
        ∅ ∧
    "id" ∈ table_columns t ∧
    table_rows t ≠ [] ∧
    NoDup (table_rows t) ∧
    Forall (λ r, length r = length (table_columns t)) (table_rows t).
Proof.
  split; [reflexivity |].
  apply (main_stores_cleaned_table flood_files accept_all refuse_operational
           "process_data.py" "messages.csv" "categories.csv"
           "DisasterResponse.db" ∅).
  reflexivity.
Defined.

(** X11.  A run of [main] with three arguments that ends with an exception
    stopped at the first stage that failed: it printed the messages up to
    that stage and never the final one, and returned no store.  The
    exception is the one of [load_data], else the one of [clean_data],
    else the one of [save_data]; the exit status is 1. *)
Theorem main_stops_at_first_failure (read_csv : string → result DataFrame)
    (engine_accepts : string → DataFrame → bool)
    (engine_refusal : string → DataFrame → exn)
    (a0 mp cp dp : string) (st : Store) (printed : list string) (e : exn) :
  main read_csv engine_accepts engine_refusal [a0; mp; cp; dp] st
  = (printed, Raise e) →
  ("Cleaned data saved to database!" ∉ printed) ∧
  exit_status
    (main read_csv engine_accepts engine_refusal [a0; mp; cp; dp] st).2 = 1 ∧
  ((printed = [loading_message mp cp] ∧
    load_data read_csv mp cp = Raise e)
   ∨ (printed = [loading_message mp cp; "Cleaning data..."] ∧
      ∃ df, load_data read_csv mp cp = Ok df ∧ clean_data df = Raise e)
   ∨ (printed = [loading_message mp cp; "Cleaning data...";
                 saving_message dp] ∧
      ∃ df out, load_data read_csv mp cp = Ok df ∧ clean_data df = Ok out ∧
        save_data engine_accepts engine_refusal out dp st = Raise e)).
Proof.
  intros Hmain. rewrite Hmain. simpl. rewrite main_run in Hmain.
  assert ("Cleaned data saved to database!"
          ∉ [loading_message mp cp; "Cleaning data..."; saving_message dp])
    as Hnot.
  { unfold loading_message, saving_message. intros Hin.
    repeat (apply elem_of_cons in Hin as [Hin | Hin]; [discriminate Hin |]).
    by apply elem_of_nil in Hin. }
  destruct (load_data read_csv mp cp) as [df|e1] eqn:Hload.
  - destruct (clean_data df) as [out|e2] eqn:Hclean.
    + destruct (save_data engine_accepts engine_refusal out dp st)
        as [st2|e3] eqn:Hsave; [done |].
      injection Hmain as <- <-. split_and!; [done | done |].
      right. right. split; [done |]. by exists df, out.
    + injection Hmain as <- <-. split_and!; [set_solver | done |].
      right. left. split; [done |]. by exists df.
  - injection Hmain as <- <-. split_and!; [set_solver | done |]. by left.
Qed.

Lemma main_stops_at_first_failure_witness :
  main keyless_files accept_all refuse_operational
    ["process_data.py"; "messages.csv"; "categories.csv"; "DisasterResponse.db"]
    ∅
  = ([loading_message "messages.csv" "categories.csv"], Raise KeyError) ∧
  ("Cleaned data saved to database!"
   ∉ [loading_message "messages.csv" "categories.csv"]) ∧
  exit_status
    (main keyless_files accept_all refuse_operational
       ["process_data.py"; "messages.csv"; "categories.csv";
        "DisasterResponse.db"] ∅).2 = 1 ∧
  (([loading_message "messages.csv" "categories.csv"]
    = [loading_message "messages.csv" "categories.csv"] ∧
    load_data keyless_files "messages.csv" "categories.csv" = Raise KeyError)
   ∨ ([loading_message "messages.csv" "categories.csv"]
      = [loading_message "messages.csv" "categories.csv"; "Cleaning data..."] ∧
      ∃ df, load_data keyless_files "messages.csv" "categories.csv" = Ok df ∧
        clean_data df = Raise KeyError)
   ∨ ([loading_message "messages.csv" "categories.csv"]
      = [loading_message "messages.csv" "categories.csv"; "Cleaning data...";
         saving_message "DisasterResponse.db"] ∧
      ∃ df out,
        load_data keyless_files "messages.csv" "categories.csv" = Ok df ∧
        clean_data df = Ok out ∧
        save_data accept_all refuse_operational out "DisasterResponse.db" ∅
        = Raise KeyError)).
Proof.
  split; [reflexivity |].
  apply (main_stops_at_first_failure keyless_files accept_all
           refuse_operational
           "process_data.py" "messages.csv" "categories.csv"
           "DisasterResponse.db" ∅).
  reflexivity.
Defined.

(** X12.  Files without a common key do not give an empty table in the
    database: when no key of the messages is a key of the categories, the
    table the inner join returns has no row, the row labelled 0 that
    [clean_data] reads is missing, and [main] ends with the exception of
    [clean_data] after the second message, without a write. *)
Theorem main_no_common_id (read_csv : string → result DataFrame)
    (engine_accepts : string → DataFrame → bool)
    (engine_refusal : string → DataFrame → exn)
    (a0 mp cp dp : string) (st : Store) (m c df : DataFrame)
    (lk rk : Series) :
  read_csv mp = Ok m → read_csv cp = Ok c →
  getitem m "id" = Ok lk → getitem c "id" = Ok rk →
  (∀ k, k ∈ lk → left_key lk rk k ∉ right_keys lk rk) →
  load_data read_csv mp cp = Ok df →
  nrows df = 0%nat ∧
  ∃ e,
    clean_data df = Raise e ∧
    main read_csv engine_accepts engine_refusal [a0; mp; cp; dp] st
    = ([loading_message mp cp; "Cleaning data..."], Raise e).
Proof.
  intros Hm Hc Hlk Hrk Hdis Hload.
  assert (index df = []) as Hidx.
  { pose proof Hload as (m' & c' & Hm' & Hc' & Hmerge)%load_data_ok.
    assert (m' = m) as -> by congruence. assert (c' = c) as -> by congruence.
    destruct (merge_inv _ _ _ _ Hmerge) as (lk' & rk' & Hlk' & Hrk' & _ & ->).
    assert (lk' = lk) as -> by congruence.
    assert (rk' = rk) as -> by congruence.
    cbv zeta. cbn [index]. rewrite join_positions_disjoint; [done |].
    intros k' (k & -> & Hk)%list_elem_of_fmap. by apply Hdis. }
  destruct (clean_data_no_rows df Hidx) as [e He].
  split; [unfold nrows; by rewrite Hidx |].
  exists e. split; [done |]. by rewrite main_run, Hload, He.
Qed.

Lemma main_no_common_id_witness :
  disjoint_files "messages.csv" = Ok messages_example ∧
  disjoint_files "categories.csv" = Ok disjoint_categories ∧
  getitem messages_example "id" = Ok [Int 1; Int 2; Int 3] ∧
  getitem disjoint_categories "id" = Ok [Int 9] ∧
  (∀ k, k ∈ [Int 1; Int 2; Int 3] →
     left_key [Int 1; Int 2; Int 3] [Int 9] k
     ∉ right_keys [Int 1; Int 2; Int 3] [Int 9]) ∧
  load_data disjoint_files "messages.csv" "categories.csv"
  = Ok (MkFrame [] [("id", []); ("message", []); ("categories", [])]) ∧
  nrows (MkFrame [] [("id", []); ("message", []); ("categories", [])]
         : DataFrame) = 0%nat ∧
  ∃ e,
    clean_data (MkFrame [] [("id", []); ("message", []); ("categories", [])])
    = Raise e ∧
    main disjoint_files accept_all refuse_operational
      ["process_data.py"; "messages.csv"; "categories.csv";
       "DisasterResponse.db"] ∅
    = ([loading_message "messages.csv" "categories.csv"; "Cleaning data..."],
       Raise e).
Proof.
  assert (∀ k, k ∈ [Int 1; Int 2; Int 3] →
     left_key [Int 1; Int 2; Int 3] [Int 9] k
     ∉ right_keys [Int 1; Int 2; Int 3] [Int 9]) as Hdis.
  { intros k Hk Hk9. apply list_elem_of_singleton in Hk9.
    repeat (apply elem_of_cons in Hk as [-> | Hk]; [discriminate Hk9 |]).
    by apply elem_of_nil in Hk. }
  do 4 (split; [reflexivity |]). split; [exact Hdis |].
  split; [reflexivity |].
  apply (main_no_common_id disjoint_files accept_all refuse_operational
           "process_data.py" "messages.csv" "categories.csv"
           "DisasterResponse.db" ∅ messages_example disjoint_categories
           (MkFrame [] [("id", []); ("message", []); ("categories", [])])
           [Int 1; Int 2; Int 3] [Int 9]);
    first [reflexivity | exact Hdis].
Defined.

(** X13.  Running [main] again on the store it left prints the same lines
    and leaves the same store: the table is replaced by itself, not
    extended. *)
Theorem main_rerun (read_csv : string → result DataFrame)
    (engine_accepts : string → DataFrame → bool)
    (engine_refusal : string → DataFrame → exn)
    (argv : list string) (st st' : Store) (printed : list string) :
  main read_csv engine_accepts engine_refusal argv st = (printed, Ok st') →
  main read_csv engine_accepts engine_refusal argv st' = (printed, Ok st').
Proof.
  intros Hmain.
  destruct argv as [|a0 [|mp [|cp [|dp [|extra argv]]]]];
    try (simpl in *; injection Hmain as <- <-; done).
  rewrite main_run in *.
  destruct (load_data read_csv mp cp) as [df|e]; [|done].
  destruct (clean_data df) as [out|e]; [|done].
  destruct (save_data engine_accepts engine_refusal out dp st) as [st2|e] eqn:Hsave; [|done].
  injection Hmain as <- <-.
  apply save_data_ok in Hsave as [Hacc ->].
  set (url := "sqlite:///" +:+ dp).
  set (db := default ∅ (st !! url)).
  assert (save_data engine_accepts engine_refusal out dp
            (<[url := <["DisasterResponse" := table_of out]> db]> st)
          = Ok (<[url := <["DisasterResponse" := table_of out]> db]> st)) as ->;
    [|done].
  apply save_data_ok. fold url. split; [done |].
  rewrite lookup_insert_eq. simpl. by rewrite !insert_insert_eq.
Qed.

Lemma main_rerun_witness :
  main flood_files accept_all refuse_operational
    ["process_data.py"; "messages.csv"; "categories.csv"; "DisasterResponse.db"]
    ∅
  = ([loading_message "messages.csv" "categories.csv"; "Cleaning data...";
      saving_message "DisasterResponse.db"; "Cleaned data saved to database!"],
     Ok {["sqlite:///DisasterResponse.db" :=
            {["DisasterResponse" := table_of flood_cleaned]}]}) ∧
  main flood_files accept_all refuse_operational
    ["process_data.py"; "messages.csv"; "categories.csv"; "DisasterResponse.db"]
    {["sqlite:///DisasterResponse.db" :=
        {["DisasterResponse" := table_of flood_cleaned]}]}
  = ([loading_message "messages.csv" "categories.csv"; "Cleaning data...";
      saving_message "DisasterResponse.db"; "Cleaned data saved to database!"],
     Ok {["sqlite:///DisasterResponse.db" :=
            {["DisasterResponse" := table_of flood_cleaned]}]}).
Proof.
  split; [reflexivity |].
  apply (main_rerun flood_files accept_all refuse_operational
           ["process_data.py"; "messages.csv"; "categories.csv";
            "DisasterResponse.db"] ∅).
  reflexivity.
Defined.
